(** * JupiterLibrary: the agreement schedule engine of [JupiterDoc]

    A shallow embedding of the schedule engine of the [JupiterDoc] class:
    term date resolution, base payment, payment model resolution, the period
    calendar, the rounds of the standard generator, the date based generator,
    the purchase price settlement, the amendment overlay and the quality
    control of the payment models.

    Conventions of the embedding.
    - A JavaScript number holding money, a rate or a count of years is a
      rational ([Q]); results are compared with [==].  Rounding of IEEE
      doubles is not part of the model.
    - A property that may be [undefined] or [null] is an [option]; the
      operator [??] is [nullish], and truthiness is spelled out per type.
    - A luxon [DateTime] is its millisecond timestamp [ts] in a fixed zone
      without daylight saving, so that comparing two dates is comparing
      integers, exactly as [valueOf] does in the source.
    - A document is an object, and a collection of documents holds the
      document whose method runs: a method that writes on [this] and on
      the documents of a collection is a function from the collection to
      the collection, [this] being its element at a given position. *)

From Stdlib Require Import ZArith QArith Qminmax Qpower Qround List String Bool Lia.
From Stdlib Require Import Permutation Sorted.
From Stdlib Require Import DecimalString.
Import ListNotations.

Local Open Scope Z_scope.

(** ** JavaScript values *)

Module JS.

(** [a ?? b] on a property that may be missing. *)
Definition nullish {A : Type} (a : option A) (b : A) : A :=
  match a with Some x => x | None => b end.

(** [a ?? b] where [b] itself may be missing. *)
Definition nullish_opt {A : Type} (a b : option A) : option A :=
  match a with Some x => Some x | None => b end.

(** [a || b] on objects, which are truthy whenever present. *)
Definition or_obj {A : Type} (a b : option A) : option A :=
  match a with Some x => Some x | None => b end.

(** Truthiness of an object reference. *)
Definition truthy_obj {A : Type} (a : option A) : bool :=
  match a with Some _ => true | None => false end.

(** Truthiness of a number: present and not zero. *)
Definition truthy_num (a : option Q) : bool :=
  match a with Some q => negb (Qeq_bool q 0) | None => false end.

(** Truthiness of an integer valued number. *)
Definition truthy_int (a : option Z) : bool :=
  match a with Some z => negb (z =? 0) | None => false end.

(** Truthiness of a string: present and not empty. *)
Definition truthy_str (a : option string) : bool :=
  match a with Some EmptyString => false | Some _ => true | None => false end.

(** Truthiness of a flag that may be missing. *)
Definition truthy_bool (a : option bool) : bool :=
  match a with Some b => b | None => false end.

(** [a === b] on strings that may be missing. *)
Definition strict_eq_str (a b : option string) : bool :=
  match a, b with
  | Some x, Some y => String.eqb x y
  | None, None => true
  | _, _ => false
  end.

(** [Array.prototype.find]. *)
Definition find {A : Type} (p : A -> bool) (l : list A) : option A :=
  List.find p l.

End JS.

(** ** The luxon calendar *)

Module Luxon.

Definition DateTime := Z.

Definition MS_PER_HOUR : Z := 3600000.
Definition MS_PER_DAY : Z := 86400000.

(** Day number (days since 1970-01-01) of a proleptic Gregorian date. *)
Definition days_from_civil (y m d : Z) : Z :=
  let y' := if m <=? 2 then y - 1 else y in
  let era := y' / 400 in
  let yoe := y' - era * 400 in
  let mp := if m >? 2 then m - 3 else m + 9 in
  let doy := (153 * mp + 2) / 5 + d - 1 in
  let doe := yoe * 365 + yoe / 4 - yoe / 100 + doy in
  era * 146097 + doe - 719468.

(** Year, month and day of a day number. *)
Definition civil_from_days (z : Z) : Z * Z * Z :=
  let z' := z + 719468 in
  let era := z' / 146097 in
  let doe := z' - era * 146097 in
  let yoe := (doe - doe / 1460 + doe / 36524 - doe / 146096) / 365 in
  let doy := doe - (365 * yoe + yoe / 4 - yoe / 100) in
  let mp := (5 * doy + 2) / 153 in
  let d := doy - (153 * mp + 2) / 5 + 1 in
  let m := if mp <? 10 then mp + 3 else mp - 9 in
  let y := yoe + era * 400 in
  ((if m <=? 2 then y + 1 else y), m, d).

Definition is_leap (y : Z) : bool :=
  ((y mod 4 =? 0) && negb (y mod 100 =? 0)) || (y mod 400 =? 0).

Definition days_in_month (y m : Z) : Z :=
  if m =? 2 then (if is_leap y then 29 else 28)
  else if (m =? 4) || (m =? 6) || (m =? 9) || (m =? 11) then 30
  else 31.

Definition day_number (t : DateTime) : Z := t / MS_PER_DAY.
Definition ms_of_day (t : DateTime) : Z := t mod MS_PER_DAY.

(** [DateTime.local(y, m, d)]: midnight of that day. *)
Definition local (y m d : Z) : DateTime := days_from_civil y m d * MS_PER_DAY.

Definition year (t : DateTime) : Z :=
  let '(y, _, _) := civil_from_days (day_number t) in y.
Definition month (t : DateTime) : Z :=
  let '(_, m, _) := civil_from_days (day_number t) in m.
Definition day (t : DateTime) : Z :=
  let '(_, _, d) := civil_from_days (day_number t) in d.

(** [t.c.hour] *)
Definition hour (t : DateTime) : Z := ms_of_day t / MS_PER_HOUR.

(** [t.startOf("day")] *)
Definition startOfDay (t : DateTime) : DateTime := t - ms_of_day t.

(** [t.plus({ days: n })]; [t.minus({ days: n })] is [plus_days t (- n)]. *)
Definition plus_days (t : DateTime) (n : Z) : DateTime := t + n * MS_PER_DAY.

(** [t.plus({ months: n })]: the month is advanced and the day of the month
    is capped at the length of the month reached. *)
Definition plus_months (t : DateTime) (n : Z) : DateTime :=
  let '(y, m, d) := civil_from_days (day_number t) in
  let k := (m - 1) + n in
  let y' := y + k / 12 in
  let m' := k mod 12 + 1 in
  let d' := Z.min d (days_in_month y' m') in
  days_from_civil y' m' d' * MS_PER_DAY + ms_of_day t.

(** [t.plus({ years: n })] *)
Definition plus_years (t : DateTime) (n : Z) : DateTime := plus_months t (12 * n).

End Luxon.

Import Luxon.

(** ** Data model *)

(** A payee: [g["grantor/lessor_name"]] and the optional [payment_split]. *)
Record Grantor := {
  grantor_lessor_name : string;
  payment_split : option Q
}.

(** [operational_details] *)
Record OpDetails := {
  commencement_date : option DateTime;
  construction_commencement : option DateTime;
  operations_commencement : option DateTime;
  mw : option Q;
  inverter_count : option Q;
  inverter_rating_mvas : option Q
}.

(** [termination]: an object whose only key read by the engine is
    [termination_date]; [termination_keys] lists its other keys. *)
Record Termination := {
  termination_date : option DateTime;
  termination_keys : list string
}.

Module Event.
(** One emitted payment.  Dates are kept as [DateTime] where the source
    stores their [toLocaleString()] rendering. *)
Record t := {
  payment_source : string;
  model_id : option string;
  project_id : option string;
  payment_index : option Z;
  payment_date : DateTime;
  late_payment_date : option DateTime;
  payment_type : option string;
  payment_amount : Q;
  payee : string;
  payment_period_start : option DateTime;
  payment_period_end : option DateTime;
  prorata_factor : option Q;
  applicable_to_purchase : bool;
  refundable : bool;
  after_outside_date : bool;
  previous_periods : option Q
}.
End Event.

(** An element of [property_description]. *)
Record PropertyDescription := {
  agreement_acres : option Q;
  exclude_acres_from_controlled_acres : bool;
  county : option string;
  state : option string
}.

Module Term.
(** An element of [agreement_terms]. *)
Record t := {
  term_ordinal : Z;
  term_type : option string;
  extension : bool;
  term_length_years : option Q;
  payment_model : option string;
  first_payment_start : option string;
  increase_amount : option Q;
  escalation_rate : option Q;
  (* computed by calcAgreementTermDates *)
  start_date : option DateTime;
  end_date : option DateTime;
  cancelled_by_ops : bool;
  cumulative_increase_amount : option Q;
  cumulative_escalation_rate : option Q;
  (* computed by calcAllTermPayments *)
  periodic_payments : option (list Event.t)
}.
End Term.

Module TermModel.
(** An element of [term_payment_models]. *)
Record t := {
  id : option string;
  model_type : option string;
  payment_frequency : option string;
  minimum_payment : option Q;
  payment_per_mw : option Q;
  payment_per_mva : option Q;
  flat_payment_amount : option Q;
  payment_per_acre : option Q;
  periodic_escalation_rate : option Q;
  periodic_escalation_frequency : option string;
  increase_amount : option Q;
  prorated_first_period : bool;
  first_payment_lag : option Z;
  subsequent_payment_lag : option Z;
  apply_payment_lag_to_extension : bool;
  payee : option string;
  applicable_to_purchase : bool
}.
End TermModel.

Module DateModel.
(** An element of [date_payment_models]. *)
Record t := {
  id : option string;
  date_one_time : option DateTime;
  date_begin : option DateTime;
  date_end : option DateTime;
  frequency : option string;
  payment_amount : option Q;
  increase_amount : option Q;
  periodic_escalation_rate : option Q;
  first_payment_lag : option Z;
  subsequent_payment_lag : option Z;
  payment_type : option string;
  payee : option string;
  applicable_to_purchase : bool;
  refundable : bool
}.
End DateModel.

Module Doc.
(** The fields of a [JupiterDoc] that the schedule engine and the amendment
    overlay read or write.  [amendments] holds the ids of the documents the
    source keeps references to. *)
Record t := {
  id : string;
  project_id : option string;
  agreement_group : option string;
  jupiter_entity : option string;
  grantee : option string;
  grantor : list Grantor;
  effective_date : option DateTime;
  amendment_date : option DateTime;
  letter_date : option DateTime;
  deed_date : option DateTime;
  payment_directive_date : option DateTime;
  recorded_date : option DateTime;
  outside_date : option DateTime;
  estimated_closing_date : option DateTime;
  date_purchased : option DateTime;
  date_sold : option DateTime;
  full_purchase_price : option Q;
  property_description : list PropertyDescription;
  operational_details : OpDetails;
  termination : Termination;
  agreement_terms : list Term.t;
  term_payment_models : list TermModel.t;
  date_payment_models : list DateModel.t;
  date_payments : list Event.t;
  review_status : option string;
  review_status_doc_id : option string;
  review_status_instance_id : option string;
  review_status_value_instance_id : option string;
  review_status_notes : option string;
  sort_date : option DateTime;
  amendment_ordinal : option Z;
  amendments : list string
}.
End Doc.

(** ** Helpers of [utils.js] *)

(** Modelled from the spec: [utils.getEarliestDateTimeFromArray], which is not
    among the sources.  It returns the earliest of the dates that are present,
    and nothing when none is. *)
Fixpoint getEarliestDateTimeFromArray (l : list (option DateTime)) : option DateTime :=
  match l with
  | [] => None
  | None :: rest => getEarliestDateTimeFromArray rest
  | Some d :: rest =>
      match getEarliestDateTimeFromArray rest with
      | Some e => Some (Z.min d e)
      | None => Some d
      end
  end.

(** Modelled from the spec: [utils.getEarliestDateTime], the two argument form
    of the same helper. *)
Definition getEarliestDateTime (a b : option DateTime) : option DateTime :=
  getEarliestDateTimeFromArray [a; b].

(** Modelled from the spec: [utils.calculateCompoundingGrowth], section 4.1:
    [base * (1 + rate) ^ periods]. *)
Definition calculateCompoundingGrowth (base rate : Q) (periods : Z) : Q :=
  (base * Qpower (1 + rate) periods)%Q.

(** ** Term date resolver *)

(** [Array.prototype.sort] with a comparator [key a - key b] is a stable sort
    on [key]; insertion from the right keeps equal keys in their original
    order. *)
Fixpoint insert_by_key {A : Type} (key : A -> Z) (x : A) (l : list A) : list A :=
  match l with
  | [] => [x]
  | y :: rest =>
      if key x <=? key y then x :: y :: rest else y :: insert_by_key key x rest
  end.

Fixpoint sort_by_key {A : Type} (key : A -> Z) (l : list A) : list A :=
  match l with
  | [] => []
  | x :: rest => insert_by_key key x (sort_by_key key rest)
  end.

(** [agreementTerms.sort((a, b) => a.term_ordinal - b.term_ordinal)] *)
Definition sort_by_ordinal (l : list Term.t) : list Term.t :=
  sort_by_key Term.term_ordinal l.

Definition is_type (name : string) (t : Term.t) : bool :=
  JS.strict_eq_str (Term.term_type t) (Some name).

(** The filter shared by both cumulative folds:
    [x.term_ordinal <= term.term_ordinal && x.payment_model === term.payment_model]. *)
Definition same_cohort_upto (term x : Term.t) : bool :=
  (Term.term_ordinal x <=? Term.term_ordinal term)
  && JS.strict_eq_str (Term.payment_model x) (Term.payment_model term).

Definition calc_cumulative_increase_amount (agreementTerms : list Term.t) (term : Term.t) : Q :=
  fold_left (fun accumulator t => (accumulator + JS.nullish (Term.increase_amount t) 0)%Q)
            (filter (same_cohort_upto term) agreementTerms) 0%Q.

Definition calc_cumulative_escalation_rate (agreementTerms : list Term.t) (term : Term.t) : Q :=
  fold_left (fun accumulator t =>
               (accumulator * (1 + JS.nullish (Term.escalation_rate t) 0 / 100))%Q)
            (filter (same_cohort_upto term) agreementTerms) 1%Q.

Section TermDates.

(** [start.plus(utils.plusDuration(years))]: [utils.plusDuration] is not
    among the sources, so the addition of a possibly fractional number of
    years is a parameter of the resolver. *)
Variable plus_duration_years : DateTime -> Q -> DateTime.

Variable effectiveDate : option DateTime.
Variable opDetails : OpDetails.
Variable termination : Termination.

(** Lines 315-318: the operational milestone a term adopts, if any. *)
Definition milestone_override (term : Term.t) : option DateTime :=
  if is_type "Construction" term && negb (Term.extension term)
     && JS.truthy_obj (construction_commencement opDetails)
  then construction_commencement opDetails
  else if is_type "Operations" term && negb (Term.extension term)
          && JS.truthy_obj (operations_commencement opDetails)
  then operations_commencement opDetails
  else None.

(** Lines 315-322: the start date of a term, where [prev_end] is the end
    date of [agreementTerms[index - 1]] when there is one, and [first_start]
    is [opDetails.commencement_date || effectiveDate]. *)
Definition term_start (first_start : DateTime) (prev_end : option DateTime)
           (term : Term.t) : DateTime :=
  match milestone_override term with
  | Some d => d
  | None =>
      match prev_end with
      | Some e => plus_days e 1
      | None => first_start
      end
  end.

(** Lines 328-340: the end date before the operational overrides. *)
Definition term_end_calc (start : DateTime) (term : Term.t) : DateTime :=
  let endCalc :=
    if JS.truthy_num (Term.term_length_years term)
    then plus_duration_years start (JS.nullish (Term.term_length_years term) 0%Q)
    else plus_days start 0 in
  let endCalc := startOfDay (plus_days endCalc (if hour endCalc >=? 12 then 1 else 0)) in
  JS.nullish (getEarliestDateTime (termination_date termination)
                                  (Some (plus_days endCalc (-1))))
             (plus_days endCalc (-1)).

(** Lines 343-361: truncation or cancellation by the operational dates.
    Returns the end date and whether [cancelled_by_ops] is set. *)
Definition ops_override (start end_ : DateTime) (term : Term.t) : DateTime * bool :=
  if negb (is_type "Construction" term) && negb (is_type "Operations" term) then
    match getEarliestDateTime (construction_commencement opDetails)
                              (operations_commencement opDetails) with
    | Some firstOpsDate =>
        if start >=? firstOpsDate then (end_, true)
        else if end_ >=? firstOpsDate then (plus_days firstOpsDate (-1), false)
        else (end_, false)
    | None => (end_, false)
    end
  else if is_type "Construction" term then
    match operations_commencement opDetails with
    | Some ops =>
        if end_ >=? ops then (plus_days ops (-1), false) else (end_, false)
    | None => (end_, false)
    end
  else (end_, false).

(** The body of the [forEach] callback for one term. *)
Definition resolve_term (agreementTerms : list Term.t) (first_start : DateTime)
           (prev_end : option DateTime) (term : Term.t) : Term.t :=
  let start := term_start first_start prev_end term in
  let '(end_, cancelled) := ops_override start (term_end_calc start term) term in
  {| Term.term_ordinal := Term.term_ordinal term;
     Term.term_type := Term.term_type term;
     Term.extension := Term.extension term;
     Term.term_length_years := Term.term_length_years term;
     Term.payment_model := Term.payment_model term;
     Term.first_payment_start := Term.first_payment_start term;
     Term.increase_amount := Term.increase_amount term;
     Term.escalation_rate := Term.escalation_rate term;
     Term.start_date := Some start;
     Term.end_date := Some end_;
     Term.cancelled_by_ops := cancelled || Term.cancelled_by_ops term;
     Term.cumulative_increase_amount :=
       Some (calc_cumulative_increase_amount agreementTerms term);
     Term.cumulative_escalation_rate :=
       Some (calc_cumulative_escalation_rate agreementTerms term);
     Term.periodic_payments := Term.periodic_payments term |}.

(** The [forEach] over the sorted array.  The callback reads, of the other
    elements, only the end date of its predecessor (already resolved) and
    fields that the resolver never writes, so the array being mutated in
    place is the sorted input [agreementTerms] plus the resolved prefix. *)
Fixpoint resolve_terms (agreementTerms : list Term.t) (first_start : DateTime)
         (prev_end : option DateTime) (todo : list Term.t) : list Term.t :=
  match todo with
  | [] => []
  | term :: rest =>
      let term' := resolve_term agreementTerms first_start prev_end term in
      term' :: resolve_terms agreementTerms first_start (Term.end_date term') rest
  end.

(** [calcAgreementTermDates]: the state of [agreementTerms] on return. *)
Definition calcAgreementTermDates (agreementTerms : list Term.t) : list Term.t :=
  match JS.or_obj (commencement_date opDetails) effectiveDate with
  | None => agreementTerms
  | Some first_start =>
      let sorted := sort_by_ordinal agreementTerms in
      resolve_terms sorted first_start None sorted
  end.

(** [this.final_term_end_date], before formatting. *)
Definition final_term_end_date (agreementTerms : list Term.t) : option DateTime :=
  match JS.or_obj (commencement_date opDetails) effectiveDate with
  | None => None
  | Some _ =>
      match rev (calcAgreementTermDates agreementTerms) with
      | last :: _ => Term.end_date last
      | [] => None
      end
  end.

End TermDates.

(** [{}], which lines 307 and 308 put in the place of a missing
    [termination] and of missing [opDetails]. *)
Definition empty_op_details : OpDetails :=
  {| commencement_date := None;
     construction_commencement := None;
     operations_commencement := None;
     mw := None;
     inverter_count := None;
     inverter_rating_mvas := None |}.

Definition empty_termination : Termination :=
  {| termination_date := None; termination_keys := [] |}.

(** [calcAgreementTermDates] as it is called, with [opDetails] and
    [termination] that may be missing.  The guard of line 303 reads
    [opDetails.commencement_date] whenever [effectiveDate] is missing, and
    it does so before line 308 has replaced missing [opDetails] by [{}]: a
    call with neither throws a [TypeError], which is [None] here.  With an
    effective date the guard stops at [!effectiveDate] and the defaults
    apply. *)
Definition calcAgreementTermDates_call (plus_duration_years : DateTime -> Q -> DateTime)
           (effectiveDate : option DateTime) (opDetails : option OpDetails)
           (termination : option Termination) (agreementTerms : list Term.t)
  : option (list Term.t) :=
  match effectiveDate, opDetails with
  | None, None => None
  | _, _ =>
      Some (calcAgreementTermDates plus_duration_years effectiveDate
                                   (JS.nullish opDetails empty_op_details)
                                   (JS.nullish termination empty_termination)
                                   agreementTerms)
  end.

(** ** Base payment and payment model resolution *)

(** Lines 390-396: the operational details used when none are given. *)
Definition default_op_details : OpDetails :=
  {| commencement_date := None;
     construction_commencement := None;
     operations_commencement := None;
     mw := Some 0%Q;
     inverter_count := Some 0%Q;
     inverter_rating_mvas := Some 0%Q |}.

(** [periodicBasePayment]: the largest of the five ways to compute a payment,
    then the cumulative increase and escalation of the term. *)
Definition periodicBasePayment (model : option TermModel.t) (op_details : option OpDetails)
           (cumulative_escalation_rate cumulative_increase_amount : Q)
           (agreement_acres : option Q) : Q :=
  match model with
  | None => 0%Q
  | Some model =>
      let op_details := JS.nullish op_details default_op_details in
      let base :=
        (Qmax (JS.nullish (TermModel.minimum_payment model) 0)
        (Qmax (JS.nullish (TermModel.payment_per_mw model) 0
               * JS.nullish (mw op_details) 0)
        (Qmax (JS.nullish (inverter_count op_details) 0
               * JS.nullish (inverter_rating_mvas op_details) 0
               * JS.nullish (TermModel.payment_per_mva model) 0)
        (Qmax (JS.nullish (TermModel.flat_payment_amount model) 0)
              (JS.nullish (TermModel.payment_per_acre model) 0
               * JS.nullish agreement_acres 0)))))%Q in
      ((base + cumulative_increase_amount) * cumulative_escalation_rate)%Q
  end.

(** [termPaymentModel]: the model of a term; [paymentModels] may be missing. *)
Definition termPaymentModel (term : Term.t) (paymentModels : option (list TermModel.t))
  : option TermModel.t :=
  match paymentModels with
  | None => None
  | Some [] => None
  | Some paymentModels =>
      let model_name := JS.nullish_opt (Term.payment_model term) (Term.term_type term) in
      if JS.truthy_str model_name
      then JS.find (fun x => JS.strict_eq_str (TermModel.model_type x) model_name) paymentModels
      else hd_error paymentModels
  end.

(** ** Period calendar *)

Definition freq_is (name : string) (frequency : option string) : bool :=
  JS.strict_eq_str frequency (Some name).

(** Lines 434-456: the period end before it is compared with the term end;
    [None] is the variable left [undefined]. *)
Definition natural_period_end (start_date : DateTime) (frequency : option string)
           (prorated : bool) (term_end : DateTime) : option DateTime :=
  if prorated then
    if freq_is "Annually" frequency then Some (local (year start_date) 12 31)
    else if freq_is "Quarterly" frequency
    then Some (plus_days (plus_months start_date 3) (-1))
    else if freq_is "Monthly" frequency
    then Some (plus_days (plus_months start_date 1) (-1))
    else None
  else
    if freq_is "Annually" frequency
    then Some (plus_days (plus_years start_date 1) (-1))
    else if freq_is "Semiannually" frequency
    then Some (plus_days (plus_months start_date 6) (-1))
    else if freq_is "Quarterly" frequency
    then Some (plus_days (plus_months start_date 3) (-1))
    else if freq_is "Monthly" frequency
    then Some (plus_days (plus_months start_date 1) (-1))
    else if freq_is "Once per Term" frequency
    then Some term_end
    else None.

(** [calcPaymentPeriodEnd]; comparing [undefined] with a date is false, so an
    undefined period end is returned as it is. *)
Definition calcPaymentPeriodEnd (start_date : DateTime) (frequency : option string)
           (prorated : bool) (term_end : DateTime) : option DateTime :=
  match natural_period_end start_date frequency prorated term_end with
  | Some payment_period_end =>
      if payment_period_end >=? term_end then Some term_end else Some payment_period_end
  | None => None
  end.

(** ** Payees *)

Definition lower_ascii (c : Ascii.ascii) : Ascii.ascii :=
  let n := Ascii.nat_of_ascii c in
  if ((65 <=? n) && (n <=? 90))%nat then Ascii.ascii_of_nat (n + 32) else c.

(** [s.toLowerCase()] on the ASCII letters. *)
Fixpoint toLowerCase (s : string) : string :=
  match s with
  | EmptyString => EmptyString
  | String c rest => String (lower_ascii c) (toLowerCase rest)
  end.

(** [s.indexOf(pat)], with [-1] when [pat] does not occur. *)
Definition indexOf (pat s : string) : Z :=
  match String.index 0 pat s with
  | Some n => Z.of_nat n
  | None => -1
  end.

(** [nicknameGrantor]: the name up to the first [" and "] or comma. *)
Definition nicknameGrantor (longName : string) : string :=
  let lowered := toLowerCase longName in
  let indexes :=
    (if indexOf " and " lowered >? 0 then [indexOf " and " lowered] else [])
    ++ (if indexOf ", " lowered >? 0 then [indexOf "," lowered] else []) in
  match indexes with
  | [] => longName
  | i :: rest => String.substring 0 (Z.to_nat (fold_left Z.min rest i)) longName
  end.

(** [grantor.length] as a number. *)
Definition count (grantor : list Grantor) : Q := inject_Z (Z.of_nat (List.length grantor)).

(** [(g.payment_split ?? 100 / grantor.length) / 100], the share used by the
    standard, date based and settlement loops: division binds tighter than
    [??]. *)
Definition split_share (grantor : list Grantor) (g : Grantor) : Q :=
  (JS.nullish (payment_split g) (100 / count grantor) / 100)%Q.

(** [(g.payment_split ?? 100) / grantor.length / 100], the share used by the
    blended loop. *)
Definition blended_split_share (grantor : list Grantor) (g : Grantor) : Q :=
  (JS.nullish (payment_split g) 100 / count grantor / 100)%Q.

(** [this.outside_date ? payment_date.ts > this.outside_date.ts : false] *)
Definition is_after_outside_date (outside_date : option DateTime) (payment_date : DateTime) : bool :=
  match outside_date with
  | Some o => payment_date >? o
  | None => false
  end.

(** [model.payee ?? this.nicknameGrantor(g["grantor/lessor_name"])] *)
Definition payee_of (payee : option string) (g : Grantor) : string :=
  JS.nullish payee (nicknameGrantor (grantor_lessor_name g)).

(** The sum of the amounts of a list of events, as [reduce] computes it. *)
Definition sum_amounts (l : list Event.t) : Q :=
  fold_left (fun a b => (a + Event.payment_amount b)%Q) l 0%Q.

(** ** Payment schedule generator: the loops over the grantors *)

(** The label [`${term.term_type}${term.extension ? " (ext)" : ""} Term Payment`]. *)
Definition term_payment_type (term : Term.t) : string :=
  (JS.nullish (Term.term_type term) "undefined"
   ++ (if Term.extension term then " (ext)" else "")
   ++ " Term Payment")%string.

(** Lines 647-654: the late payment date of payment [i] of a term. *)
Definition term_late_payment_date (term : Term.t) (model : TermModel.t) (i : Z)
           (payment_date : DateTime) : option DateTime :=
  let lag_applies :=
    negb (Term.extension term) || TermModel.apply_payment_lag_to_extension model in
  if (i =? 0) && JS.truthy_int (TermModel.first_payment_lag model) && lag_applies
  then Some (plus_days payment_date (JS.nullish (TermModel.first_payment_lag model) 0))
  else if (i >? 0) && JS.truthy_int (TermModel.subsequent_payment_lag model) && lag_applies
  then Some (plus_days payment_date (JS.nullish (TermModel.subsequent_payment_lag model) 0))
  else None.

(** The amount of payment [i] of the standard generator before it is split:
    the argument of lines 667-671 with a share of one. *)
Definition standard_total_payment (model : TermModel.t) (periodic_payment : Q) (i : Z)
           (escalation_periods : Z) (prorata_factor : Q) : Q :=
  (calculateCompoundingGrowth
     (periodic_payment + JS.nullish (TermModel.increase_amount model) 0 * inject_Z i)
     (JS.nullish (TermModel.periodic_escalation_rate model) 0 / 100)
     escalation_periods * prorata_factor)%Q.

(** Lines 657-682 of [calcPeriodicPaymentsForTerm]: one event per grantor for
    payment [i].  [escalation_periods] is
    [Math.floor((previous_periods + i) / periodic_escalation_frequency_index)]. *)
Definition standard_grantor_events (term : Term.t) (model : TermModel.t)
           (grantor : list Grantor) (project_id : option string)
           (outside_date : option DateTime) (periodic_payment : Q) (i : Z)
           (payment_date : DateTime) (late_payment_date : option DateTime)
           (payment_period_start payment_period_end : DateTime) (prorata_factor : Q)
           (previous_periods : Q) (escalation_periods : Z) : list Event.t :=
  map (fun g =>
         {| Event.payment_source := "Term Model";
            Event.model_id := TermModel.id model;
            Event.project_id := project_id;
            Event.payment_index := Some i;
            Event.payment_date := payment_date;
            Event.late_payment_date := late_payment_date;
            Event.payment_type := Some (term_payment_type term);
            Event.payment_amount :=
              (calculateCompoundingGrowth
                 ((periodic_payment
                   + JS.nullish (TermModel.increase_amount model) 0 * inject_Z i)
                  * split_share grantor g)
                 (JS.nullish (TermModel.periodic_escalation_rate model) 0 / 100)
                 escalation_periods * prorata_factor)%Q;
            Event.payee := payee_of (TermModel.payee model) g;
            Event.payment_period_start := Some payment_period_start;
            Event.payment_period_end := Some payment_period_end;
            Event.prorata_factor := Some prorata_factor;
            Event.applicable_to_purchase := TermModel.applicable_to_purchase model;
            Event.refundable := false;
            Event.after_outside_date := is_after_outside_date outside_date payment_date;
            Event.previous_periods := Some (previous_periods + inject_Z i)%Q |})
      grantor.

(** An element of the array returned by [utils.blendedEscalation], which is
    not among the sources; the blended generator consumes these fields. *)
Record BlendedPayment := {
  bp_payment_index : Z;
  bp_payment_date : DateTime;
  total_payment : Q;
  min_date : DateTime;
  max_date : DateTime;
  date_count : Q
}.

(** [t.daysInYear] *)
Definition daysInYear (t : DateTime) : Q :=
  if is_leap (year t) then 366%Q else 365%Q.

(** Lines 509-516: the late payment date of a blended payment.  The second
    branch reads [p._payment_index], a property the payments do not have, so
    its comparison with zero is always false. *)
Definition blended_late_payment_date (term : Term.t) (model : TermModel.t)
           (p : BlendedPayment) : option DateTime :=
  let lag_applies :=
    negb (Term.extension term) || TermModel.apply_payment_lag_to_extension model in
  if (bp_payment_index p =? 0) && JS.truthy_int (TermModel.first_payment_lag model)
     && lag_applies
  then Some (plus_days (bp_payment_date p) (JS.nullish (TermModel.first_payment_lag model) 0))
  else None.

(** Lines 518-537 of [calcBlendedPeriodicPaymentsForTerm]: one event per
    grantor for the blended payment [p]. *)
Definition blended_grantor_events (term : Term.t) (model : TermModel.t)
           (grantor : list Grantor) (project_id : option string)
           (outside_date : option DateTime) (p : BlendedPayment) : list Event.t :=
  map (fun g =>
         {| Event.payment_source := "Term Model";
            Event.model_id := TermModel.id model;
            Event.project_id := project_id;
            Event.payment_index := Some (bp_payment_index p);
            Event.payment_date := bp_payment_date p;
            Event.late_payment_date := blended_late_payment_date term model p;
            Event.payment_type := Some (term_payment_type term);
            Event.payment_amount := (total_payment p * blended_split_share grantor g)%Q;
            Event.payee := payee_of (TermModel.payee model) g;
            Event.payment_period_start := Some (min_date p);
            Event.payment_period_end := Some (max_date p);
            Event.prorata_factor := Some (date_count p / daysInYear (bp_payment_date p))%Q;
            Event.applicable_to_purchase := TermModel.applicable_to_purchase model;
            Event.refundable := false;
            Event.after_outside_date :=
              is_after_outside_date outside_date (bp_payment_date p);
            Event.previous_periods := None |})
      grantor.

Section Blended.

(** [utils.blendedEscalation] is not among the sources: the segmentation of
    the term into blended payments is a parameter of the generator.  Its
    rate and base payment are [None] where the source passes [NaN]. *)
Variable blendedEscalation :
  DateTime -> DateTime -> bool -> DateTime -> option Q -> option Q -> option string ->
  list BlendedPayment.

(** [calcBlendedPeriodicPaymentsForTerm]; [None] is the [null] returned for
    a term without payments. *)
Definition calcBlendedPeriodicPaymentsForTerm (this : Doc.t) (term : Term.t)
           (op_details : option OpDetails) (paymentModels : option (list TermModel.t))
           (agreement_acres : option Q) (grantor : list Grantor)
           (project_id : option string) : option (list Event.t) :=
  if Term.cancelled_by_ops term || (Z.of_nat (List.length grantor) =? 0) then None
  else
    match termPaymentModel term paymentModels, Term.start_date term, Term.end_date term with
    | Some model, Some start_date, Some end_date =>
        let basePayment :=
          match Term.cumulative_escalation_rate term,
                Term.cumulative_increase_amount term with
          | Some rate, Some amount =>
              Some (periodicBasePayment (Some model) op_details rate amount agreement_acres)
          | _, _ => None
          end in
        let previousEscalationTerms :=
          filter (fun x => (Term.term_ordinal x <? Term.term_ordinal term)
                           && JS.strict_eq_str (Term.payment_model x)
                                               (Term.payment_model term))
                 (Doc.agreement_terms this) in
        let escalationStart :=
          JS.nullish
            (match sort_by_ordinal previousEscalationTerms with
             | first :: _ => Term.start_date first
             | [] => None
             end)
            start_date in
        let blendedPayments :=
          blendedEscalation start_date end_date (TermModel.prorated_first_period model)
                            escalationStart
                            (option_map (fun r => (r / 100)%Q)
                                        (TermModel.periodic_escalation_rate model))
                            basePayment (Term.first_payment_start term) in
        Some (flat_map (blended_grantor_events term model grantor project_id
                                               (Doc.outside_date this))
                       blendedPayments)
    | _, _, _ => None
    end.

End Blended.

(** ** Payment schedule generator: the rounds of the standard loop *)

(** The variables of one round of the [while] loop of
    [calcPeriodicPaymentsForTerm], lines 605-687: [i], [payment_date],
    [payment_period_start] and [payment_period_end], with which the round
    creates its events, one per grantor. *)
Record Period := {
  period_index : Z;
  period_payment_date : DateTime;
  period_start : DateTime;
  period_end : DateTime
}.

(** Lines 589-602: the first payment date of a term.  [first_payment_date]
    is [term.first_payment_date], a property the date resolver does not
    read. *)
Definition first_payment (term : Term.t) (first_payment_date : option DateTime)
           (start_date : DateTime) : DateTime :=
  if JS.strict_eq_str (Term.first_payment_start term) (Some "Start with Term"%string)
  then start_date
  else if JS.strict_eq_str (Term.first_payment_start term)
                           (Some "Start next Jan 1 after Term commencement"%string)
  then local (year start_date + 1) 1 1
  else if JS.strict_eq_str (Term.first_payment_start term)
                           (Some "Start 1st of month after commencement"%string)
  then plus_months (local (year start_date) (month start_date) 1) 1
  else JS.nullish first_payment_date start_date.

(** Lines 605-687: the rounds of the loop.  The outer [None] means that
    [fuel] rounds were not enough; [Some None] is the [return] of line 614,
    which leaves the term without a schedule; the amounts of the events do
    not influence which rounds there are. *)
Fixpoint payment_rounds (fuel : nat) (date_purchased : option DateTime)
         (payment_frequency : option string) (prorated_first_period : bool)
         (term_end : DateTime) (payment_period_start payment_date : DateTime) (i : Z)
  : option (option (list Period)) :=
  match fuel with
  | O => None
  | S fuel =>
      if payment_period_start <? term_end then
        if match date_purchased with
           | Some purchased => payment_period_start >? purchased
           | None => false
           end
        then Some (Some [])
        else
          match calcPaymentPeriodEnd payment_date payment_frequency
                                     prorated_first_period term_end with
          | None => Some None
          | Some payment_period_end =>
              match payment_rounds fuel date_purchased payment_frequency
                                   prorated_first_period term_end
                                   (plus_days payment_period_end 1)
                                   (plus_days payment_period_end 1) (i + 1) with
              | None => None
              | Some None => Some None
              | Some (Some later) =>
                  Some (Some ({| period_index := i;
                                 period_payment_date := payment_date;
                                 period_start := payment_period_start;
                                 period_end := payment_period_end |} :: later))
              end
          end
      else Some (Some [])
  end.

(** [calcPeriodicPaymentsForTerm], its rounds: [Some None] is a term left
    without a schedule, where the source returns [null] or nothing. *)
Definition calcPeriodicPaymentsForTerm_rounds (fuel : nat) (this : Doc.t) (term : Term.t)
           (first_payment_date : option DateTime)
           (paymentModels : option (list TermModel.t)) (grantor : list Grantor)
  : option (option (list Period)) :=
  if Term.cancelled_by_ops term || (Z.of_nat (List.length grantor) =? 0) then Some None
  else
    match termPaymentModel term paymentModels, Term.start_date term, Term.end_date term with
    | Some model, Some start_date, Some end_date =>
        payment_rounds fuel (Doc.date_purchased this)
                       (TermModel.payment_frequency model)
                       (TermModel.prorated_first_period model)
                       end_date start_date
                       (first_payment term first_payment_date start_date) 0
    | _, _, _ => Some None
    end.

(** ** Date based generator *)

(** Lines 756-760: the escalated amount of period [period] of a date model
    whose [payment_amount] is [amount]. *)
Definition date_payment_amount (model : DateModel.t) (amount : Q) (period : Z) : Q :=
  calculateCompoundingGrowth
    (amount + JS.nullish (DateModel.increase_amount model) 0 * inject_Z (period - 1))%Q
    (JS.nullish (DateModel.periodic_escalation_rate model) 0 / 100)%Q
    period.

(** Lines 763-768. *)
Definition date_late_payment_date (model : DateModel.t) (period : Z)
           (payment_date : DateTime) : option DateTime :=
  if (period =? 1) && JS.truthy_int (DateModel.first_payment_lag model)
  then Some (plus_days payment_date (JS.nullish (DateModel.first_payment_lag model) 0))
  else if (period >? 1) && JS.truthy_int (DateModel.subsequent_payment_lag model)
  then Some (plus_days payment_date (JS.nullish (DateModel.subsequent_payment_lag model) 0))
  else None.

(** Lines 771-790 of [calcDatePayments]: one event per grantor for one period
    of a date model, [payment_amount] being the escalated amount. *)
Definition date_grantor_events (this : Doc.t) (model : DateModel.t)
           (payment_date : DateTime) (period : Z) (payment_amount : Q) : list Event.t :=
  map (fun g =>
         {| Event.payment_source :=
              if JS.truthy_obj (DateModel.date_one_time model)
              then "Date Model (One Time)" else "Date Model";
            Event.model_id := DateModel.id model;
            Event.project_id := Doc.project_id this;
            Event.payment_index := Some (period - 1);
            Event.payment_date := payment_date;
            Event.late_payment_date := date_late_payment_date model period payment_date;
            Event.payment_type := DateModel.payment_type model;
            Event.payment_amount := (payment_amount * split_share (Doc.grantor this) g)%Q;
            Event.payee := payee_of (DateModel.payee model) g;
            Event.payment_period_start := None;
            Event.payment_period_end := None;
            Event.prorata_factor := None;
            Event.applicable_to_purchase := DateModel.applicable_to_purchase model;
            Event.refundable := DateModel.refundable model;
            Event.after_outside_date :=
              is_after_outside_date (Doc.outside_date this) payment_date;
            Event.previous_periods := None |})
      (Doc.grantor this).

(** Lines 796-808: the next payment date, or [None] where the callback
    returns because the frequency is not one it knows. *)
Definition next_payment_date (frequency : option string) (payment_date : DateTime)
  : option DateTime :=
  if freq_is "Annually" frequency then Some (plus_years payment_date 1)
  else if freq_is "Semiannually" frequency then Some (plus_months payment_date 6)
  else if freq_is "Quarterly" frequency then Some (plus_months payment_date 3)
  else if freq_is "Monthly" frequency then Some (plus_months payment_date 1)
  else None.

(** Line 738: the fields a date model needs; the callback returns at once
    when this is [false].  [!this.grantor.length > 0] negates the length
    before comparing it, which is [true > 0] for an empty list only. *)
Definition date_model_complete (this : Doc.t) (model : DateModel.t) : bool :=
  negb
    ((negb (JS.truthy_obj (DateModel.date_begin model)
            && JS.truthy_obj (DateModel.date_end model)
            && JS.truthy_str (DateModel.frequency model))
      && negb (JS.truthy_obj (DateModel.date_one_time model)))
     || negb (JS.truthy_num (DateModel.payment_amount model))
     || (Z.b2z (Z.of_nat (List.length (Doc.grantor this)) =? 0) >? 0)).

(** Lines 749-809: the [while] loop of one date model.  [fuel] bounds the
    number of iterations; [None] means the bound was reached before the loop
    finished. *)
Fixpoint date_model_loop (fuel : nat) (this : Doc.t) (model : DateModel.t)
         (amount : Q) (payment_date_end : DateTime)
         (payment_date : DateTime) (period : Z) : option (list Event.t) :=
  match fuel with
  | O => None
  | S fuel =>
      if payment_date <=? payment_date_end then
        if match Doc.date_purchased this with
           | Some purchased => payment_date >? purchased
           | None => false
           end
        then Some []
        else
          let events :=
            date_grantor_events this model payment_date period
                                (date_payment_amount model amount period) in
          match next_payment_date (DateModel.frequency model) payment_date with
          | None => Some events
          | Some next =>
              match date_model_loop fuel this model amount payment_date_end
                                    next (period + 1) with
              | Some later => Some (events ++ later)
              | None => None
              end
          end
      else Some []
  end.

(** The callback of [this.date_payment_models.forEach]: the events one model
    pushes onto [this.date_payments]. *)
Definition date_model_events (fuel : nat) (this : Doc.t) (model : DateModel.t)
  : option (list Event.t) :=
  if date_model_complete this model then
    match JS.nullish_opt (DateModel.date_one_time model) (DateModel.date_begin model),
          getEarliestDateTimeFromArray
            [termination_date (Doc.termination this);
             DateModel.date_one_time model;
             DateModel.date_end model],
          DateModel.payment_amount model with
    | Some payment_date, Some payment_date_end, Some amount =>
        date_model_loop fuel this model amount payment_date_end payment_date 1
    | _, _, _ => Some []
    end
  else Some [].

(** The [forEach] over a list of date models, events in the order pushed. *)
Fixpoint date_models_events (fuel : nat) (this : Doc.t) (models : list DateModel.t)
  : option (list Event.t) :=
  match models with
  | [] => Some []
  | model :: rest =>
      match date_model_events fuel this model, date_models_events fuel this rest with
      | Some events, Some later => Some (events ++ later)
      | _, _ => None
      end
  end.

(** [calcDatePayments]: [this.date_payments] on return; the array is reset
    before the models are visited. *)
Definition calcDatePayments (fuel : nat) (this : Doc.t) : option (list Event.t) :=
  date_models_events fuel this (Doc.date_payment_models this).

(** ** Purchase price settlement *)

(** Lines 824-840: what has already been paid towards the purchase price. *)
Definition previous_applicable_payments (this : Doc.t) : Q :=
  let from_terms :=
    fold_left
      (fun acc term =>
         match Term.periodic_payments term with
         | Some payments =>
             (acc + sum_amounts (filter Event.applicable_to_purchase payments))%Q
         | None => acc
         end)
      (Doc.agreement_terms this) 0%Q in
  (from_terms + sum_amounts (filter Event.applicable_to_purchase (Doc.date_payments this)))%Q.

(** Line 844: a closing date, a purchase price and no termination date. *)
Definition settlement_due (this : Doc.t) : bool :=
  JS.truthy_obj (JS.nullish_opt (Doc.date_purchased this) (Doc.estimated_closing_date this))
  && JS.truthy_num (Doc.full_purchase_price this)
  && negb (JS.truthy_obj (termination_date (Doc.termination this))).

(** Lines 845-858: the settlement events pushed onto [this.date_payments]. *)
Definition settlement_events (this : Doc.t) : list Event.t :=
  match JS.nullish_opt (Doc.date_purchased this) (Doc.estimated_closing_date this),
        Doc.full_purchase_price this with
  | Some closing, Some price =>
      if settlement_due this then
        map (fun g =>
               {| Event.payment_source := "Purchase Price Calculation";
                  Event.model_id := None;
                  Event.project_id := None;
                  Event.payment_index := None;
                  Event.payment_date := closing;
                  Event.late_payment_date := None;
                  Event.payment_type := Some "Purchase Price"%string;
                  Event.payment_amount :=
                    ((price - previous_applicable_payments this)
                     * split_share (Doc.grantor this) g)%Q;
                  Event.payee := nicknameGrantor (grantor_lessor_name g);
                  Event.payment_period_start := None;
                  Event.payment_period_end := None;
                  Event.prorata_factor := None;
                  Event.applicable_to_purchase := true;
                  Event.refundable := false;
                  Event.after_outside_date := false;
                  Event.previous_periods := None |})
            (Doc.grantor this)
      else []
  | _, _ => []
  end.

(** [calcEstimatedPurchasePrice]: [this.date_payments] on return. *)
Definition calcEstimatedPurchasePrice (this : Doc.t) : list Event.t :=
  if negb (JS.truthy_num (Doc.full_purchase_price this))
     || (negb (JS.truthy_obj (Doc.estimated_closing_date this))
         && negb (JS.truthy_obj (Doc.date_purchased this)))
  then Doc.date_payments this
  else Doc.date_payments this ++ settlement_events this.

(** ** Amendment overlay *)

(** Overwrite semantics: the value the amendment supplies, else the old one. *)
Definition ow {T : Type} (supplied : option T) (old : T) : T :=
  match supplied with Some v => v | None => old end.

(** [if (x) this.f = x] for a property that is truthy whenever present. *)
Definition supply_obj {T : Type} (x : option T) : option (option T) :=
  match x with Some v => Some (Some v) | None => None end.

(** [if (x) this.f = x] for a string. *)
Definition supply_str (x : option string) : option (option string) :=
  if JS.truthy_str x then Some x else None.

(** [if (x) this.f = x] for a number. *)
Definition supply_num (x : option Q) : option (option Q) :=
  if JS.truthy_num x then Some x else None.

(** [if (x && x.length > 0) this.f = x] for an array. *)
Definition supply_list {T : Type} (x : list T) : option (list T) :=
  match x with [] => None | _ :: _ => Some x end.

(** [if (Object.keys(x).length > 0) this.termination = x] *)
Definition supply_termination (x : Termination) : option Termination :=
  match termination_date x, termination_keys x with
  | None, [] => None
  | _, _ => Some x
  end.

(** The four review status fields that follow [review_status]. *)
Definition supply_review {T : Type} (a : Doc.t) (v : T) : option T :=
  if JS.truthy_str (Doc.review_status a) then Some v else None.

(** Lines 896-978: the body of the loop over the sorted amendments. *)
Definition overlay (this amendment : Doc.t) : Doc.t :=
  {| Doc.id := Doc.id this;
     Doc.project_id := Doc.project_id this;
     Doc.agreement_group := Doc.agreement_group this;
     Doc.jupiter_entity :=
       ow (supply_str (Doc.jupiter_entity amendment)) (Doc.jupiter_entity this);
     Doc.grantee := ow (supply_str (Doc.grantee amendment)) (Doc.grantee this);
     Doc.grantor := ow (supply_list (Doc.grantor amendment)) (Doc.grantor this);
     Doc.effective_date :=
       ow (supply_obj (Doc.effective_date amendment)) (Doc.effective_date this);
     Doc.amendment_date := Doc.amendment_date this;
     Doc.letter_date := Doc.letter_date this;
     Doc.deed_date := Doc.deed_date this;
     Doc.payment_directive_date := Doc.payment_directive_date this;
     Doc.recorded_date := Doc.recorded_date this;
     Doc.outside_date :=
       ow (supply_obj (Doc.outside_date amendment)) (Doc.outside_date this);
     Doc.estimated_closing_date :=
       ow (supply_obj (Doc.estimated_closing_date amendment))
          (Doc.estimated_closing_date this);
     Doc.date_purchased :=
       ow (supply_obj (Doc.date_purchased amendment)) (Doc.date_purchased this);
     Doc.date_sold := ow (supply_obj (Doc.date_sold amendment)) (Doc.date_sold this);
     Doc.full_purchase_price :=
       ow (supply_num (Doc.full_purchase_price amendment)) (Doc.full_purchase_price this);
     Doc.property_description :=
       ow (supply_list (Doc.property_description amendment))
          (Doc.property_description this);
     Doc.operational_details := Doc.operational_details this;
     Doc.termination :=
       ow (supply_termination (Doc.termination amendment)) (Doc.termination this);
     Doc.agreement_terms :=
       ow (supply_list (Doc.agreement_terms amendment)) (Doc.agreement_terms this);
     Doc.term_payment_models :=
       ow (supply_list (Doc.term_payment_models amendment))
          (Doc.term_payment_models this);
     Doc.date_payment_models :=
       Doc.date_payment_models this ++ Doc.date_payment_models amendment;
     Doc.date_payments := Doc.date_payments this;
     Doc.review_status :=
       ow (supply_review amendment (Doc.review_status amendment))
          (Doc.review_status this);
     Doc.review_status_doc_id :=
       ow (supply_review amendment (Some (Doc.id amendment)))
          (Doc.review_status_doc_id this);
     Doc.review_status_instance_id :=
       ow (supply_review amendment (Doc.review_status_instance_id amendment))
          (Doc.review_status_instance_id this);
     Doc.review_status_value_instance_id :=
       ow (supply_review amendment (Doc.review_status_value_instance_id amendment))
          (Doc.review_status_value_instance_id this);
     Doc.review_status_notes :=
       ow (supply_review amendment (Doc.review_status_notes amendment))
          (Doc.review_status_notes this);
     Doc.sort_date := Doc.sort_date this;
     Doc.amendment_ordinal := Doc.amendment_ordinal this;
     Doc.amendments := Doc.amendments this |}.

(** Lines 872-878: the filter selecting the amendments of [this]. *)
Definition is_amendment_of (this x : Doc.t) : bool :=
  JS.truthy_str (Doc.agreement_group this)
  && JS.strict_eq_str (Doc.agreement_group x) (Doc.agreement_group this)
  && (JS.truthy_obj (Doc.amendment_date x)
      || JS.truthy_obj (Doc.letter_date x)
      || JS.truthy_obj (Doc.deed_date x)
      || JS.truthy_obj (Doc.payment_directive_date x)
      || JS.truthy_obj (Doc.recorded_date x))
  && negb (String.eqb (Doc.id x) (Doc.id this)).

(** Line 882: the operative sort date of an amendment. *)
Definition calc_sort_date (x : Doc.t) : option DateTime :=
  JS.or_obj (Doc.amendment_date x)
    (JS.or_obj (Doc.letter_date x)
       (JS.or_obj (Doc.deed_date x)
          (JS.or_obj (Doc.payment_directive_date x) (Doc.recorded_date x)))).

(** [x.sort_date.ts], the sort key; every selected amendment has one. *)
Definition sort_key (x : Doc.t) : Z := JS.nullish (Doc.sort_date x) 0.

Definition set_sort_date (x : Doc.t) (d : option DateTime) : Doc.t :=
  {| Doc.id := Doc.id x;
     Doc.project_id := Doc.project_id x;
     Doc.agreement_group := Doc.agreement_group x;
     Doc.jupiter_entity := Doc.jupiter_entity x;
     Doc.grantee := Doc.grantee x;
     Doc.grantor := Doc.grantor x;
     Doc.effective_date := Doc.effective_date x;
     Doc.amendment_date := Doc.amendment_date x;
     Doc.letter_date := Doc.letter_date x;
     Doc.deed_date := Doc.deed_date x;
     Doc.payment_directive_date := Doc.payment_directive_date x;
     Doc.recorded_date := Doc.recorded_date x;
     Doc.outside_date := Doc.outside_date x;
     Doc.estimated_closing_date := Doc.estimated_closing_date x;
     Doc.date_purchased := Doc.date_purchased x;
     Doc.date_sold := Doc.date_sold x;
     Doc.full_purchase_price := Doc.full_purchase_price x;
     Doc.property_description := Doc.property_description x;
     Doc.operational_details := Doc.operational_details x;
     Doc.termination := Doc.termination x;
     Doc.agreement_terms := Doc.agreement_terms x;
     Doc.term_payment_models := Doc.term_payment_models x;
     Doc.date_payment_models := Doc.date_payment_models x;
     Doc.date_payments := Doc.date_payments x;
     Doc.review_status := Doc.review_status x;
     Doc.review_status_doc_id := Doc.review_status_doc_id x;
     Doc.review_status_instance_id := Doc.review_status_instance_id x;
     Doc.review_status_value_instance_id := Doc.review_status_value_instance_id x;
     Doc.review_status_notes := Doc.review_status_notes x;
     Doc.sort_date := d;
     Doc.amendment_ordinal := Doc.amendment_ordinal x;
     Doc.amendments := Doc.amendments x |}.

Definition set_amendment_ordinal (x : Doc.t) (n : option Z) : Doc.t :=
  {| Doc.id := Doc.id x;
     Doc.project_id := Doc.project_id x;
     Doc.agreement_group := Doc.agreement_group x;
     Doc.jupiter_entity := Doc.jupiter_entity x;
     Doc.grantee := Doc.grantee x;
     Doc.grantor := Doc.grantor x;
     Doc.effective_date := Doc.effective_date x;
     Doc.amendment_date := Doc.amendment_date x;
     Doc.letter_date := Doc.letter_date x;
     Doc.deed_date := Doc.deed_date x;
     Doc.payment_directive_date := Doc.payment_directive_date x;
     Doc.recorded_date := Doc.recorded_date x;
     Doc.outside_date := Doc.outside_date x;
     Doc.estimated_closing_date := Doc.estimated_closing_date x;
     Doc.date_purchased := Doc.date_purchased x;
     Doc.date_sold := Doc.date_sold x;
     Doc.full_purchase_price := Doc.full_purchase_price x;
     Doc.property_description := Doc.property_description x;
     Doc.operational_details := Doc.operational_details x;
     Doc.termination := Doc.termination x;
     Doc.agreement_terms := Doc.agreement_terms x;
     Doc.term_payment_models := Doc.term_payment_models x;
     Doc.date_payment_models := Doc.date_payment_models x;
     Doc.date_payments := Doc.date_payments x;
     Doc.review_status := Doc.review_status x;
     Doc.review_status_doc_id := Doc.review_status_doc_id x;
     Doc.review_status_instance_id := Doc.review_status_instance_id x;
     Doc.review_status_value_instance_id := Doc.review_status_value_instance_id x;
     Doc.review_status_notes := Doc.review_status_notes x;
     Doc.sort_date := Doc.sort_date x;
     Doc.amendment_ordinal := n;
     Doc.amendments := Doc.amendments x |}.

Definition set_amendments (x : Doc.t) (ids : list string) : Doc.t :=
  {| Doc.id := Doc.id x;
     Doc.project_id := Doc.project_id x;
     Doc.agreement_group := Doc.agreement_group x;
     Doc.jupiter_entity := Doc.jupiter_entity x;
     Doc.grantee := Doc.grantee x;
     Doc.grantor := Doc.grantor x;
     Doc.effective_date := Doc.effective_date x;
     Doc.amendment_date := Doc.amendment_date x;
     Doc.letter_date := Doc.letter_date x;
     Doc.deed_date := Doc.deed_date x;
     Doc.payment_directive_date := Doc.payment_directive_date x;
     Doc.recorded_date := Doc.recorded_date x;
     Doc.outside_date := Doc.outside_date x;
     Doc.estimated_closing_date := Doc.estimated_closing_date x;
     Doc.date_purchased := Doc.date_purchased x;
     Doc.date_sold := Doc.date_sold x;
     Doc.full_purchase_price := Doc.full_purchase_price x;
     Doc.property_description := Doc.property_description x;
     Doc.operational_details := Doc.operational_details x;
     Doc.termination := Doc.termination x;
     Doc.agreement_terms := Doc.agreement_terms x;
     Doc.term_payment_models := Doc.term_payment_models x;
     Doc.date_payment_models := Doc.date_payment_models x;
     Doc.date_payments := Doc.date_payments x;
     Doc.review_status := Doc.review_status x;
     Doc.review_status_doc_id := Doc.review_status_doc_id x;
     Doc.review_status_instance_id := Doc.review_status_instance_id x;
     Doc.review_status_value_instance_id := Doc.review_status_value_instance_id x;
     Doc.review_status_notes := Doc.review_status_notes x;
     Doc.sort_date := Doc.sort_date x;
     Doc.amendment_ordinal := Doc.amendment_ordinal x;
     Doc.amendments := ids |}.

(** A reference into [allDocs]: the position of the document and its state. *)
Definition Ref : Type := nat * Doc.t.

Definition ref_key (r : Ref) : Z := sort_key (snd r).

(** The position of reference [i] in a list of references. *)
Fixpoint position (i : nat) (l : list Ref) (from : Z) : option Z :=
  match l with
  | [] => None
  | r :: rest => if Nat.eqb (fst r) i then Some from else position i rest (from + 1)
  end.

(** The documents of [allDocs], each with its position. *)
Definition indexed (allDocs : list Doc.t) : list Ref :=
  combine (seq 0 (List.length allDocs)) allDocs.

(** Lines 872-878 on a reference. *)
Definition selects (this : Doc.t) (r : Ref) : bool := is_amendment_of this (snd r).

(** Lines 881-883: [x.sort_date = ...] *)
Definition stamp (r : Ref) : Ref :=
  (fst r, set_sort_date (snd r) (calc_sort_date (snd r))).

(** [x.amendment_date] is truthy. *)
Definition is_dated (r : Ref) : bool := JS.truthy_obj (Doc.amendment_date (snd r)).

(** Line 891: [x.amendment_ordinal = index + 1] for the documents of the
    sorted array [dated]; the others are left alone. *)
Definition number (dated : list Ref) (r : Ref) : Ref :=
  match position (fst r) dated 1 with
  | Some ordinal => (fst r, set_amendment_ordinal (snd r) (Some ordinal))
  | None => r
  end.

(** Lines 872-892: the selected amendments, each with its position in
    [allDocs], after [sort_date] and [amendment_ordinal] have been written
    on them, in the order of [allDocs]. *)
Definition annotated_amendments (this : Doc.t) (allDocs : list Doc.t) : list Ref :=
  let amendments := map stamp (filter (selects this) (indexed allDocs)) in
  let dated := sort_by_key ref_key (filter is_dated amendments) in
  map (number dated) amendments.

(** [amendments.sort((a, b) => a.sort_date.ts - b.sort_date.ts)] *)
Definition sorted_amendments (this : Doc.t) (allDocs : list Doc.t) : list Ref :=
  sort_by_key ref_key (annotated_amendments this allDocs).

(** The state of [allDocs] on return.  The documents are objects, and the
    document whose method runs is one of them: [this] is the element at
    position [self] of [allDocs].  The overlay writes on it in place, so that
    position holds [this] as the overlay left it; the amendments carry their
    annotations, and every other document is as it was. *)
Definition write_back (self : nat) (this : Doc.t) (annotated : list Ref)
           (allDocs : list Doc.t) : list Doc.t :=
  map (fun r : Ref =>
         if Nat.eqb (fst r) self then this
         else
           match List.find (fun a : Ref => Nat.eqb (fst a) (fst r)) annotated with
           | Some a => snd a
           | None => snd r
           end)
      (indexed allDocs).

(** Lines 895-992: [this] once the sorted amendments were folded into it
    and [this.amendments] was set. *)
Definition merge_amendments (this : Doc.t) (allDocs : list Doc.t) : Doc.t :=
  set_amendments
    (fold_left overlay (map snd (sorted_amendments this allDocs)) this)
    (map (fun r : Ref => Doc.id (snd r))
         (filter is_dated (sorted_amendments this allDocs))).

(** [processAmendments], called on the document at position [self] of
    [allDocs]: the state of the collection, [this] included, on return.  A
    position outside the collection names no document, and nothing is
    called. *)
Definition processAmendments (self : nat) (allDocs : list Doc.t) : list Doc.t :=
  match nth_error allDocs self with
  | None => allDocs
  | Some this =>
      if negb (JS.truthy_obj (Doc.effective_date this)) then allDocs
      else
        match sorted_amendments this allDocs with
        | [] => allDocs
        | _ :: _ =>
            write_back self (merge_amendments this allDocs)
                       (annotated_amendments this allDocs) allDocs
        end
  end.

(** ** Quality control of the date payment models *)

(** The decimal digits of a count, as a template literal prints them. *)
Definition decimal (n : nat) : string := NilEmpty.string_of_uint (Nat.to_uint n).

(** Lines 1067-1069 of [qc]: the documents it leaves alone, which are the
    Master Service Agreements and the documents with a termination date;
    [document_type] is the property of that name of the document. *)
Definition qc_out_of_scope (document_type : option string) (this : Doc.t) : bool :=
  JS.strict_eq_str document_type (Some "Master Service Agreement"%string)
  || JS.truthy_obj (termination_date (Doc.termination this)).

(** Lines 1067-1069 and 1133-1159 of [qc]: the flags pushed for the date
    payment model at index [modelIndex] of the document.  On a document out
    of scope [qc] returns before it looks at a model; an amount of exactly
    zero is not flagged. *)
Definition qc_date_model_flags (document_type : option string) (this : Doc.t)
           (modelIndex : nat) (model : DateModel.t) : list string :=
  if qc_out_of_scope document_type this then [] else
  let n := decimal (modelIndex + 1) in
  (if negb (JS.truthy_str (DateModel.payment_type model))
   then [("Missing payment_type on Date Payment Model " ++ n)%string]
   else [])
  ++ (if match DateModel.payment_amount model with
         | Some amount => Qeq_bool amount 0
         | None => false
         end
      then []
      else if negb (JS.truthy_num (DateModel.payment_amount model))
           then [("Missing payment_amount on Date Payment Model " ++ n)%string]
           else [])
  ++ (if negb (JS.truthy_obj (DateModel.date_begin model))
         && negb (JS.truthy_obj (DateModel.date_one_time model))
      then [("Missing Start Date OR One-time Date on Date Payment Model " ++ n)%string]
      else [])
  ++ (if negb (JS.truthy_obj (DateModel.date_one_time model))
         && negb (JS.truthy_str (DateModel.frequency model))
      then [("Missing Frequency on Recurring Date Payment Model " ++ n)%string]
      else [])
  ++ (if JS.truthy_obj (DateModel.date_begin model)
         && negb (JS.truthy_obj (DateModel.date_end model))
      then [("Missing End Date on Recurring Date Payment Model " ++ n)%string]
      else []).

(** Lines 1164-1181 of [qc]: the flags pushed for the term payment model at
    index [modelIndex]; [total_agreement_acres] is the property of that name
    of the document. *)
Definition qc_term_model_flags (total_agreement_acres : option Q) (modelIndex : nat)
           (model : TermModel.t) : list string :=
  let n := decimal (modelIndex + 1) in
  (if negb (JS.truthy_str (TermModel.model_type model))
   then [("Missing model_type on Term Payment Model " ++ n)%string]
   else [])
  ++ (if negb (JS.truthy_str (TermModel.payment_frequency model))
      then [("Missing payment_frequency on Term Payment Model " ++ n)%string]
      else [])
  ++ (if negb (JS.truthy_num (TermModel.minimum_payment model))
         && negb (JS.truthy_num (TermModel.flat_payment_amount model))
         && negb (JS.truthy_num (TermModel.payment_per_mw model))
         && negb (JS.truthy_num (TermModel.payment_per_mva model))
         && negb (JS.truthy_num (TermModel.payment_per_acre model))
      then [("Cannot calculate payment amount on Term Payment Model " ++ n)%string]
      else [])
  ++ (if JS.truthy_num (TermModel.payment_per_acre model)
         && negb (JS.truthy_num total_agreement_acres)
      then [("Missing Total acres required for Term Payment Model " ++ n
             ++ " $/acre calculation")%string]
      else []).

(** ** Reading aids for the statements *)

(** The order of two elements by their sort key. *)
Definition key_le {A : Type} (key : A -> Z) (a b : A) : Prop := key a <= key b.

(** The five ways of lines 400-404 to compute a payment, missing numbers
    read as zero. *)
Definition base_candidates (model : TermModel.t) (op_details : OpDetails)
           (agreement_acres : option Q) : list Q :=
  [ JS.nullish (TermModel.minimum_payment model) 0;
    JS.nullish (TermModel.payment_per_mw model) 0 * JS.nullish (mw op_details) 0;
    JS.nullish (inverter_count op_details) 0
    * JS.nullish (inverter_rating_mvas op_details) 0
    * JS.nullish (TermModel.payment_per_mva model) 0;
    JS.nullish (TermModel.flat_payment_amount model) 0;
    JS.nullish (TermModel.payment_per_acre model) 0 * JS.nullish agreement_acres 0 ]%Q.


(** The frequency and alignment pairs for which lines 434-456 assign a
    period end. *)
Definition period_end_defined (frequency : option string) (prorated : bool) : Prop :=
  if prorated
  then frequency = Some "Annually"%string \/ frequency = Some "Quarterly"%string
       \/ frequency = Some "Monthly"%string
  else frequency = Some "Annually"%string \/ frequency = Some "Semiannually"%string
       \/ frequency = Some "Quarterly"%string \/ frequency = Some "Monthly"%string
       \/ frequency = Some "Once per Term"%string.

(** The natural end of a period in the words of the specification, section
    4.2.  Under pro-rated alignment it is the calendar boundary: the last
    day of the year, of the quarter or of the month in which the period
    starts, for "Annually", "Quarterly" and "Monthly". *)
Definition quarter_end_month (m : Z) : Z := 3 * ((m - 1) / 3) + 3.

Definition calendar_boundary (start_date : DateTime) (frequency : option string)
  : option DateTime :=
  let y := year start_date in
  let m := month start_date in
  if freq_is "Annually" frequency then Some (local y 12 31)
  else if freq_is "Quarterly" frequency
  then Some (local y (quarter_end_month m) (days_in_month y (quarter_end_month m)))
  else if freq_is "Monthly" frequency
  then Some (local y m (days_in_month y m))
  else None.

(** Under anniversary alignment it is the start plus one unit of the
    frequency less one day. *)
Definition anniversary_end (start_date : DateTime) (frequency : option string)
  : option DateTime :=
  if freq_is "Annually" frequency
  then Some (plus_days (plus_years start_date 1) (-1))
  else if freq_is "Semiannually" frequency
  then Some (plus_days (plus_months start_date 6) (-1))
  else if freq_is "Quarterly" frequency
  then Some (plus_days (plus_months start_date 3) (-1))
  else if freq_is "Monthly" frequency
  then Some (plus_days (plus_months start_date 1) (-1))
  else None.

Definition claimed_period_end (start_date : DateTime) (frequency : option string)
           (prorated : bool) : option DateTime :=
  if prorated then calendar_boundary start_date frequency
  else anniversary_end start_date frequency.

(** Every event generated before the settlement: the periodic payments of
    the terms, then the date payments. *)
Definition prior_events (this : Doc.t) : list Event.t :=
  flat_map (fun term => JS.nullish (Term.periodic_payments term) []) (Doc.agreement_terms this)
  ++ Doc.date_payments this.

(** The shape of a settlement event for grantor [g]: of what is left of the
    price, the percentage of the grantor where it has one, and one part in
    as many as there are grantors where it has none. *)
Definition is_settlement_event (this : Doc.t) (price : Q) (closing : DateTime)
           (g : Grantor) (e : Event.t) : Prop :=
  Event.payment_source e = "Purchase Price Calculation"%string
  /\ Event.payment_date e = closing
  /\ match payment_split g with
     | Some percent =>
         (Event.payment_amount e
          == (price - previous_applicable_payments this) * (percent / 100))%Q
     | None =>
         (Event.payment_amount e
          == (price - previous_applicable_payments this)
             * (1 / inject_Z (Z.of_nat (List.length (Doc.grantor this)))))%Q
     end
  /\ Event.applicable_to_purchase e = true
  /\ Event.refundable e = false.

(** Two states of a term that carry the same facts of the document. *)
Definition same_facts (a b : Term.t) : Prop :=
  Term.term_ordinal a = Term.term_ordinal b
  /\ Term.term_type a = Term.term_type b
  /\ Term.extension a = Term.extension b
  /\ Term.term_length_years a = Term.term_length_years b
  /\ Term.payment_model a = Term.payment_model b
  /\ Term.first_payment_start a = Term.first_payment_start b
  /\ Term.increase_amount a = Term.increase_amount b
  /\ Term.escalation_rate a = Term.escalation_rate b.

(** No operational milestone overrides the start of the term: it is not a
    non-extension "Construction" term with a construction commencement, nor
    a non-extension "Operations" term with an operations commencement. *)
Definition no_milestone (opDetails : OpDetails) (term : Term.t) : Prop :=
  (Term.term_type term <> Some "Construction"%string \/ Term.extension term = true
   \/ construction_commencement opDetails = None)
  /\ (Term.term_type term <> Some "Operations"%string \/ Term.extension term = true
      \/ operations_commencement opDetails = None).

(** The frequencies lines 796-803 know how to advance by. *)
Definition recognized_frequency (frequency : option string) : Prop :=
  frequency = Some "Annually"%string \/ frequency = Some "Semiannually"%string
  \/ frequency = Some "Quarterly"%string \/ frequency = Some "Monthly"%string.

(** The events of two runs of the generator, one after the other, where
    both runs finished. *)
Definition events_then (a b : option (list Event.t)) : option (list Event.t) :=
  match a, b with
  | Some x, Some y => Some (x ++ y)
  | _, _ => None
  end.

(** The sum of a list of numbers. *)
Definition Qsum (l : list Q) : Q := fold_right Qplus 0%Q l.

(** The percentages the grantors carry, added up. *)
Definition splits_total (grantor : list Grantor) : Q :=
  Qsum (map (fun g => JS.nullish (payment_split g) 0%Q) grantor).

(** Every grantor carries a [payment_split]. *)
Definition explicit_splits (grantor : list Grantor) : Prop :=
  Forall (fun g => payment_split g <> None) grantor.

(** No grantor carries a [payment_split]. *)
Definition default_splits (grantor : list Grantor) : Prop :=
  Forall (fun g => payment_split g = None) grantor.

(** [x] with another list of date payment models. *)
Definition with_date_payment_models (x : Doc.t) (models : list DateModel.t) : Doc.t :=
  {| Doc.id := Doc.id x;
     Doc.project_id := Doc.project_id x;
     Doc.agreement_group := Doc.agreement_group x;
     Doc.jupiter_entity := Doc.jupiter_entity x;
     Doc.grantee := Doc.grantee x;
     Doc.grantor := Doc.grantor x;
     Doc.effective_date := Doc.effective_date x;
     Doc.amendment_date := Doc.amendment_date x;
     Doc.letter_date := Doc.letter_date x;
     Doc.deed_date := Doc.deed_date x;
     Doc.payment_directive_date := Doc.payment_directive_date x;
     Doc.recorded_date := Doc.recorded_date x;
     Doc.outside_date := Doc.outside_date x;
     Doc.estimated_closing_date := Doc.estimated_closing_date x;
     Doc.date_purchased := Doc.date_purchased x;
     Doc.date_sold := Doc.date_sold x;
     Doc.full_purchase_price := Doc.full_purchase_price x;
     Doc.property_description := Doc.property_description x;
     Doc.operational_details := Doc.operational_details x;
     Doc.termination := Doc.termination x;
     Doc.agreement_terms := Doc.agreement_terms x;
     Doc.term_payment_models := Doc.term_payment_models x;
     Doc.date_payment_models := models;
     Doc.date_payments := Doc.date_payments x;
     Doc.review_status := Doc.review_status x;
     Doc.review_status_doc_id := Doc.review_status_doc_id x;
     Doc.review_status_instance_id := Doc.review_status_instance_id x;
     Doc.review_status_value_instance_id := Doc.review_status_value_instance_id x;
     Doc.review_status_notes := Doc.review_status_notes x;
     Doc.sort_date := Doc.sort_date x;
     Doc.amendment_ordinal := Doc.amendment_ordinal x;
     Doc.amendments := Doc.amendments x |}.

(** The date payment models one application of the overlay appends to those
    of [this]: the models of its amendments, in the order of their sort
    dates. *)
Definition appended_models (this : Doc.t) (allDocs : list Doc.t) : list DateModel.t :=
  flat_map (fun r : Ref => Doc.date_payment_models (snd r)) (sorted_amendments this allDocs).

(** The day number of the first day of the month with index
    [12 * year + (month - 1)]. *)
Definition month_start (M : Z) : Z := days_from_civil (M / 12) (M mod 12 + 1) 1.

(** The number of rounds after which the loop of a date model has passed
    [payment_date_end], each round advancing by a day at least. *)
Definition rounds_left (payment_date payment_date_end : DateTime) : nat :=
  if payment_date <=? payment_date_end
  then Z.to_nat ((payment_date_end - payment_date) / MS_PER_DAY + 1)
  else O.

(** The events of a run that finished; none where it did not. *)
Definition finished (run : option (list Event.t)) : list Event.t := JS.nullish run [].

(** The grantors that carry no [payment_split]. *)
Definition without_split (grantor : list Grantor) : list Grantor :=
  filter (fun g => match payment_split g with None => true | Some _ => false end) grantor.

(** The part of a payment that the loops over the grantors hand out: the
    explicit percentages, and an equal share of 100 percent for every
    grantor without one. *)
Definition handed_out (grantor : list Grantor) : Q :=
  ((splits_total grantor + count (without_split grantor) * (100 / count grantor)) / 100)%Q.

(** [x] once [this.date_payments] holds [payments]. *)
Definition with_date_payments (x : Doc.t) (payments : list Event.t) : Doc.t :=
  {| Doc.id := Doc.id x;
     Doc.project_id := Doc.project_id x;
     Doc.agreement_group := Doc.agreement_group x;
     Doc.jupiter_entity := Doc.jupiter_entity x;
     Doc.grantee := Doc.grantee x;
     Doc.grantor := Doc.grantor x;
     Doc.effective_date := Doc.effective_date x;
     Doc.amendment_date := Doc.amendment_date x;
     Doc.letter_date := Doc.letter_date x;
     Doc.deed_date := Doc.deed_date x;
     Doc.payment_directive_date := Doc.payment_directive_date x;
     Doc.recorded_date := Doc.recorded_date x;
     Doc.outside_date := Doc.outside_date x;
     Doc.estimated_closing_date := Doc.estimated_closing_date x;
     Doc.date_purchased := Doc.date_purchased x;
     Doc.date_sold := Doc.date_sold x;
     Doc.full_purchase_price := Doc.full_purchase_price x;
     Doc.property_description := Doc.property_description x;
     Doc.operational_details := Doc.operational_details x;
     Doc.termination := Doc.termination x;
     Doc.agreement_terms := Doc.agreement_terms x;
     Doc.term_payment_models := Doc.term_payment_models x;
     Doc.date_payment_models := Doc.date_payment_models x;
     Doc.date_payments := payments;
     Doc.review_status := Doc.review_status x;
     Doc.review_status_doc_id := Doc.review_status_doc_id x;
     Doc.review_status_instance_id := Doc.review_status_instance_id x;
     Doc.review_status_value_instance_id := Doc.review_status_value_instance_id x;
     Doc.review_status_notes := Doc.review_status_notes x;
     Doc.sort_date := Doc.sort_date x;
     Doc.amendment_ordinal := Doc.amendment_ordinal x;
     Doc.amendments := Doc.amendments x |}.

(** Amendment [a] supplies the value [v] of a fact, and every other
    amendment that supplies the fact has an earlier sort date. *)
Definition latest_to_supply {T : Type} (supplied : Doc.t -> option T)
           (amendments : list Ref) (a : Ref) (v : T) : Prop :=
  In a amendments
  /\ supplied (snd a) = Some v
  /\ forall r : Ref, In r amendments -> supplied (snd r) <> None ->
                     r = a \/ ref_key r < ref_key a.

(** Periods that follow one another: the first starts at [start] and is
    paid at [payment_date], every later one starts, and is paid, the day
    after the one before it ends, and they are counted from [i]. *)
Fixpoint rounds_chained (start payment_date : DateTime) (i : Z) (periods : list Period)
  : Prop :=
  match periods with
  | [] => True
  | p :: rest =>
      period_index p = i
      /\ period_start p = start
      /\ period_payment_date p = payment_date
      /\ rounds_chained (plus_days (period_end p) 1) (plus_days (period_end p) 1) (i + 1) rest
  end.

(** The character [","]. *)
Definition comma : Ascii.ascii := Ascii.ascii_of_nat 44.

(** ** Sample data *)

Definition no_op_details : OpDetails :=
  {| commencement_date := None;
     construction_commencement := None;
     operations_commencement := None;
     mw := None;
     inverter_count := None;
     inverter_rating_mvas := None |}.

(** A term payment model that pays 10 per acre and sets nothing else. *)
Definition per_acre_model : TermModel.t :=
  {| TermModel.id := Some "m1"%string;
     TermModel.model_type := Some "Option"%string;
     TermModel.payment_frequency := Some "Annually"%string;
     TermModel.minimum_payment := None;
     TermModel.payment_per_mw := None;
     TermModel.payment_per_mva := None;
     TermModel.flat_payment_amount := None;
     TermModel.payment_per_acre := Some 10%Q;
     TermModel.periodic_escalation_rate := None;
     TermModel.periodic_escalation_frequency := None;
     TermModel.increase_amount := None;
     TermModel.prorated_first_period := false;
     TermModel.first_payment_lag := None;
     TermModel.subsequent_payment_lag := None;
     TermModel.apply_payment_lag_to_extension := false;
     TermModel.payee := None;
     TermModel.applicable_to_purchase := false |}.

(** A term that names its payment model. *)
Definition option_term : Term.t :=
  {| Term.term_ordinal := 1;
     Term.term_type := Some "Option"%string;
     Term.extension := false;
     Term.term_length_years := Some 1%Q;
     Term.payment_model := Some "Option"%string;
     Term.first_payment_start := Some "Start with Term"%string;
     Term.increase_amount := None;
     Term.escalation_rate := None;
     Term.start_date := None;
     Term.end_date := None;
     Term.cancelled_by_ops := false;
     Term.cumulative_increase_amount := None;
     Term.cumulative_escalation_rate := None;
     Term.periodic_payments := None |}.


Definition sample_event (source : string) (date : DateTime) (amount : Q)
           (applicable : bool) : Event.t :=
  {| Event.payment_source := source;
     Event.model_id := None;
     Event.project_id := None;
     Event.payment_index := Some 0;
     Event.payment_date := date;
     Event.late_payment_date := None;
     Event.payment_type := None;
     Event.payment_amount := amount;
     Event.payee := "Smith";
     Event.payment_period_start := None;
     Event.payment_period_end := None;
     Event.prorata_factor := None;
     Event.applicable_to_purchase := applicable;
     Event.refundable := false;
     Event.after_outside_date := false;
     Event.previous_periods := None |}.

Definition smith : Grantor :=
  {| grantor_lessor_name := "Smith Family Trust and John Smith";
     payment_split := None |}.

Definition no_termination : Termination :=
  {| termination_date := None; termination_keys := [] |}.

(** An option term whose payments count towards the purchase price. *)
Definition paid_option_term : Term.t :=
  {| Term.term_ordinal := 1;
     Term.term_type := Some "Option"%string;
     Term.extension := false;
     Term.term_length_years := Some 2%Q;
     Term.payment_model := Some "Option"%string;
     Term.first_payment_start := Some "Start with Term"%string;
     Term.increase_amount := None;
     Term.escalation_rate := None;
     Term.start_date := Some (local 2023 1 1);
     Term.end_date := Some (local 2024 12 31);
     Term.cancelled_by_ops := false;
     Term.cumulative_increase_amount := Some 0%Q;
     Term.cumulative_escalation_rate := Some 1%Q;
     Term.periodic_payments :=
       Some [ sample_event "Term Model" (local 2023 1 1) 7500 true;
              sample_event "Term Model" (local 2024 1 1) 7500 true ] |}.

(** An option to purchase for 100000 on which 20000 was paid towards the
    price, and 300 outside of it. *)
Definition purchase_doc : Doc.t :=
  {| Doc.id := "doc-1";
     Doc.project_id := Some "P-7"%string;
     Doc.agreement_group := Some "OPT - Solar One - Smith Family Trust - P-7"%string;
     Doc.jupiter_entity := None;
     Doc.grantee := None;
     Doc.grantor := [smith];
     Doc.effective_date := Some (local 2023 1 1);
     Doc.amendment_date := None;
     Doc.letter_date := None;
     Doc.deed_date := None;
     Doc.payment_directive_date := None;
     Doc.recorded_date := None;
     Doc.outside_date := None;
     Doc.estimated_closing_date := Some (local 2025 6 30);
     Doc.date_purchased := None;
     Doc.date_sold := None;
     Doc.full_purchase_price := Some 100000%Q;
     Doc.property_description := [];
     Doc.operational_details := no_op_details;
     Doc.termination := no_termination;
     Doc.agreement_terms := [paid_option_term];
     Doc.term_payment_models := [];
     Doc.date_payment_models := [];
     Doc.date_payments :=
       [ sample_event "Date Model (One Time)" (local 2023 3 1) 5000 true;
         sample_event "Date Model (One Time)" (local 2023 4 1) 300 false ];
     Doc.review_status := None;
     Doc.review_status_doc_id := None;
     Doc.review_status_instance_id := None;
     Doc.review_status_value_instance_id := None;
     Doc.review_status_notes := None;
     Doc.sort_date := None;
     Doc.amendment_ordinal := None;
     Doc.amendments := [] |}.

(** A reading of [utils.plusDuration] for the examples: whole years on the
    calendar, the fraction of a year as that fraction of 365 days. *)
Definition plus_whole_years_and_days (start : DateTime) (years : Q) : DateTime :=
  plus_years start (Qfloor years)
  + Qfloor ((years - inject_Z (Qfloor years)) * 365 * inject_Z MS_PER_DAY)%Q.

Definition sample_term (ordinal : Z) (type : string) (years : Q)
           (model : option string) (increase rate : option Q) : Term.t :=
  {| Term.term_ordinal := ordinal;
     Term.term_type := Some type;
     Term.extension := false;
     Term.term_length_years := Some years;
     Term.payment_model := model;
     Term.first_payment_start := Some "Start with Term"%string;
     Term.increase_amount := increase;
     Term.escalation_rate := rate;
     Term.start_date := None;
     Term.end_date := None;
     Term.cancelled_by_ops := false;
     Term.cumulative_increase_amount := None;
     Term.cumulative_escalation_rate := None;
     Term.periodic_payments := None |}.

(** The terms of a lease as the document lists them: out of order. *)
Definition lease_terms : list Term.t :=
  [ sample_term 3 "Operations" 25 (Some "Rent"%string) (Some 100%Q) (Some 10%Q);
    sample_term 1 "Development" (3 # 2) (Some "Option"%string) None None;
    sample_term 2 "Construction" 1 (Some "Rent"%string) (Some 50%Q) (Some 5%Q) ].

(** Operational details that supply the operations commencement only. *)
Definition lease_op_details : OpDetails :=
  {| commencement_date := None;
     construction_commencement := None;
     operations_commencement := Some (local 2026 1 1);
     mw := Some 100%Q;
     inverter_count := None;
     inverter_rating_mvas := None |}.

(** Operational details that supply only the commencement date. *)
Definition commenced_op_details : OpDetails :=
  {| commencement_date := Some (local 2023 3 1);
     construction_commencement := None;
     operations_commencement := None;
     mw := None;
     inverter_count := None;
     inverter_rating_mvas := None |}.

(** Operational details with a commencement date and a later start of
    operations. *)
Definition milestone_op_details : OpDetails :=
  {| commencement_date := Some (local 2023 3 1);
     construction_commencement := None;
     operations_commencement := Some (local 2023 6 1);
     mw := None;
     inverter_count := None;
     inverter_rating_mvas := None |}.

(** An extension of the operations term. *)
Definition operations_extension_term : Term.t :=
  {| Term.term_ordinal := 2;
     Term.term_type := Some "Operations"%string;
     Term.extension := true;
     Term.term_length_years := Some 1%Q;
     Term.payment_model := Some "Rent"%string;
     Term.first_payment_start := Some "Start with Term"%string;
     Term.increase_amount := None;
     Term.escalation_rate := None;
     Term.start_date := None;
     Term.end_date := None;
     Term.cancelled_by_ops := false;
     Term.cumulative_increase_amount := None;
     Term.cumulative_escalation_rate := None;
     Term.periodic_payments := None |}.

(** An operations term of one year and its extension. *)
Definition operations_terms : list Term.t :=
  [ sample_term 1 "Operations" 1 (Some "Rent"%string) None None;
    operations_extension_term ].

Definition sample_date_model (id : string) (frequency : string)
           (date_begin date_end : DateTime) (amount : Q) : DateModel.t :=
  {| DateModel.id := Some id;
     DateModel.date_one_time := None;
     DateModel.date_begin := Some date_begin;
     DateModel.date_end := Some date_end;
     DateModel.frequency := Some frequency;
     DateModel.payment_amount := Some amount;
     DateModel.increase_amount := None;
     DateModel.periodic_escalation_rate := None;
     DateModel.first_payment_lag := None;
     DateModel.subsequent_payment_lag := None;
     DateModel.payment_type := Some "Option Payment"%string;
     DateModel.payee := None;
     DateModel.applicable_to_purchase := false;
     DateModel.refundable := false |}.

(** A model whose frequency the generator does not know. *)
Definition weekly_model : DateModel.t :=
  sample_date_model "weekly" "Weekly" (local 2024 1 1) (local 2024 12 31) 100.

Definition annual_model : DateModel.t :=
  sample_date_model "annual" "Annually" (local 2024 1 1) (local 2025 12 31) 1000.

Definition quarterly_model : DateModel.t :=
  sample_date_model "quarterly" "Quarterly" (local 2024 1 1) (local 2024 6 30) 250.

(** An agreement with date based models only. *)
Definition dated_doc (models : list DateModel.t) : Doc.t :=
  {| Doc.id := "doc-2";
     Doc.project_id := Some "P-7"%string;
     Doc.agreement_group := Some "OPT - Solar One - Smith Family Trust - P-7"%string;
     Doc.jupiter_entity := None;
     Doc.grantee := None;
     Doc.grantor := [smith];
     Doc.effective_date := Some (local 2024 1 1);
     Doc.amendment_date := None;
     Doc.letter_date := None;
     Doc.deed_date := None;
     Doc.payment_directive_date := None;
     Doc.recorded_date := None;
     Doc.outside_date := None;
     Doc.estimated_closing_date := None;
     Doc.date_purchased := None;
     Doc.date_sold := None;
     Doc.full_purchase_price := None;
     Doc.property_description := [];
     Doc.operational_details := no_op_details;
     Doc.termination := no_termination;
     Doc.agreement_terms := [];
     Doc.term_payment_models := [];
     Doc.date_payment_models := models;
     Doc.date_payments := [];
     Doc.review_status := None;
     Doc.review_status_doc_id := None;
     Doc.review_status_instance_id := None;
     Doc.review_status_value_instance_id := None;
     Doc.review_status_notes := None;
     Doc.sort_date := None;
     Doc.amendment_ordinal := None;
     Doc.amendments := [] |}.

(** Two grantors who share every payment half and half. *)
Definition half_and_half : list Grantor :=
  [ {| grantor_lessor_name := "Jane Doe"; payment_split := Some 50%Q |};
    {| grantor_lessor_name := "John Doe"; payment_split := Some 50%Q |} ].

(** A blended payment of 1000 as [utils.blendedEscalation] returns it. *)
Definition blended_1000 : BlendedPayment :=
  {| bp_payment_index := 0;
     bp_payment_date := local 2024 1 1;
     total_payment := 1000;
     min_date := local 2024 1 1;
     max_date := local 2024 12 31;
     date_count := 366 |}.

(** A flat payment of 1000 a year, pro-rated in its first period and
    escalated by 2 percent: a model the blended generator is chosen for. *)
Definition blended_model : TermModel.t :=
  {| TermModel.id := Some "m2"%string;
     TermModel.model_type := Some "Option"%string;
     TermModel.payment_frequency := Some "Annually"%string;
     TermModel.minimum_payment := None;
     TermModel.payment_per_mw := None;
     TermModel.payment_per_mva := None;
     TermModel.flat_payment_amount := Some 1000%Q;
     TermModel.payment_per_acre := None;
     TermModel.periodic_escalation_rate := Some 2%Q;
     TermModel.periodic_escalation_frequency := Some "Annually"%string;
     TermModel.increase_amount := None;
     TermModel.prorated_first_period := true;
     TermModel.first_payment_lag := None;
     TermModel.subsequent_payment_lag := None;
     TermModel.apply_payment_lag_to_extension := false;
     TermModel.payee := None;
     TermModel.applicable_to_purchase := false |}.

(** A document of the group "G" with the given dates, terms and models. *)
Definition group_doc (id : string) (effective amendment letter : option DateTime)
           (terms : list Term.t) (models : list DateModel.t) : Doc.t :=
  {| Doc.id := id;
     Doc.project_id := Some "P-7"%string;
     Doc.agreement_group := Some "G"%string;
     Doc.jupiter_entity := None;
     Doc.grantee := None;
     Doc.grantor := if JS.truthy_obj effective then [smith] else [];
     Doc.effective_date := effective;
     Doc.amendment_date := amendment;
     Doc.letter_date := letter;
     Doc.deed_date := None;
     Doc.payment_directive_date := None;
     Doc.recorded_date := None;
     Doc.outside_date := None;
     Doc.estimated_closing_date := None;
     Doc.date_purchased := None;
     Doc.date_sold := None;
     Doc.full_purchase_price := None;
     Doc.property_description := [];
     Doc.operational_details := no_op_details;
     Doc.termination := no_termination;
     Doc.agreement_terms := terms;
     Doc.term_payment_models := [];
     Doc.date_payment_models := models;
     Doc.date_payments := [];
     Doc.review_status := None;
     Doc.review_status_doc_id := None;
     Doc.review_status_instance_id := None;
     Doc.review_status_value_instance_id := None;
     Doc.review_status_notes := None;
     Doc.sort_date := None;
     Doc.amendment_ordinal := None;
     Doc.amendments := [] |}.

(** An original lease, its second and first amendment and a letter. *)
Definition base_lease : Doc.t :=
  group_doc "lease" (Some (local 2023 1 1)) None None lease_terms [].

Definition second_amendment : Doc.t :=
  group_doc "amd-2" None (Some (local 2024 9 1)) None [option_term] [].

Definition first_amendment : Doc.t :=
  group_doc "amd-1" None (Some (local 2024 3 1)) None [] [annual_model].

Definition side_letter : Doc.t :=
  group_doc "letter" None None (Some (local 2024 6 1)) [] [].

Definition lease_collection : list Doc.t :=
  [base_lease; second_amendment; side_letter; first_amendment].

(** The lease resolved from its effective date, and its operations term. *)
Definition lease_resolved : list Term.t :=
  calcAgreementTermDates plus_whole_years_and_days (Some (local 2023 1 1))
                         lease_op_details no_termination lease_terms.

Definition lease_operations_resolved : Term.t := nth 2 lease_resolved option_term.

(** The lease resolved from the commencement date alone. *)
Definition lease_commenced : list Term.t :=
  calcAgreementTermDates plus_whole_years_and_days None
                         commenced_op_details no_termination lease_terms.

(** An option held by the two grantors, its term resolved. *)
Definition shared_option_doc : Doc.t :=
  {| Doc.id := "doc-3";
     Doc.project_id := Some "P-7"%string;
     Doc.agreement_group := Some "OPT - Solar One - Jane Doe - P-7"%string;
     Doc.jupiter_entity := None;
     Doc.grantee := None;
     Doc.grantor := half_and_half;
     Doc.effective_date := Some (local 2023 1 1);
     Doc.amendment_date := None;
     Doc.letter_date := None;
     Doc.deed_date := None;
     Doc.payment_directive_date := None;
     Doc.recorded_date := None;
     Doc.outside_date := None;
     Doc.estimated_closing_date := None;
     Doc.date_purchased := None;
     Doc.date_sold := None;
     Doc.full_purchase_price := None;
     Doc.property_description := [];
     Doc.operational_details := no_op_details;
     Doc.termination := no_termination;
     Doc.agreement_terms := [paid_option_term];
     Doc.term_payment_models := [blended_model];
     Doc.date_payment_models := [];
     Doc.date_payments := [];
     Doc.review_status := None;
     Doc.review_status_doc_id := None;
     Doc.review_status_instance_id := None;
     Doc.review_status_value_instance_id := None;
     Doc.review_status_notes := None;
     Doc.sort_date := None;
     Doc.amendment_ordinal := None;
     Doc.amendments := [] |}.

(** A termination notice effective on 2024-03-31. *)
Definition terminated_early : Termination :=
  {| termination_date := Some (local 2024 3 31);
     termination_keys := ["termination_date"%string] |}.

(** The agreement of [dated_doc], terminated on 2024-03-31. *)
Definition terminated_doc (models : list DateModel.t) : Doc.t :=
  {| Doc.id := "doc-4";
     Doc.project_id := Some "P-7"%string;
     Doc.agreement_group := Some "OPT - Solar One - Smith Family Trust - P-7"%string;
     Doc.jupiter_entity := None;
     Doc.grantee := None;
     Doc.grantor := [smith];
     Doc.effective_date := Some (local 2024 1 1);
     Doc.amendment_date := None;
     Doc.letter_date := None;
     Doc.deed_date := None;
     Doc.payment_directive_date := None;
     Doc.recorded_date := None;
     Doc.outside_date := None;
     Doc.estimated_closing_date := None;
     Doc.date_purchased := None;
     Doc.date_sold := None;
     Doc.full_purchase_price := None;
     Doc.property_description := [];
     Doc.operational_details := no_op_details;
     Doc.termination := terminated_early;
     Doc.agreement_terms := [];
     Doc.term_payment_models := [];
     Doc.date_payment_models := models;
     Doc.date_payments := [];
     Doc.review_status := None;
     Doc.review_status_doc_id := None;
     Doc.review_status_instance_id := None;
     Doc.review_status_value_instance_id := None;
     Doc.review_status_notes := None;
     Doc.sort_date := None;
     Doc.amendment_ordinal := None;
     Doc.amendments := [] |}.

(** A date payment model with a start date and nothing else. *)
Definition bare_date_model : DateModel.t :=
  {| DateModel.id := None;
     DateModel.date_one_time := None;
     DateModel.date_begin := Some (local 2024 1 1);
     DateModel.date_end := None;
     DateModel.frequency := None;
     DateModel.payment_amount := None;
     DateModel.increase_amount := None;
     DateModel.periodic_escalation_rate := None;
     DateModel.first_payment_lag := None;
     DateModel.subsequent_payment_lag := None;
     DateModel.payment_type := None;
     DateModel.payee := None;
     DateModel.applicable_to_purchase := false;
     DateModel.refundable := false |}.

(** A signing bonus of 5000 due once, entered with a frequency and a window
    all the same. *)
Definition signing_bonus : DateModel.t :=
  {| DateModel.id := Some "bonus"%string;
     DateModel.date_one_time := Some (local 2024 2 15);
     DateModel.date_begin := Some (local 2024 1 1);
     DateModel.date_end := Some (local 2030 12 31);
     DateModel.frequency := Some "Annually"%string;
     DateModel.payment_amount := Some 5000%Q;
     DateModel.increase_amount := None;
     DateModel.periodic_escalation_rate := Some 3%Q;
     DateModel.first_payment_lag := None;
     DateModel.subsequent_payment_lag := None;
     DateModel.payment_type := Some "Signing Bonus"%string;
     DateModel.payee := None;
     DateModel.applicable_to_purchase := true;
     DateModel.refundable := false |}.

(** One grantor with 60 percent and one without a percentage. *)
Definition sixty_and_rest : list Grantor :=
  [ {| grantor_lessor_name := "Jane Doe"; payment_split := Some 60%Q |};
    {| grantor_lessor_name := "John Doe"; payment_split := None |} ].

(** [purchase_doc] with these two grantors: 20000 of the price of 100000
    are paid. *)
Definition shared_purchase_doc : Doc.t :=
  {| Doc.id := "doc-5";
     Doc.project_id := Some "P-7"%string;
     Doc.agreement_group := Some "OPT - Solar One - Jane Doe - P-7"%string;
     Doc.jupiter_entity := None;
     Doc.grantee := None;
     Doc.grantor := sixty_and_rest;
     Doc.effective_date := Some (local 2023 1 1);
     Doc.amendment_date := None;
     Doc.letter_date := None;
     Doc.deed_date := None;
     Doc.payment_directive_date := None;
     Doc.recorded_date := None;
     Doc.outside_date := None;
     Doc.estimated_closing_date := Some (local 2025 6 30);
     Doc.date_purchased := None;
     Doc.date_sold := None;
     Doc.full_purchase_price := Some 100000%Q;
     Doc.property_description := [];
     Doc.operational_details := no_op_details;
     Doc.termination := no_termination;
     Doc.agreement_terms := [];
     Doc.term_payment_models := [];
     Doc.date_payment_models := [];
     Doc.date_payments :=
       [ sample_event "Date Model (One Time)" (local 2023 3 1) 20000 true;
         sample_event "Date Model (One Time)" (local 2023 4 1) 300 false ];
     Doc.review_status := None;
     Doc.review_status_doc_id := None;
     Doc.review_status_instance_id := None;
     Doc.review_status_value_instance_id := None;
     Doc.review_status_notes := None;
     Doc.sort_date := None;
     Doc.amendment_ordinal := None;
     Doc.amendments := [] |}.

(** A lease whose agreement group could not be computed. *)
Definition ungrouped_lease : Doc.t :=
  {| Doc.id := "lease-0";
     Doc.project_id := None;
     Doc.agreement_group := None;
     Doc.jupiter_entity := None;
     Doc.grantee := None;
     Doc.grantor := [smith];
     Doc.effective_date := Some (local 2023 1 1);
     Doc.amendment_date := None;
     Doc.letter_date := None;
     Doc.deed_date := None;
     Doc.payment_directive_date := None;
     Doc.recorded_date := None;
     Doc.outside_date := None;
     Doc.estimated_closing_date := None;
     Doc.date_purchased := None;
     Doc.date_sold := None;
     Doc.full_purchase_price := None;
     Doc.property_description := [];
     Doc.operational_details := no_op_details;
     Doc.termination := no_termination;
     Doc.agreement_terms := lease_terms;
     Doc.term_payment_models := [];
     Doc.date_payment_models := [];
     Doc.date_payments := [];
     Doc.review_status := None;
     Doc.review_status_doc_id := None;
     Doc.review_status_instance_id := None;
     Doc.review_status_value_instance_id := None;
     Doc.review_status_notes := None;
     Doc.sort_date := None;
     Doc.amendment_ordinal := None;
     Doc.amendments := [] |}.

(** The per-acre model paid once per term. *)
Definition once_per_term_model : TermModel.t :=
  {| TermModel.id := Some "m3"%string;
     TermModel.model_type := Some "Option"%string;
     TermModel.payment_frequency := Some "Once per Term"%string;
     TermModel.minimum_payment := None;
     TermModel.payment_per_mw := None;
     TermModel.payment_per_mva := None;
     TermModel.flat_payment_amount := None;
     TermModel.payment_per_acre := Some 10%Q;
     TermModel.periodic_escalation_rate := None;
     TermModel.periodic_escalation_frequency := None;
     TermModel.increase_amount := None;
     TermModel.prorated_first_period := false;
     TermModel.first_payment_lag := None;
     TermModel.subsequent_payment_lag := None;
     TermModel.apply_payment_lag_to_extension := false;
     TermModel.payee := None;
     TermModel.applicable_to_purchase := false |}.

(** A pro-rated model paid twice a year, without escalation: a model that
    [calcAllTermPayments] hands to the standard generator. *)
Definition prorated_semiannual_model : TermModel.t :=
  {| TermModel.id := Some "m4"%string;
     TermModel.model_type := Some "Option"%string;
     TermModel.payment_frequency := Some "Semiannually"%string;
     TermModel.minimum_payment := None;
     TermModel.payment_per_mw := None;
     TermModel.payment_per_mva := None;
     TermModel.flat_payment_amount := Some 1000%Q;
     TermModel.payment_per_acre := None;
     TermModel.periodic_escalation_rate := None;
     TermModel.periodic_escalation_frequency := None;
     TermModel.increase_amount := None;
     TermModel.prorated_first_period := true;
     TermModel.first_payment_lag := None;
     TermModel.subsequent_payment_lag := None;
     TermModel.apply_payment_lag_to_extension := false;
     TermModel.payee := None;
     TermModel.applicable_to_purchase := false |}.

(** The rounds of the option term of [shared_option_doc] under the per-acre
    model, which is paid on the anniversaries of the term. *)
Definition option_rounds : option (option (list Period)) :=
  calcPeriodicPaymentsForTerm_rounds 10 shared_option_doc paid_option_term None
                                     (Some [per_acre_model]) half_and_half.

(** A term payment model on which no way to compute a payment is filled in. *)
Definition unpriced_model : TermModel.t :=
  {| TermModel.id := Some "m5"%string;
     TermModel.model_type := Some "Option"%string;
     TermModel.payment_frequency := Some "Annually"%string;
     TermModel.minimum_payment := None;
     TermModel.payment_per_mw := Some 0%Q;
     TermModel.payment_per_mva := None;
     TermModel.flat_payment_amount := None;
     TermModel.payment_per_acre := None;
     TermModel.periodic_escalation_rate := None;
     TermModel.periodic_escalation_frequency := None;
     TermModel.increase_amount := None;
     TermModel.prorated_first_period := false;
     TermModel.first_payment_lag := None;
     TermModel.subsequent_payment_lag := None;
     TermModel.apply_payment_lag_to_extension := false;
     TermModel.payee := None;
     TermModel.applicable_to_purchase := false |}.

(** * Properties *)

(** ** The calendar on known dates *)

Example local_epoch : local 1970 1 1 = 0.
Proof. reflexivity. Qed.

Example civil_of_leap_day :
  civil_from_days (days_from_civil 2024 2 29) = (2024, 2, 29).
Proof. vm_compute. reflexivity. Qed.

Example civil_of_century_end :
  civil_from_days (days_from_civil 2100 2 28 + 1) = (2100, 3, 1).
Proof. vm_compute. reflexivity. Qed.

Example civil_of_leap_century :
  civil_from_days (days_from_civil 2000 2 28 + 1) = (2000, 2, 29).
Proof. vm_compute. reflexivity. Qed.

Example civil_before_epoch :
  civil_from_days (-1) = (1969, 12, 31) /\ days_from_civil 1969 12 31 = -1.
Proof. vm_compute. split; reflexivity. Qed.

(** On every day from 2020 to 2030 the two conversions are inverse to each
    other, the date is a date of the calendar, and adding a month moves the
    day forward by 28 to 31 days. *)
Example calendar_2020_to_2030 :
  snd (Pos.iter (fun state : Z * bool =>
                   let z := fst state in
                   let '(y, m, d) := civil_from_days z in
                   (z + 1,
                    snd state
                    && (days_from_civil y m d =? z)
                    && (1 <=? m) && (m <=? 12) && (1 <=? d) && (d <=? days_in_month y m)
                    && (z + 28 <=? day_number (plus_months (z * MS_PER_DAY) 1))
                    && (day_number (plus_months (z * MS_PER_DAY) 1) <=? z + 31)))
                (days_from_civil 2020 1 1, true) 4018)
  = true.
Proof. vm_compute. reflexivity. Qed.

Example plus_months_caps_the_day : plus_months (local 2024 1 31) 1 = local 2024 2 29.
Proof. vm_compute. reflexivity. Qed.

Example plus_years_from_leap_day : plus_years (local 2024 2 29) 1 = local 2025 2 28.
Proof. vm_compute. reflexivity. Qed.

Example plus_months_into_next_year : plus_months (local 2023 11 15) 3 = local 2024 2 15.
Proof. vm_compute. reflexivity. Qed.

Example noon_rounds_to_next_day :
  let t := local 2024 7 1 + 12 * MS_PER_HOUR in
  hour t = 12 /\ startOfDay (plus_days t 1) = local 2024 7 2.
Proof. vm_compute. split; reflexivity. Qed.

Example nickname_stops_at_and :
  nicknameGrantor "Smith Family Trust and John Smith" = "Smith Family Trust"%string.
Proof. vm_compute. reflexivity. Qed.

Example nickname_stops_at_comma :
  nicknameGrantor "Doe, Jane and John" = "Doe"%string.
Proof. vm_compute. reflexivity. Qed.

(** ** The calendar in general *)

Ltac calc :=
  cbn [Z.ltb Z.leb Z.gtb Z.eqb Z.add Z.sub Z.opp Z.compare Pos.compare Pos.eqb
       Pos.compare_cont Pos.add Pos.succ Z.pos_sub Pos.pred_double
       Z.succ_double Z.pred_double Z.double Pos.add_carry Z.mul Pos.mul].

(** A month has 28 days at least. *)
Lemma month_start_step (M : Z) : month_start M + 28 <= month_start (M + 1).
Proof.
  unfold month_start, days_from_civil.
  assert (H : 0 <= M mod 12 < 12) by (apply Z.mod_pos_bound; lia).
  assert (Hc : M mod 12 = 0 \/ M mod 12 = 1 \/ M mod 12 = 2 \/ M mod 12 = 3
               \/ M mod 12 = 4 \/ M mod 12 = 5 \/ M mod 12 = 6 \/ M mod 12 = 7
               \/ M mod 12 = 8 \/ M mod 12 = 9 \/ M mod 12 = 10 \/ M mod 12 = 11)
    by lia.
  assert (Hn : (M mod 12 < 11 /\ (M + 1) / 12 = M / 12
                /\ (M + 1) mod 12 = M mod 12 + 1)
               \/ (M mod 12 = 11 /\ (M + 1) / 12 = M / 12 + 1
                   /\ (M + 1) mod 12 = 0)).
  { Z.div_mod_to_equations. lia. }
  set (y := M / 12) in *. set (r := M mod 12) in *.
  destruct Hn as [(Hlt & -> & ->) | (He & -> & ->)].
  - clearbody y r.
    repeat (destruct Hc as [Hc|Hc]; [subst r; calc; Z.div_mod_to_equations; lia|]).
    subst r. lia.
  - rewrite He. calc. Z.div_mod_to_equations; lia.
Qed.

Lemma month_start_mono (M n : Z) :
  0 <= n -> month_start M + 28 * n <= month_start (M + n).
Proof.
  intros Hn.
  apply (natlike_ind (fun n => month_start M + 28 * n <= month_start (M + n)));
    [| |exact Hn].
  - replace (M + 0) with M by lia. lia.
  - intros k Hk IH. replace (M + Z.succ k) with (M + k + 1) by lia.
    pose proof (month_start_step (M + k)). lia.
Qed.

(** The date of a day number: converting it back gives the day number, the
    month and the day are in range, and the day lies before the first day
    of the month after. *)
Lemma civil_from_days_spec (z : Z) :
  let '(y, m, d) := civil_from_days z in
  days_from_civil y m d = z /\ 1 <= m <= 12 /\ 1 <= d
  /\ z < (if m =? 12 then days_from_civil (y + 1) 1 1 else days_from_civil y (m + 1) 1).
Proof.
  unfold civil_from_days. cbv zeta.
  set (z' := z + 719468).
  set (era := z' / 146097).
  set (doe := z' - era * 146097).
  assert (Hz : z = era * 146097 + doe - 719468) by (subst doe z'; lia).
  assert (Hdoe : 0 <= doe < 146097).
  { subst doe era. Z.div_mod_to_equations. lia. }
  clearbody doe era. clear z'.
  set (yoe := (doe - doe / 1460 + doe / 36524 - doe / 146096) / 365).
  assert (Hyoe : 0 <= yoe <= 399).
  { subst yoe. Z.div_mod_to_equations; lia. }
  set (doy := doe - (365 * yoe + yoe / 4 - yoe / 100)).
  assert (Hdoy : 0 <= doy
                 /\ (yoe < 399 ->
                     doe < 365 * (yoe + 1) + (yoe + 1) / 4 - (yoe + 1) / 100)).
  { subst doy yoe. Z.div_mod_to_equations; lia. }
  assert (Hdoe' : doe = 365 * yoe + yoe / 4 - yoe / 100 + doy) by (subst doy; lia).
  clearbody doy yoe.
  set (mp := (5 * doy + 2) / 153).
  assert (Hmp : 0 <= mp <= 11 /\ (153 * mp + 2) / 5 <= doy
                /\ (mp < 11 -> doy < (153 * (mp + 1) + 2) / 5)).
  { subst mp. destruct Hdoy as [H0 H1].
    assert (doy <= 365) by (Z.div_mod_to_equations; lia).
    Z.div_mod_to_equations; lia. }
  clearbody mp.
  set (d := doy - (153 * mp + 2) / 5 + 1).
  assert (Hd : doy = (153 * mp + 2) / 5 + d - 1) by (subst d; lia).
  assert (Hd1 : 1 <= d) by (subst d; lia).
  clearbody d.
  assert (Hc : mp = 0 \/ mp = 1 \/ mp = 2 \/ mp = 3 \/ mp = 4 \/ mp = 5 \/ mp = 6
               \/ mp = 7 \/ mp = 8 \/ mp = 9 \/ mp = 10 \/ mp = 11) by lia.
  unfold days_from_civil.
  repeat (destruct Hc as [Hc|Hc]; [subst mp; calc; Z.div_mod_to_equations; lia|]).
  subst mp; calc; Z.div_mod_to_equations; lia.
Qed.

Lemma month_start_next (y m : Z) :
  1 <= m <= 12 ->
  month_start (12 * y + (m - 1) + 1)
  = (if m =? 12 then days_from_civil (y + 1) 1 1 else days_from_civil y (m + 1) 1).
Proof.
  intros Hm. unfold month_start.
  destruct (m =? 12) eqn:E.
  - apply Z.eqb_eq in E. subst m.
    replace ((12 * y + (12 - 1) + 1) / 12) with (y + 1) by (Z.div_mod_to_equations; lia).
    replace ((12 * y + (12 - 1) + 1) mod 12) with 0 by (Z.div_mod_to_equations; lia).
    reflexivity.
  - apply Z.eqb_neq in E.
    replace ((12 * y + (m - 1) + 1) / 12) with y by (Z.div_mod_to_equations; lia).
    replace ((12 * y + (m - 1) + 1) mod 12) with m by (Z.div_mod_to_equations; lia).
    reflexivity.
Qed.

Lemma days_from_civil_day (y m d : Z) :
  days_from_civil y m d = days_from_civil y m 1 + (d - 1).
Proof. unfold days_from_civil. cbv zeta. lia. Qed.

Lemma days_in_month_positive (y m : Z) : 28 <= days_in_month y m.
Proof.
  unfold days_in_month.
  destruct (m =? 2); [destruct (is_leap y); lia|].
  destruct ((m =? 4) || (m =? 6) || (m =? 9) || (m =? 11)); lia.
Qed.

(** Adding one month or more moves a date forward by a day at least. *)
Lemma plus_months_advances (t : DateTime) (n : Z) :
  1 <= n -> t + MS_PER_DAY <= plus_months t n.
Proof.
  intros Hn. unfold plus_months.
  pose proof (civil_from_days_spec (day_number t)) as Hspec.
  destruct (civil_from_days (day_number t)) as [[y m] d].
  destruct Hspec as (Hz & Hm & Hd & Hnext).
  rewrite <- (month_start_next y m Hm) in Hnext.
  set (k := m - 1 + n).
  set (d' := Z.min d (days_in_month (y + k / 12) (k mod 12 + 1))).
  assert (Hd' : 1 <= d').
  { subst d'. pose proof (days_in_month_positive (y + k / 12) (k mod 12 + 1)). lia. }
  assert (Hstart : days_from_civil (y + k / 12) (k mod 12 + 1) 1
                   = month_start (12 * y + (m - 1) + n)).
  { unfold month_start.
    replace ((12 * y + (m - 1) + n) / 12) with (y + k / 12)
      by (subst k; Z.div_mod_to_equations; lia).
    replace ((12 * y + (m - 1) + n) mod 12) with (k mod 12)
      by (subst k; Z.div_mod_to_equations; lia).
    reflexivity. }
  rewrite (days_from_civil_day _ _ d'), Hstart.
  pose proof (month_start_mono (12 * y + (m - 1) + 1) (n - 1)) as Hmono.
  replace (12 * y + (m - 1) + 1 + (n - 1)) with (12 * y + (m - 1) + n) in Hmono by lia.
  assert (Ht : t = day_number t * MS_PER_DAY + ms_of_day t).
  { unfold day_number, ms_of_day, MS_PER_DAY. Z.div_mod_to_equations. lia. }
  rewrite Ht at 1. unfold MS_PER_DAY in *. nia.
Qed.

(** ** The stable sort *)

Section SortByKey.

Context {A : Type} (key : A -> Z).

Lemma insert_by_key_perm (x : A) (l : list A) :
  Permutation (insert_by_key key x l) (x :: l).
Proof.
  induction l as [|y rest IH]; simpl.
  - apply Permutation_refl.
  - destruct (key x <=? key y).
    + apply Permutation_refl.
    + eapply perm_trans; [apply perm_skip, IH | apply perm_swap].
Qed.

Lemma sort_by_key_perm (l : list A) : Permutation (sort_by_key key l) l.
Proof.
  induction l as [|x rest IH]; simpl.
  - constructor.
  - eapply perm_trans; [apply insert_by_key_perm | apply perm_skip, IH].
Qed.

Lemma insert_by_key_sorted (x : A) (l : list A) :
  StronglySorted (key_le key) l -> StronglySorted (key_le key) (insert_by_key key x l).
Proof.
  induction 1 as [|y rest Hs IH Hall]; simpl.
  - repeat constructor.
  - destruct (key x <=? key y) eqn:E.
    + apply Z.leb_le in E. constructor.
      * constructor; assumption.
      * constructor; [exact E|].
        eapply Forall_impl; [|exact Hall].
        intros z Hz. unfold key_le in *. lia.
    + apply Z.leb_gt in E. constructor; [exact IH|].
      eapply Permutation_Forall.
      * apply Permutation_sym, insert_by_key_perm.
      * constructor; [unfold key_le; lia | exact Hall].
Qed.

Lemma sort_by_key_sorted (l : list A) : StronglySorted (key_le key) (sort_by_key key l).
Proof.
  induction l as [|x rest IH]; simpl.
  - constructor.
  - apply insert_by_key_sorted, IH.
Qed.

Lemma sort_by_key_length (l : list A) :
  List.length (sort_by_key key l) = List.length l.
Proof. apply Permutation_length, sort_by_key_perm. Qed.

End SortByKey.

(** Sorting commutes with a map that keeps the keys. *)
Lemma sort_by_key_map {A B : Type} (kA : A -> Z) (kB : B -> Z) (f : A -> B) :
  (forall a, kB (f a) = kA a) ->
  forall l, sort_by_key kB (map f l) = map f (sort_by_key kA l).
Proof.
  intros Hk. induction l as [|x rest IH]; simpl; [reflexivity|].
  rewrite IH. generalize (sort_by_key kA rest) as s.
  induction s as [|y s IHs]; simpl; [reflexivity|].
  rewrite !Hk. destruct (kA x <=? kA y); simpl; [reflexivity|].
  now rewrite IHs.
Qed.

(** ** Base payment *)

Lemma Exists_Qmax_cons (a m : Q) (l : list Q) :
  Exists (fun x => (x == m)%Q) l ->
  Exists (fun x => (x == Qmax a m)%Q) (a :: l).
Proof.
  intros H. destruct (Q.max_spec a m) as [[_ Hm]|[_ Hm]].
  - apply Exists_cons_tl. eapply Exists_impl; [|exact H].
    intros x Hx. simpl in Hx. rewrite Hx. symmetry. exact Hm.
  - apply Exists_cons_hd. symmetry. exact Hm.
Qed.

Lemma Qmax_candidates (a b c d e : Q) :
  let m := Qmax a (Qmax b (Qmax c (Qmax d e))) in
  Forall (fun x => (x <= m)%Q) [a; b; c; d; e]
  /\ Exists (fun x => (x == m)%Q) [a; b; c; d; e].
Proof.
  intros m. subst m. split.
  - repeat constructor;
      repeat first [ apply Q.le_max_l
                   | apply Qle_refl
                   | (eapply Qle_trans; [|apply Q.le_max_r]) ].
  - do 4 apply Exists_Qmax_cons. apply Exists_cons_hd. reflexivity.
Qed.

(** C6. With a resolved model, [periodicBasePayment] is
    [(base + cumulative_increase_amount) * cumulative_escalation_rate], where
    [base] is the maximum of the five candidate payments (it bounds each of
    them and is one of them), missing numbers read as zero, and missing
    operational details as a capacity of zero.  With only
    [payment_per_acre = 10] set and 50 controlled acres the base is 500. *)
Theorem periodicBasePayment_is_escalated_maximum :
  (forall (model : TermModel.t) (op_details : OpDetails) (rate inc : Q)
          (agreement_acres : option Q),
      exists base : Q,
        (periodicBasePayment (Some model) (Some op_details) rate inc agreement_acres
         == (base + inc) * rate)%Q
        /\ Forall (fun c => (c <= base)%Q) (base_candidates model op_details agreement_acres)
        /\ Exists (fun c => (c == base)%Q) (base_candidates model op_details agreement_acres))
  /\ (forall (model : TermModel.t) (rate inc : Q) (agreement_acres : option Q),
        periodicBasePayment (Some model) None rate inc agreement_acres
        = periodicBasePayment (Some model) (Some default_op_details) rate inc
                              agreement_acres)
  /\ (forall (op_details : option OpDetails) (rate inc : Q),
        (periodicBasePayment (Some per_acre_model) op_details rate inc (Some 50%Q)
         == (500 + inc) * rate)%Q)
  /\ (periodicBasePayment (Some per_acre_model) (Some no_op_details) 1 0 (Some 50%Q)
       == 500)%Q.
Proof.
  split; [|split; [|split]].
  - intros model op_details rate inc agreement_acres.
    eexists. split; [unfold periodicBasePayment; reflexivity|].
    apply Qmax_candidates.
  - reflexivity.
  - intros [op_details|] rate inc; unfold periodicBasePayment.
    + assert (H : (Qmax (JS.nullish (TermModel.minimum_payment per_acre_model) 0)
          (Qmax (JS.nullish (TermModel.payment_per_mw per_acre_model) 0
                 * JS.nullish (mw op_details) 0)
          (Qmax (JS.nullish (inverter_count op_details) 0
                 * JS.nullish (inverter_rating_mvas op_details) 0
                 * JS.nullish (TermModel.payment_per_mva per_acre_model) 0)
          (Qmax (JS.nullish (TermModel.flat_payment_amount per_acre_model) 0)
                (JS.nullish (TermModel.payment_per_acre per_acre_model) 0
                 * JS.nullish (Some 50) 0)))) == 500)%Q).
      { simpl. rewrite Qmult_0_l, Qmult_0_r.
        repeat (rewrite Q.max_r; [|discriminate || (vm_compute; discriminate)]).
        reflexivity. }
      rewrite H. reflexivity.
    + vm_compute Qmax. simpl. apply Qmult_comp; [|reflexivity].
      apply Qplus_comp; reflexivity.
  - vm_compute. reflexivity.
Qed.

(** ** Payment model resolution *)

Lemma strict_eq_str_Some (a : option string) (name : string) :
  JS.strict_eq_str a (Some name) = true <-> a = Some name.
Proof.
  destruct a as [x|]; simpl.
  - rewrite String.eqb_eq. split; congruence.
  - split; discriminate.
Qed.






(** ** Period calendar *)

Lemma freq_is_true (name : string) (frequency : option string) :
  freq_is name frequency = true <-> frequency = Some name.
Proof. apply strict_eq_str_Some. Qed.

Lemma natural_period_end_defined (start_date : DateTime) (frequency : option string)
      (prorated : bool) (term_end : DateTime) :
  period_end_defined frequency prorated <->
  exists natural, natural_period_end start_date frequency prorated term_end = Some natural.
Proof.
  unfold period_end_defined, natural_period_end.
  destruct prorated;
    repeat match goal with
           | |- context [freq_is ?n frequency] =>
               let E := fresh "E" in
               destruct (freq_is n frequency) eqn:E;
               [apply freq_is_true in E; subst frequency
               |assert (frequency <> Some n)
                 by (intros Hc; apply freq_is_true in Hc; congruence); clear E]
           end;
    split; intros Hgoal;
    try (eexists; reflexivity);
    try (destruct Hgoal as [? Hgoal]; discriminate Hgoal);
    try (clear Hgoal; auto 8; fail);
    repeat (destruct Hgoal as [Hgoal|Hgoal]; try contradiction);
    contradiction.
Qed.

(** The day after the last day of a month is the first day of the next. *)
Lemma month_end_next (y m : Z) :
  1 <= m <= 12 ->
  days_from_civil y m (days_in_month y m) + 1 = month_start (12 * y + (m - 1) + 1).
Proof.
  intros Hm. rewrite (month_start_next y m Hm).
  assert (Hc : m = 1 \/ m = 2 \/ m = 3 \/ m = 4 \/ m = 5 \/ m = 6 \/ m = 7 \/ m = 8
               \/ m = 9 \/ m = 10 \/ m = 11 \/ m = 12) by lia.
  unfold days_in_month, is_leap, days_from_civil.
  destruct Hc as [Hc|[Hc|Hc]].
  - subst m; calc; cbn [orb andb negb]. Z.div_mod_to_equations; lia.
  - subst m; calc; cbn [orb andb negb].
    destruct (y mod 4 =? 0) eqn:E4; destruct (y mod 100 =? 0) eqn:E100;
      destruct (y mod 400 =? 0) eqn:E400; cbn [orb andb negb];
      rewrite ?Z.eqb_eq, ?Z.eqb_neq in *; Z.div_mod_to_equations; lia.
  - repeat (destruct Hc as [Hc|Hc];
            [subst m; calc; cbn [orb andb negb]; Z.div_mod_to_equations; lia|]).
    subst m; calc; cbn [orb andb negb]. Z.div_mod_to_equations; lia.
Qed.

(** Adding [n] months to a date leads into the month that lies [n] months
    after its own, or beyond its first day. *)
Lemma plus_months_from_month_start (t : DateTime) (n : Z) :
  month_start (12 * year t + (month t - 1) + n) * MS_PER_DAY <= plus_months t n.
Proof.
  unfold plus_months, year, month.
  pose proof (civil_from_days_spec (day_number t)) as Hspec.
  destruct (civil_from_days (day_number t)) as [[y m] d].
  destruct Hspec as (Hz & Hm & Hd & Hnext).
  set (k := m - 1 + n).
  set (d' := Z.min d (days_in_month (y + k / 12) (k mod 12 + 1))).
  assert (Hd' : 1 <= d').
  { subst d'. pose proof (days_in_month_positive (y + k / 12) (k mod 12 + 1)). lia. }
  assert (Hstart : days_from_civil (y + k / 12) (k mod 12 + 1) 1
                   = month_start (12 * y + (m - 1) + n)).
  { unfold month_start.
    replace ((12 * y + (m - 1) + n) / 12) with (y + k / 12)
      by (subst k; Z.div_mod_to_equations; lia).
    replace ((12 * y + (m - 1) + n) mod 12) with (k mod 12)
      by (subst k; Z.div_mod_to_equations; lia).
    reflexivity. }
  rewrite (days_from_civil_day _ _ d'), Hstart.
  assert (Hms : 0 <= ms_of_day t).
  { unfold ms_of_day, MS_PER_DAY. Z.div_mod_to_equations. lia. }
  unfold MS_PER_DAY in *. nia.
Qed.

Lemma month_in_range (t : DateTime) : 1 <= month t <= 12.
Proof.
  unfold month. pose proof (civil_from_days_spec (day_number t)) as Hspec.
  destruct (civil_from_days (day_number t)) as [[y m] d]. tauto.
Qed.

(** The last day of a month that begins less than [n] months after the
    month of [t] is not after the day before [t] plus [n] months. *)
Lemma month_end_before_plus_months (t : DateTime) (q n : Z) :
  1 <= q <= 12 -> month t <= q -> q - month t + 1 <= n ->
  local (year t) q (days_in_month (year t) q) <= plus_days (plus_months t n) (-1).
Proof.
  intros Hq Hm Hn. unfold local, plus_days.
  pose proof (month_end_next (year t) q Hq) as Hend.
  pose proof (month_start_mono (12 * year t + (q - 1) + 1) (n - (q - month t + 1))) as Hmono.
  replace (12 * year t + (q - 1) + 1 + (n - (q - month t + 1)))
    with (12 * year t + (month t - 1) + n) in Hmono by lia.
  pose proof (plus_months_from_month_start t n) as Hplus.
  unfold MS_PER_DAY in *. nia.
Qed.

Lemma Some_eq {A : Type} (a b : A) : Some a = Some b -> a = b.
Proof. intros H. congruence. Qed.

Lemma clamp_at_boundary (natural boundary term_end : DateTime) :
  boundary <= natural -> term_end <= boundary ->
  (if natural >=? term_end then Some term_end else Some natural) = Some term_end.
Proof.
  intros Hb Ht. destruct (natural >=? term_end) eqn:E; [reflexivity|lia].
Qed.

Lemma quarter_end_month_spec (m : Z) :
  1 <= m <= 12 ->
  1 <= quarter_end_month m <= 12 /\ m <= quarter_end_month m
  /\ quarter_end_month m - m + 1 <= 3.
Proof. intros Hm. unfold quarter_end_month. Z.div_mod_to_equations. lia. Qed.

(** The period end the calendar assigns is not before the natural end
    the specification names, and is that end under anniversary
    alignment and for pro-rated "Annually". *)
Lemma natural_period_end_claimed (start_date : DateTime) (frequency : option string)
      (prorated : bool) (term_end boundary : DateTime) :
  claimed_period_end start_date frequency prorated = Some boundary ->
  exists natural : DateTime,
    natural_period_end start_date frequency prorated term_end = Some natural
    /\ boundary <= natural
    /\ (prorated = false \/ frequency = Some "Annually"%string -> natural = boundary).
Proof.
  unfold claimed_period_end, natural_period_end. intros Hb.
  destruct prorated.
  - unfold calendar_boundary in Hb. cbv zeta in Hb.
    destruct (freq_is "Annually" frequency) eqn:Ea.
    { apply Some_eq in Hb; subst boundary. eexists. split; [reflexivity|].
      split; [apply Z.le_refl|]. intros _. reflexivity. }
    assert (Hna : frequency <> Some "Annually"%string).
    { intros Hc. apply freq_is_true in Hc. congruence. }
    destruct (freq_is "Quarterly" frequency).
    { apply Some_eq in Hb; subst boundary. eexists. split; [reflexivity|]. split.
      - destruct (quarter_end_month_spec (month start_date) (month_in_range start_date))
          as (Hq & Hm & Hn).
        apply month_end_before_plus_months; assumption.
      - intros [H | H]; [discriminate H | contradiction]. }
    destruct (freq_is "Monthly" frequency); [|discriminate Hb].
    apply Some_eq in Hb; subst boundary. eexists. split; [reflexivity|]. split.
    + apply month_end_before_plus_months;
        [apply month_in_range | apply Z.le_refl | lia].
    + intros [H | H]; [discriminate H | contradiction].
  - unfold anniversary_end in Hb.
    destruct (freq_is "Annually" frequency).
    { apply Some_eq in Hb; subst boundary. eexists. split; [reflexivity|].
      split; [apply Z.le_refl|]. intros _. reflexivity. }
    destruct (freq_is "Semiannually" frequency).
    { apply Some_eq in Hb; subst boundary. eexists. split; [reflexivity|].
      split; [apply Z.le_refl|]. intros _. reflexivity. }
    destruct (freq_is "Quarterly" frequency).
    { apply Some_eq in Hb; subst boundary. eexists. split; [reflexivity|].
      split; [apply Z.le_refl|]. intros _. reflexivity. }
    destruct (freq_is "Monthly" frequency); [|discriminate Hb].
    apply Some_eq in Hb; subst boundary. eexists. split; [reflexivity|].
    split; [apply Z.le_refl|]. intros _. reflexivity.
Qed.

(** C8. Whenever a date is returned it does not exceed the term end, and
    for every frequency and alignment for which the specification names a
    natural period end - the last day of the year, quarter or month of the
    start under pro-rated alignment, the start plus one unit less one day
    under anniversary alignment - a date is returned, and it is the term end
    whenever that natural end falls at or after the term end.  "Once per
    Term" under anniversary alignment returns the term end.  The pro-rated
    branch has no case for "Semiannually" and "Once per Term", which the
    anniversary branch does have: there no date is returned at all, for
    any start and any term end, so the term end is not returned however
    early it falls. *)
Theorem calcPaymentPeriodEnd_clamped
        (start_date : DateTime) (frequency : option string) (prorated : bool)
        (term_end : DateTime) :
  (forall d, calcPaymentPeriodEnd start_date frequency prorated term_end = Some d ->
             d <= term_end)
  /\ (forall boundary : DateTime,
         claimed_period_end start_date frequency prorated = Some boundary ->
         exists natural d : DateTime,
           natural_period_end start_date frequency prorated term_end = Some natural
           /\ boundary <= natural
           /\ (prorated = false \/ frequency = Some "Annually"%string ->
               natural = boundary)
           /\ calcPaymentPeriodEnd start_date frequency prorated term_end = Some d
           /\ d <= term_end
           /\ (term_end <= boundary -> d = term_end)
           /\ (natural < term_end -> d = natural))
  /\ (frequency = Some "Once per Term"%string ->
      calcPaymentPeriodEnd start_date frequency false term_end = Some term_end)
  /\ (frequency = Some "Semiannually"%string \/ frequency = Some "Once per Term"%string ->
      calcPaymentPeriodEnd start_date frequency true term_end = None
      /\ exists d : DateTime,
          calcPaymentPeriodEnd start_date frequency false term_end = Some d
          /\ d <= term_end)
  /\ (period_end_defined frequency prorated ->
      exists natural,
        natural_period_end start_date frequency prorated term_end = Some natural
        /\ (term_end <= natural ->
            calcPaymentPeriodEnd start_date frequency prorated term_end = Some term_end)
        /\ (natural < term_end ->
            calcPaymentPeriodEnd start_date frequency prorated term_end = Some natural))
  /\ (~ period_end_defined frequency prorated ->
      calcPaymentPeriodEnd start_date frequency prorated term_end = None)
  /\ calcPaymentPeriodEnd (local 2024 1 1) (Some "Semiannually"%string) true
                           (local 2024 3 31) = None
  /\ calcPaymentPeriodEnd (local 2024 1 1) (Some "Semiannually"%string) false
                           (local 2024 3 31) = Some (local 2024 3 31).
Proof.
  assert (Hle : forall d, calcPaymentPeriodEnd start_date frequency prorated term_end
                          = Some d -> d <= term_end).
  { intros d. unfold calcPaymentPeriodEnd.
    destruct (natural_period_end start_date frequency prorated term_end) as [n|];
      [|discriminate].
    destruct (n >=? term_end) eqn:E; intros H; apply Some_eq in H; subst d; lia. }
  split; [exact Hle|].
  split; [|split; [|split; [|split; [|split; [|split]]]]].
  - intros boundary Hb.
    destruct (natural_period_end_claimed start_date frequency prorated term_end boundary Hb)
      as (natural & Hn & Hbn & Hsame).
    exists natural, (if natural >=? term_end then term_end else natural).
    split; [exact Hn|]. split; [exact Hbn|]. split; [exact Hsame|].
    split; [unfold calcPaymentPeriodEnd; rewrite Hn;
            destruct (natural >=? term_end); reflexivity|].
    destruct (natural >=? term_end) eqn:E; repeat split; intros; lia.
  - intros ->. unfold calcPaymentPeriodEnd, natural_period_end.
    cbn [freq_is JS.strict_eq_str String.eqb Ascii.eqb Bool.eqb].
    destruct (term_end >=? term_end); reflexivity.
  - intros Hf. split.
    + destruct Hf as [-> | ->]; reflexivity.
    + destruct Hf as [-> | ->].
      * unfold calcPaymentPeriodEnd, natural_period_end.
        cbn [freq_is JS.strict_eq_str String.eqb Ascii.eqb Bool.eqb].
        destruct (_ >=? term_end) eqn:E; eexists; (split; [reflexivity | lia]).
      * exists term_end. split; [|lia].
        unfold calcPaymentPeriodEnd, natural_period_end.
        cbn [freq_is JS.strict_eq_str String.eqb Ascii.eqb Bool.eqb].
        destruct (term_end >=? term_end) eqn:E; [reflexivity|lia].
  - intros Hdef.
    apply (natural_period_end_defined start_date frequency prorated term_end) in Hdef.
    destruct Hdef as [natural Hn]. exists natural. unfold calcPaymentPeriodEnd.
    rewrite Hn. split; [reflexivity|]. split; intros H.
    + destruct (natural >=? term_end) eqn:E; [reflexivity|lia].
    + destruct (natural >=? term_end) eqn:E; [lia|reflexivity].
  - intros Hndef. unfold calcPaymentPeriodEnd.
    destruct (natural_period_end start_date frequency prorated term_end) as [n|] eqn:Hn;
      [|reflexivity].
    exfalso. apply Hndef.
    apply (natural_period_end_defined start_date frequency prorated term_end).
    exists n. exact Hn.
  - vm_compute. reflexivity.
  - vm_compute. reflexivity.
Qed.

Lemma calcPaymentPeriodEnd_clamped_witness :
  calcPaymentPeriodEnd (local 2024 1 1) (Some "Quarterly"%string) true (local 2024 2 15)
  = Some (local 2024 2 15)
  /\ calcPaymentPeriodEnd (local 2024 2 15) (Some "Quarterly"%string) true (local 2024 3 31)
     = Some (local 2024 3 31)
  /\ calcPaymentPeriodEnd (local 2024 1 1) (Some "Semiannually"%string) true
                           (local 2024 3 31) = None.
Proof.
  split; [|split].
  - destruct (proj1 (proj2 (calcPaymentPeriodEnd_clamped
                (local 2024 1 1) (Some "Quarterly"%string) true (local 2024 2 15)))
                (local 2024 3 31))
      as (natural & d & _ & _ & _ & Hd & _ & Hclamp & _).
    + vm_compute. reflexivity.
    + rewrite Hd. f_equal. apply Hclamp. vm_compute. discriminate.
  - destruct (proj1 (proj2 (calcPaymentPeriodEnd_clamped
                (local 2024 2 15) (Some "Quarterly"%string) true (local 2024 3 31)))
                (local 2024 3 31))
      as (natural & d & _ & _ & _ & Hd & _ & Hclamp & _).
    + vm_compute. reflexivity.
    + rewrite Hd. f_equal. apply Hclamp. vm_compute. discriminate.
  - apply (proj1 (proj2 (proj2 (proj2 (calcPaymentPeriodEnd_clamped
                (local 2024 1 1) (Some "Semiannually"%string) true (local 2024 3 31)))))).
    left. reflexivity.
Defined.

(** ** Purchase price settlement *)

Lemma fold_amounts_from (l : list Event.t) (a : Q) :
  (fold_left (fun a b => a + Event.payment_amount b) l a == a + sum_amounts l)%Q.
Proof.
  unfold sum_amounts. revert a.
  induction l as [|e rest IH]; intros a; simpl.
  - ring.
  - rewrite (IH (a + Event.payment_amount e)%Q), (IH (0 + Event.payment_amount e)%Q). ring.
Qed.

Lemma sum_amounts_cons (e : Event.t) (l : list Event.t) :
  (sum_amounts (e :: l) == Event.payment_amount e + sum_amounts l)%Q.
Proof.
  unfold sum_amounts at 1. simpl. rewrite fold_amounts_from. ring.
Qed.

Lemma sum_amounts_app (l1 l2 : list Event.t) :
  (sum_amounts (l1 ++ l2) == sum_amounts l1 + sum_amounts l2)%Q.
Proof.
  induction l1 as [|e rest IH]; simpl.
  - unfold sum_amounts at 2. simpl. ring.
  - rewrite !sum_amounts_cons, IH. ring.
Qed.

(** The amount already paid is the sum over every prior event, of a term
    or date based, that is flagged [applicable_to_purchase]. *)
Lemma previous_applicable_payments_sum (this : Doc.t) :
  (previous_applicable_payments this
   == sum_amounts (filter Event.applicable_to_purchase (prior_events this)))%Q.
Proof.
  unfold previous_applicable_payments, prior_events.
  rewrite filter_app, sum_amounts_app.
  apply Qplus_comp; [|reflexivity].
  assert (H : forall terms acc,
             (fold_left
                (fun acc term =>
                   match Term.periodic_payments term with
                   | Some payments =>
                       acc + sum_amounts (filter Event.applicable_to_purchase payments)
                   | None => acc
                   end) terms acc
              == acc + sum_amounts
                         (filter Event.applicable_to_purchase
                            (flat_map (fun term => JS.nullish (Term.periodic_payments term) [])
                                      terms)))%Q).
  { induction terms as [|t rest IH]; intros acc; simpl.
    - unfold sum_amounts. simpl. ring.
    - rewrite IH, filter_app, sum_amounts_app.
      destruct (Term.periodic_payments t) as [payments|]; simpl.
      + ring.
      + unfold sum_amounts at 2. simpl. ring. }
  rewrite H. ring.
Qed.

Lemma split_share_default_single (g : Grantor) :
  payment_split g = None -> (split_share [g] g == 1)%Q.
Proof. intros H. unfold split_share. rewrite H. reflexivity. Qed.

Lemma split_share_percentage (grantor : list Grantor) (g : Grantor) (percent : Q) :
  payment_split g = Some percent -> (split_share grantor g == percent / 100)%Q.
Proof. intros H. unfold split_share. rewrite H. reflexivity. Qed.

Lemma split_share_equal_part (grantor : list Grantor) (g : Grantor) :
  payment_split g = None ->
  (split_share grantor g == 1 / inject_Z (Z.of_nat (List.length grantor)))%Q.
Proof.
  intros H. unfold split_share, count. rewrite H. cbn [JS.nullish].
  unfold Qdiv. setoid_replace (/ 100)%Q with (1 # 100)%Q by reflexivity. ring.
Qed.

(** C5. The settlement adds events to [date_payments] only when a non-zero
    purchase price and a purchase or estimated closing date exist and no
    termination date is set; it then adds exactly one event per grantor,
    dated at the purchase date (the estimated closing date when there is
    none), of amount (price - prior applicable payments) * grantor split,
    the split being the percentage of the grantor over 100, or one part in
    as many as there are grantors for a grantor without a percentage; the
    event is applicable to the purchase and not refundable.  A price of
    100000 with 20000 already paid and one grantor without a split gives
    80000. *)
Theorem calcEstimatedPurchasePrice_settlement (this : Doc.t) :
  calcEstimatedPurchasePrice this = Doc.date_payments this ++ settlement_events this
  /\ (previous_applicable_payments this
      == sum_amounts (filter Event.applicable_to_purchase (prior_events this)))%Q
  /\ (settlement_events this <> [] ->
      JS.truthy_num (Doc.full_purchase_price this) = true
      /\ (Doc.date_purchased this <> None \/ Doc.estimated_closing_date this <> None)
      /\ termination_date (Doc.termination this) = None)
  /\ (forall (price : Q) (closing : DateTime),
        Doc.full_purchase_price this = Some price -> ~ (price == 0)%Q ->
        (Doc.date_purchased this = Some closing
         \/ (Doc.date_purchased this = None
             /\ Doc.estimated_closing_date this = Some closing)) ->
        termination_date (Doc.termination this) = None ->
        Forall2 (is_settlement_event this price closing)
                (Doc.grantor this) (settlement_events this)
        /\ (forall g : Grantor,
              Doc.grantor this = [g] -> payment_split g = None ->
              (price == 100000)%Q -> (previous_applicable_payments this == 20000)%Q ->
              exists e : Event.t,
                settlement_events this = [e]
                /\ (Event.payment_amount e == 80000)%Q
                /\ Event.applicable_to_purchase e = true)).
Proof.
  split; [|split; [|split]].
  - unfold calcEstimatedPurchasePrice, settlement_events, settlement_due.
    destruct (JS.truthy_num (Doc.full_purchase_price this)) eqn:Ep; simpl.
    + destruct (Doc.estimated_closing_date this), (Doc.date_purchased this);
        simpl; try reflexivity.
      now rewrite app_nil_r.
    + rewrite !andb_false_r.
      destruct (JS.nullish_opt _ _), (Doc.full_purchase_price this);
        now rewrite app_nil_r.
  - apply previous_applicable_payments_sum.
  - unfold settlement_events, settlement_due. intros Hne.
    destruct (JS.nullish_opt (Doc.date_purchased this) (Doc.estimated_closing_date this))
      as [closing|] eqn:Ec; [|congruence].
    destruct (Doc.full_purchase_price this) as [price|] eqn:Ep; [|congruence].
    simpl in Hne.
    destruct (negb (Qeq_bool price 0)) eqn:Et; simpl in Hne; [|congruence].
    destruct (termination_date (Doc.termination this)) eqn:Ed; simpl in Hne;
      [congruence|].
    split; [exact Et|]. split; [|reflexivity].
    destruct (Doc.date_purchased this); [left; discriminate|].
    right. simpl in Ec. congruence.
  - intros price closing Hp Hnz Hc Ht.
    assert (Hclosing : JS.nullish_opt (Doc.date_purchased this)
                                      (Doc.estimated_closing_date this) = Some closing).
    { destruct Hc as [-> | [-> ->]]; reflexivity. }
    assert (Hev : settlement_events this
                  = map (fun g =>
               {| Event.payment_source := "Purchase Price Calculation";
                  Event.model_id := None;
                  Event.project_id := None;
                  Event.payment_index := None;
                  Event.payment_date := closing;
                  Event.late_payment_date := None;
                  Event.payment_type := Some "Purchase Price"%string;
                  Event.payment_amount :=
                    ((price - previous_applicable_payments this)
                     * split_share (Doc.grantor this) g)%Q;
                  Event.payee := nicknameGrantor (grantor_lessor_name g);
                  Event.payment_period_start := None;
                  Event.payment_period_end := None;
                  Event.prorata_factor := None;
                  Event.applicable_to_purchase := true;
                  Event.refundable := false;
                  Event.after_outside_date := false;
                  Event.previous_periods := None |}) (Doc.grantor this)).
    { unfold settlement_events, settlement_due. rewrite Hclosing, Hp, Ht. simpl.
      destruct (Qeq_bool price 0) eqn:E; [|reflexivity].
      apply Qeq_bool_iff in E. contradiction. }
    rewrite Hev. split.
    + generalize (Doc.grantor this) at 1 3 as l.
      induction l as [|g rest IH]; simpl; constructor; [|exact IH].
      unfold is_settlement_event.
      cbn [Event.payment_source Event.payment_date Event.payment_amount
           Event.applicable_to_purchase Event.refundable].
      split; [reflexivity|]. split; [reflexivity|]. split; [|split; reflexivity].
      destruct (payment_split g) as [percent|] eqn:Es.
      * rewrite (split_share_percentage _ g percent Es). reflexivity.
      * rewrite (split_share_equal_part _ g Es). reflexivity.
    + intros g Hg Hs Hprice Hprev. rewrite Hg. simpl. eexists. split; [reflexivity|].
      simpl. split; [|reflexivity].
      rewrite Hprice, Hprev, (split_share_default_single g Hs). reflexivity.
Qed.

Lemma calcEstimatedPurchasePrice_settlement_witness :
  (exists e : Event.t,
      calcEstimatedPurchasePrice purchase_doc = Doc.date_payments purchase_doc ++ [e]
      /\ (Event.payment_amount e == 80000)%Q
      /\ Event.applicable_to_purchase e = true)
  /\ (exists e1 e2 : Event.t,
         calcEstimatedPurchasePrice shared_purchase_doc
         = Doc.date_payments shared_purchase_doc ++ [e1; e2]
         /\ (Event.payment_amount e1 == 48000)%Q
         /\ (Event.payment_amount e2 == 40000)%Q).
Proof.
  split.
  - destruct (calcEstimatedPurchasePrice_settlement purchase_doc) as (Hcalc & _ & _ & H).
    destruct (H 100000%Q (local 2025 6 30)) as [_ Hone].
    + reflexivity.
    + discriminate.
    + right. split; reflexivity.
    + reflexivity.
    + destruct (Hone smith) as (e & He & Hamount & Hflag).
      * reflexivity.
      * reflexivity.
      * reflexivity.
      * vm_compute. reflexivity.
      * exists e. rewrite Hcalc, He. auto.
  - destruct (calcEstimatedPurchasePrice_settlement shared_purchase_doc)
      as (Hcalc & _ & _ & H).
    destruct (H 100000%Q (local 2025 6 30)) as [Hall _].
    + reflexivity.
    + discriminate.
    + right. split; reflexivity.
    + reflexivity.
    + change (Doc.grantor shared_purchase_doc) with sixty_and_rest in Hall.
      unfold sixty_and_rest in Hall.
      remember (settlement_events shared_purchase_doc) as evs eqn:Hevs.
      destruct evs as [|e1 evs]; [inversion Hall|].
      apply Forall2_cons_iff in Hall. destruct Hall as [H1 Hall].
      destruct evs as [|e2 evs]; [inversion Hall|].
      apply Forall2_cons_iff in Hall. destruct Hall as [H2 Hall].
      destruct evs as [|e3 evs]; [|inversion Hall].
      exists e1, e2. split; [exact Hcalc|].
      destruct H1 as (_ & _ & Ha1 & _). destruct H2 as (_ & _ & Ha2 & _).
      cbn [payment_split] in Ha1, Ha2.
      split.
      * rewrite Ha1. vm_compute. reflexivity.
      * rewrite Ha2. vm_compute. reflexivity.
Defined.

(** ** Term date resolver *)

Section TermDateProperties.

Variable plus_duration_years : DateTime -> Q -> DateTime.
Variable effectiveDate : option DateTime.
Variable opDetails : OpDetails.
Variable termination : Termination.

Let resolve_term' := resolve_term plus_duration_years opDetails termination.
Let resolve_terms' := resolve_terms plus_duration_years opDetails termination.

Lemma resolve_term_start (all : list Term.t) (fs : DateTime) (pe : option DateTime)
      (term : Term.t) :
  Term.start_date (resolve_term' all fs pe term) = Some (term_start opDetails fs pe term).
Proof.
  unfold resolve_term', resolve_term.
  destruct (ops_override _ _ _ _) as [e c]. reflexivity.
Qed.

Lemma resolve_term_end (all : list Term.t) (fs : DateTime) (pe : option DateTime)
      (term : Term.t) :
  exists e, Term.end_date (resolve_term' all fs pe term) = Some e.
Proof.
  unfold resolve_term', resolve_term.
  destruct (ops_override _ _ _ _) as [e c]. exists e. reflexivity.
Qed.

Lemma resolve_term_facts (all : list Term.t) (fs : DateTime) (pe : option DateTime)
      (term : Term.t) :
  same_facts term (resolve_term' all fs pe term).
Proof.
  unfold resolve_term', resolve_term.
  destruct (ops_override _ _ _ _) as [e c]. repeat split.
Qed.

Lemma resolve_term_cumulative (all : list Term.t) (fs : DateTime) (pe : option DateTime)
      (term : Term.t) :
  Term.cumulative_increase_amount (resolve_term' all fs pe term)
  = Some (calc_cumulative_increase_amount all term)
  /\ Term.cumulative_escalation_rate (resolve_term' all fs pe term)
     = Some (calc_cumulative_escalation_rate all term).
Proof.
  unfold resolve_term', resolve_term.
  destruct (ops_override _ _ _ _) as [e c]. split; reflexivity.
Qed.

(** The element at index [i] of the resolved array is the callback applied
    to the element at index [i] of the sorted array, with the end date of
    the resolved element before it. *)
Lemma resolve_terms_nth (all : list Term.t) (fs : DateTime) :
  forall (todo : list Term.t) (pe : option DateTime) (i : nat) (term : Term.t),
    nth_error (resolve_terms' all fs pe todo) i = Some term ->
    exists src,
      nth_error todo i = Some src
      /\ term = resolve_term' all fs
                  (match i with
                   | O => pe
                   | S j => match nth_error (resolve_terms' all fs pe todo) j with
                            | Some prev => Term.end_date prev
                            | None => None
                            end
                   end) src.
Proof.
  induction todo as [|t rest IH]; intros pe i term H.
  - destruct i; discriminate H.
  - destruct i as [|i]; simpl in H.
    + injection H as <-. exists t. split; reflexivity.
    + apply IH in H. destruct H as (src & Hsrc & ->). exists src.
      split; [exact Hsrc|]. destruct i as [|i]; reflexivity.
Qed.

Lemma resolve_terms_facts (all : list Term.t) (fs : DateTime) :
  forall (todo : list Term.t) (pe : option DateTime),
    Forall2 same_facts todo (resolve_terms' all fs pe todo).
Proof.
  induction todo as [|t rest IH]; intros pe; simpl; constructor.
  - apply resolve_term_facts.
  - apply IH.
Qed.

Lemma milestone_override_none (term : Term.t) :
  milestone_override opDetails term = None <-> no_milestone opDetails term.
Proof.
  unfold milestone_override, no_milestone, is_type.
  destruct (JS.strict_eq_str (Term.term_type term) (Some "Construction"%string)) eqn:Ec;
    destruct (JS.strict_eq_str (Term.term_type term) (Some "Operations"%string)) eqn:Eo;
    try (apply strict_eq_str_Some in Ec); try (apply strict_eq_str_Some in Eo);
    try (assert (Term.term_type term <> Some "Construction"%string)
          by (intros Hc; apply strict_eq_str_Some in Hc; congruence));
    try (assert (Term.term_type term <> Some "Operations"%string)
          by (intros Hc; apply strict_eq_str_Some in Hc; congruence));
    destruct (Term.extension term);
    destruct (construction_commencement opDetails);
    destruct (operations_commencement opDetails);
    simpl; split; intros Hgoal;
    try reflexivity; try discriminate; try congruence;
    try (split; auto; right; auto; fail);
    try (split; [left; congruence | auto]; fail);
    try (split; [auto | left; congruence]; fail);
    try (destruct Hgoal as [[?|[?|?]] [?|[?|?]]]; congruence).
Qed.

Lemma milestone_override_some (term : Term.t) (d : DateTime) :
  milestone_override opDetails term = Some d ->
  (Term.term_type term = Some "Construction"%string /\ Term.extension term = false
   /\ construction_commencement opDetails = Some d)
  \/ (Term.term_type term = Some "Operations"%string /\ Term.extension term = false
      /\ operations_commencement opDetails = Some d).
Proof.
  unfold milestone_override, is_type.
  destruct (JS.strict_eq_str (Term.term_type term) (Some "Construction"%string)) eqn:Ec;
    destruct (JS.strict_eq_str (Term.term_type term) (Some "Operations"%string)) eqn:Eo;
    try (apply strict_eq_str_Some in Ec); try (apply strict_eq_str_Some in Eo);
    destruct (Term.extension term);
    destruct (construction_commencement opDetails);
    destruct (operations_commencement opDetails);
    simpl; intros Hd; try discriminate; auto.
Qed.

Lemma same_cohort_upto_spec (term x : Term.t) :
  same_cohort_upto term x = true <->
  Term.term_ordinal x <= Term.term_ordinal term
  /\ Term.payment_model x = Term.payment_model term.
Proof.
  unfold same_cohort_upto. rewrite andb_true_iff, Z.leb_le.
  unfold JS.strict_eq_str.
  destruct (Term.payment_model x) as [a|], (Term.payment_model term) as [b|];
    try rewrite String.eqb_eq; intuition congruence.
Qed.

Lemma same_cohort_upto_facts (a b : Term.t) :
  same_facts a b -> forall x, same_cohort_upto b x = same_cohort_upto a x.
Proof.
  intros (Ho & _ & _ & _ & Hm & _) x. unfold same_cohort_upto. now rewrite Ho, Hm.
Qed.

Lemma calc_cumulative_facts (all : list Term.t) (a b : Term.t) :
  same_facts a b ->
  calc_cumulative_increase_amount all b = calc_cumulative_increase_amount all a
  /\ calc_cumulative_escalation_rate all b = calc_cumulative_escalation_rate all a.
Proof.
  intros H. unfold calc_cumulative_increase_amount, calc_cumulative_escalation_rate.
  rewrite (filter_ext _ _ (same_cohort_upto_facts a b H)). split; reflexivity.
Qed.

Lemma StronglySorted_filter {A : Type} (R : A -> A -> Prop) (p : A -> bool) (l : list A) :
  StronglySorted R l -> StronglySorted R (filter p l).
Proof.
  induction 1 as [|x rest Hs IH Hall]; simpl; [constructor|].
  destruct (p x); [|exact IH].
  constructor; [exact IH|].
  apply Forall_forall. intros y Hy. apply filter_In in Hy.
  eapply Forall_forall in Hall; [exact Hall | apply Hy].
Qed.

Lemma Permutation_filter {A : Type} (p : A -> bool) (l l' : list A) :
  Permutation l l' -> Permutation (filter p l) (filter p l').
Proof.
  induction 1; simpl.
  - constructor.
  - destruct (p x); [apply perm_skip|]; assumption.
  - destruct (p x), (p y); try apply Permutation_refl. apply perm_swap.
  - eapply perm_trans; eassumption.
Qed.

Lemma Forall2_sorted_facts (l l' : list Term.t) :
  Forall2 same_facts l l' ->
  StronglySorted (key_le Term.term_ordinal) l ->
  StronglySorted (key_le Term.term_ordinal) l'.
Proof.
  induction 1 as [|a b l l' Hab Hl IH]; intros Hs; [constructor|].
  inversion Hs as [|? ? Hs' Hall]; subst. constructor; [apply IH, Hs'|].
  clear IH Hs Hs'. induction Hl as [|c d l l' Hcd Hl IH']; [constructor|].
  inversion Hall; subst. constructor; [|apply IH'; assumption].
  unfold key_le in *. destruct Hab as [<- _], Hcd as [<- _]. assumption.
Qed.

(** C1. With a commencement date to start from, the resolved terms are the
    terms of the agreement in the order of [term_ordinal], and the start date
    of each is: the construction (operations) commencement for a
    non-extension "Construction" ("Operations") term when that date is
    provided; otherwise the end date of the term before it plus one day, or,
    for the first term, the commencement date, else the effective date of
    the agreement. *)
Theorem calcAgreementTermDates_start_precedence
        (agreementTerms : list Term.t) (first_start : DateTime) :
  JS.or_obj (commencement_date opDetails) effectiveDate = Some first_start ->
  let resolved :=
    calcAgreementTermDates plus_duration_years effectiveDate opDetails termination
                           agreementTerms in
  Permutation (sort_by_ordinal agreementTerms) agreementTerms
  /\ Forall2 same_facts (sort_by_ordinal agreementTerms) resolved
  /\ StronglySorted (key_le Term.term_ordinal) resolved
  /\ forall (i : nat) (term : Term.t),
      nth_error resolved i = Some term ->
      exists start : DateTime,
        Term.start_date term = Some start
        /\ ((Term.term_type term = Some "Construction"%string
             /\ Term.extension term = false
             /\ construction_commencement opDetails = Some start)
            \/ (Term.term_type term = Some "Operations"%string
                /\ Term.extension term = false
                /\ operations_commencement opDetails = Some start)
            \/ (no_milestone opDetails term
                /\ match i with
                   | O => start = first_start
                   | S j => exists (prev : Term.t) (prev_end : DateTime),
                       nth_error resolved j = Some prev
                       /\ Term.end_date prev = Some prev_end
                       /\ start = plus_days prev_end 1
                   end)).
Proof.
  intros Hfs resolved. subst resolved. unfold calcAgreementTermDates. rewrite Hfs.
  split; [apply sort_by_key_perm|].
  split; [apply resolve_terms_facts|].
  split.
  { eapply Forall2_sorted_facts; [apply resolve_terms_facts|].
    apply sort_by_key_sorted. }
  intros i term Hnth.
  pose proof (resolve_terms_nth _ _ _ _ _ _ Hnth) as (src & Hsrc & Hterm).
  pose proof (resolve_term_facts (sort_by_ordinal agreementTerms) first_start
                (match i with
                 | O => None
                 | S j =>
                     match nth_error (resolve_terms' (sort_by_ordinal agreementTerms)
                                                     first_start None
                                                     (sort_by_ordinal agreementTerms)) j with
                     | Some prev => Term.end_date prev
                     | None => None
                     end
                 end) src) as Hfacts.
  rewrite <- Hterm in Hfacts. destruct Hfacts as (_ & Htype & Hext & _).
  exists (term_start opDetails first_start
            (match i with
             | O => None
             | S j =>
                 match nth_error (resolve_terms' (sort_by_ordinal agreementTerms)
                                                 first_start None
                                                 (sort_by_ordinal agreementTerms)) j with
                 | Some prev => Term.end_date prev
                 | None => None
                 end
             end) src).
  split; [rewrite Hterm; apply resolve_term_start|].
  unfold term_start.
  destruct (milestone_override opDetails src) as [d|] eqn:Hm.
  - apply milestone_override_some in Hm. rewrite <- Htype, <- Hext. tauto.
  - right. right. split.
    + apply milestone_override_none in Hm. unfold no_milestone in *.
      rewrite <- Htype, <- Hext. exact Hm.
    + destruct i as [|j]; [reflexivity|].
      destruct (nth_error (resolve_terms' (sort_by_ordinal agreementTerms) first_start None
                                          (sort_by_ordinal agreementTerms)) j)
        as [prev|] eqn:Hprev.
      * pose proof (resolve_terms_nth _ _ _ _ _ _ Hprev) as (psrc & _ & Hp).
        destruct (resolve_term_end (sort_by_ordinal agreementTerms) first_start
                    (match j with
                     | O => None
                     | S j0 =>
                         match nth_error (resolve_terms' (sort_by_ordinal agreementTerms)
                                            first_start None
                                            (sort_by_ordinal agreementTerms)) j0 with
                         | Some prev => Term.end_date prev
                         | None => None
                         end
                     end) psrc) as [e He].
        rewrite <- Hp in He. exists prev, e. rewrite He. auto.
      * exfalso. apply nth_error_None in Hprev.
        assert (Hlt : (S j < List.length
                              (resolve_terms' (sort_by_ordinal agreementTerms) first_start
                                              None (sort_by_ordinal agreementTerms)))%nat).
        { apply nth_error_Some. unfold resolve_terms'. rewrite Hnth. discriminate. }
        lia.
Qed.

Lemma resolve_terms_length (all : list Term.t) (fs : DateTime) :
  forall (todo : list Term.t) (pe : option DateTime),
    List.length (resolve_terms' all fs pe todo) = List.length todo.
Proof.
  induction todo as [|t rest IH]; intros pe; simpl; [reflexivity|].
  f_equal. apply IH.
Qed.

(** C7. With a commencement date to start from, the cumulative escalation
    rate of a resolved term is the product of [1 + escalation_rate / 100],
    and its cumulative increase amount the sum of [increase_amount], both
    folded from left to right over the cohort of the term: the terms of the
    agreement that have its [payment_model] and an ordinal not above its
    own, taken in the order of their ordinals, a missing rate or amount
    counting as zero. *)
Theorem calcAgreementTermDates_cumulative
        (agreementTerms : list Term.t) (first_start : DateTime) (term : Term.t) :
  JS.or_obj (commencement_date opDetails) effectiveDate = Some first_start ->
  In term (calcAgreementTermDates plus_duration_years effectiveDate opDetails termination
                                  agreementTerms) ->
  let cohort := filter (same_cohort_upto term) (sort_by_ordinal agreementTerms) in
  (forall x : Term.t,
      In x cohort <->
      In x agreementTerms
      /\ Term.term_ordinal x <= Term.term_ordinal term
      /\ Term.payment_model x = Term.payment_model term)
  /\ Permutation cohort (filter (same_cohort_upto term) agreementTerms)
  /\ StronglySorted (key_le Term.term_ordinal) cohort
  /\ Term.cumulative_escalation_rate term
     = Some (fold_left
               (fun acc t => (acc * (1 + JS.nullish (Term.escalation_rate t) 0 / 100))%Q)
               cohort 1%Q)
  /\ Term.cumulative_increase_amount term
     = Some (fold_left
               (fun acc t => (acc + JS.nullish (Term.increase_amount t) 0)%Q)
               cohort 0%Q).
Proof.
  intros Hfs Hin cohort. subst cohort.
  unfold calcAgreementTermDates in Hin. rewrite Hfs in Hin.
  split; [|split; [|split]].
  - intros x. rewrite filter_In, same_cohort_upto_spec. split.
    + intros [Hx H]. split; [|exact H].
      eapply Permutation_in; [apply sort_by_key_perm | exact Hx].
    + intros [Hx H]. split; [|exact H].
      eapply Permutation_in; [apply Permutation_sym, sort_by_key_perm | exact Hx].
  - apply Permutation_filter, sort_by_key_perm.
  - apply StronglySorted_filter, sort_by_key_sorted.
  - apply In_nth_error in Hin. destruct Hin as [i Hi].
    pose proof (resolve_terms_nth _ _ _ _ _ _ Hi) as (src & _ & Hterm).
    match type of Hterm with
    | _ = resolve_term' ?all ?fs ?pe ?src =>
        pose proof (resolve_term_cumulative all fs pe src) as [Hinc Hrate];
        pose proof (resolve_term_facts all fs pe src) as Hfacts
    end.
    rewrite <- Hterm in Hinc, Hrate, Hfacts.
    pose proof (calc_cumulative_facts (sort_by_ordinal agreementTerms) src term Hfacts)
      as [Hi' Hr'].
    rewrite Hrate, Hinc, <- Hi', <- Hr'. split; reflexivity.
Qed.

(** With an effective date or a commencement date every term is given a
    start and an end date. *)
Lemma calcAgreementTermDates_dated (agreementTerms : list Term.t) :
  JS.or_obj (commencement_date opDetails) effectiveDate <> None ->
  let resolved :=
    calcAgreementTermDates plus_duration_years effectiveDate opDetails termination
                           agreementTerms in
  List.length resolved = List.length agreementTerms
  /\ Forall (fun t => Term.start_date t <> None /\ Term.end_date t <> None) resolved.
Proof.
  intros Hsome resolved. subst resolved. unfold calcAgreementTermDates.
  destruct (JS.or_obj (commencement_date opDetails) effectiveDate) as [fs|];
    [|congruence].
  split.
  - fold resolve_terms'. rewrite resolve_terms_length. apply sort_by_key_length.
  - apply Forall_forall. intros t Ht. apply In_nth_error in Ht. destruct Ht as [i Hi].
    pose proof (resolve_terms_nth _ _ _ _ _ _ Hi) as (src & _ & ->).
    rewrite resolve_term_start.
    match goal with
    | |- _ /\ Term.end_date (resolve_term' ?all ?fs ?pe ?src) <> None =>
        destruct (resolve_term_end all fs pe src) as [e ->]
    end.
    split; discriminate.
Qed.

(** A term whose start no operational milestone overrides starts on the
    first start date when it is the first of the sorted terms, and on the
    day after the end of the term before it otherwise. *)
Lemma calcAgreementTermDates_follows (agreementTerms : list Term.t)
      (first_start : DateTime) (i : nat) (term : Term.t) :
  JS.or_obj (commencement_date opDetails) effectiveDate = Some first_start ->
  let resolved :=
    calcAgreementTermDates plus_duration_years effectiveDate opDetails termination
                           agreementTerms in
  nth_error resolved i = Some term ->
  no_milestone opDetails term ->
  match i with
  | O => Term.start_date term = Some first_start
  | S j => exists (prev : Term.t) (prev_end : DateTime),
      nth_error resolved j = Some prev
      /\ Term.end_date prev = Some prev_end
      /\ Term.start_date term = Some (plus_days prev_end 1)
  end.
Proof.
  intros Hfs resolved. subst resolved. unfold calcAgreementTermDates. rewrite Hfs.
  intros Hnth Hno.
  pose proof (resolve_terms_nth _ _ _ _ _ _ Hnth) as (src & _ & Hterm).
  match type of Hterm with
  | _ = resolve_term' ?all ?fs ?pe ?src =>
      pose proof (resolve_term_facts all fs pe src) as Hfacts
  end.
  rewrite <- Hterm in Hfacts. destruct Hfacts as (_ & Htype & Hext & _).
  assert (Hm : milestone_override opDetails src = None).
  { apply milestone_override_none. unfold no_milestone in *.
    rewrite Htype, Hext. exact Hno. }
  destruct i as [|j].
  - rewrite Hterm, resolve_term_start. unfold term_start. rewrite Hm. reflexivity.
  - destruct (nth_error (resolve_terms' (sort_by_ordinal agreementTerms) first_start None
                                        (sort_by_ordinal agreementTerms)) j)
      as [prev|] eqn:Hprev.
    + pose proof (resolve_terms_nth _ _ _ _ _ _ Hprev) as (psrc & _ & Hp).
      match type of Hp with
      | _ = resolve_term' ?all ?fs ?pe ?src =>
          destruct (resolve_term_end all fs pe src) as [e He]
      end.
      rewrite <- Hp in He. exists prev, e.
      split; [exact Hprev|]. split; [exact He|].
      rewrite Hterm, resolve_term_start. unfold term_start. rewrite Hm, He. reflexivity.
    + exfalso. apply nth_error_None in Hprev.
      assert (Hlt : (S j < List.length
                            (resolve_terms' (sort_by_ordinal agreementTerms) first_start
                                            None (sort_by_ordinal agreementTerms)))%nat).
      { apply nth_error_Some. unfold resolve_terms'. rewrite Hnth. discriminate. }
      lia.
Qed.

End TermDateProperties.

Example lease_ordinals : map Term.term_ordinal lease_resolved = [1; 2; 3].
Proof. vm_compute. reflexivity. Qed.

Example lease_start_dates :
  map Term.start_date lease_resolved
  = [Some (local 2023 1 1); Some (local 2024 7 2); Some (local 2026 1 1)].
Proof. vm_compute. reflexivity. Qed.

Example lease_end_dates :
  map Term.end_date lease_resolved
  = [Some (local 2024 7 1); Some (local 2025 7 1); Some (local 2050 12 31)].
Proof. vm_compute. reflexivity. Qed.

Example lease_commenced_start_dates :
  map Term.start_date lease_commenced
  = [Some (local 2023 3 1); Some (local 2024 8 31); Some (local 2025 8 31)].
Proof. vm_compute. reflexivity. Qed.

Example lease_operations_cumulative :
  match Term.cumulative_escalation_rate lease_operations_resolved,
        Term.cumulative_increase_amount lease_operations_resolved with
  | Some rate, Some amount => (rate == 231 # 200)%Q /\ (amount == 150)%Q
  | _, _ => False
  end.
Proof. vm_compute. split; reflexivity. Qed.

Lemma calcAgreementTermDates_start_precedence_witness :
  JS.or_obj (commencement_date lease_op_details) (Some (local 2023 1 1))
  = Some (local 2023 1 1)
  /\ StronglySorted (key_le Term.term_ordinal) lease_resolved
  /\ forall (i : nat) (term : Term.t),
      nth_error lease_resolved i = Some term ->
      exists start : DateTime,
        Term.start_date term = Some start
        /\ ((Term.term_type term = Some "Construction"%string
             /\ Term.extension term = false
             /\ construction_commencement lease_op_details = Some start)
            \/ (Term.term_type term = Some "Operations"%string
                /\ Term.extension term = false
                /\ operations_commencement lease_op_details = Some start)
            \/ (no_milestone lease_op_details term
                /\ match i with
                   | O => start = local 2023 1 1
                   | S j => exists (prev : Term.t) (prev_end : DateTime),
                       nth_error lease_resolved j = Some prev
                       /\ Term.end_date prev = Some prev_end
                       /\ start = plus_days prev_end 1
                   end)).
Proof.
  split; [reflexivity|].
  destruct (calcAgreementTermDates_start_precedence
              plus_whole_years_and_days (Some (local 2023 1 1)) lease_op_details
              no_termination lease_terms (local 2023 1 1) eq_refl)
    as (_ & _ & Hsorted & Hstart).
  split; [exact Hsorted | exact Hstart].
Defined.

Lemma calcAgreementTermDates_cumulative_witness :
  In lease_operations_resolved lease_resolved
  /\ Term.cumulative_escalation_rate lease_operations_resolved
     = Some (fold_left
               (fun acc t => (acc * (1 + JS.nullish (Term.escalation_rate t) 0 / 100))%Q)
               (filter (same_cohort_upto lease_operations_resolved)
                       (sort_by_ordinal lease_terms)) 1%Q)
  /\ Term.cumulative_increase_amount lease_operations_resolved
     = Some (fold_left
               (fun acc t => (acc + JS.nullish (Term.increase_amount t) 0)%Q)
               (filter (same_cohort_upto lease_operations_resolved)
                       (sort_by_ordinal lease_terms)) 0%Q).
Proof.
  assert (Hin : In lease_operations_resolved lease_resolved).
  { apply nth_In. vm_compute. lia. }
  split; [exact Hin|].
  destruct (calcAgreementTermDates_cumulative
              plus_whole_years_and_days (Some (local 2023 1 1)) lease_op_details
              no_termination lease_terms (local 2023 1 1) lease_operations_resolved
              eq_refl Hin)
    as (_ & _ & _ & Hrate & Hamount).
  split; [exact Hrate | exact Hamount].
Defined.

(** C10 (as amended). Called on operational details without a commencement
    date and without an effective date, the resolver leaves the terms as
    they are; with an effective date, or with operational details that
    carry a commencement date, every term is given a start and an end date.
    When only the commencement date is there, a term whose start no
    operational milestone overrides starts on that date if it is the first
    term in the order of the ordinals, and on the day after the end of the
    term before it otherwise, also where every term before it is
    overridden.  A call without operational details and without an
    effective date stops at the guard, which reads a property of the
    missing object. *)
Theorem calcAgreementTermDates_noop_without_dates
        (plus_duration_years : DateTime -> Q -> DateTime)
        (effectiveDate : option DateTime) (opDetails : option OpDetails)
        (termination : option Termination) (agreementTerms : list Term.t) :
  let called :=
    calcAgreementTermDates_call plus_duration_years effectiveDate opDetails termination
                                agreementTerms in
  (forall details : OpDetails,
      opDetails = Some details -> commencement_date details = None ->
      effectiveDate = None ->
      called = Some agreementTerms)
  /\ (effectiveDate <> None
      \/ (exists details : OpDetails,
             opDetails = Some details /\ commencement_date details <> None) ->
      exists resolved : list Term.t,
        called = Some resolved
        /\ List.length resolved = List.length agreementTerms
        /\ Forall (fun t => Term.start_date t <> None /\ Term.end_date t <> None)
                  resolved)
  /\ (forall (details : OpDetails) (c : DateTime),
        effectiveDate = None -> opDetails = Some details ->
        commencement_date details = Some c ->
        exists resolved : list Term.t,
          called = Some resolved
          /\ forall (i : nat) (term : Term.t),
              nth_error resolved i = Some term ->
              no_milestone details term ->
              match i with
              | O => Term.start_date term = Some c
              | S j => exists (prev : Term.t) (prev_end : DateTime),
                  nth_error resolved j = Some prev
                  /\ Term.end_date prev = Some prev_end
                  /\ Term.start_date term = Some (plus_days prev_end 1)
              end)
  /\ (effectiveDate = None -> opDetails = None -> called = None).
Proof.
  intros called. subst called. unfold calcAgreementTermDates_call.
  split; [|split; [|split]].
  - intros details -> Hc ->. cbn [JS.nullish].
    unfold calcAgreementTermDates. rewrite Hc. reflexivity.
  - intros Hsome.
    assert (Hfs : JS.or_obj (commencement_date (JS.nullish opDetails empty_op_details))
                            effectiveDate <> None).
    { destruct Hsome as [He | (details & -> & Hc)].
      - destruct effectiveDate; [|congruence].
        destruct (commencement_date _); discriminate.
      - cbn [JS.nullish]. destruct (commencement_date details); [discriminate|congruence]. }
    pose proof (calcAgreementTermDates_dated
                  plus_duration_years effectiveDate (JS.nullish opDetails empty_op_details)
                  (JS.nullish termination empty_termination) agreementTerms Hfs)
      as [Hlen Hall].
    eexists. split; [|split; [exact Hlen | exact Hall]].
    destruct Hsome as [He | (details & -> & _)].
    + destruct effectiveDate; [reflexivity | congruence].
    + destruct effectiveDate; reflexivity.
  - intros details c -> -> Hc. cbn [JS.nullish].
    eexists. split; [reflexivity|].
    intros i term Hnth Hno.
    apply (calcAgreementTermDates_follows
             plus_duration_years None details (JS.nullish termination empty_termination)
             agreementTerms c i term); [rewrite Hc; reflexivity | exact Hnth | exact Hno].
  - intros -> ->. reflexivity.
Qed.

Lemma calcAgreementTermDates_noop_without_dates_witness :
  calcAgreementTermDates_call plus_whole_years_and_days None (Some no_op_details) None
                              lease_terms = Some lease_terms
  /\ (exists resolved : list Term.t,
         calcAgreementTermDates_call plus_whole_years_and_days None
                                     (Some commenced_op_details) None lease_terms
         = Some resolved
         /\ List.length resolved = List.length lease_terms
         /\ option_map Term.start_date (nth_error resolved 0)
            = Some (Some (local 2023 3 1)))
  /\ calcAgreementTermDates_call plus_whole_years_and_days None None None lease_terms
     = None.
Proof.
  split; [|split].
  - apply (proj1 (calcAgreementTermDates_noop_without_dates
                    plus_whole_years_and_days None (Some no_op_details) None lease_terms)
                 no_op_details); reflexivity.
  - destruct (proj1 (proj2 (calcAgreementTermDates_noop_without_dates
                              plus_whole_years_and_days None (Some commenced_op_details)
                              None lease_terms)))
      as (resolved & Hcalled & Hlen & _).
    + right. exists commenced_op_details. split; [reflexivity | discriminate].
    + exists resolved. split; [exact Hcalled|]. split; [exact Hlen|].
      destruct (proj1 (proj2 (proj2 (calcAgreementTermDates_noop_without_dates
                                       plus_whole_years_and_days None
                                       (Some commenced_op_details) None lease_terms)))
                      commenced_op_details (local 2023 3 1) eq_refl eq_refl eq_refl)
        as (resolved' & Hcalled' & Hstart).
      assert (resolved' = resolved) by congruence. subst resolved'.
      destruct (nth_error resolved 0) as [first|] eqn:Hfirst.
      * cbn [option_map]. f_equal. apply (Hstart O first Hfirst).
        assert (Hin : In first resolved) by (eapply nth_error_In; exact Hfirst).
        clear Hstart Hfirst Hlen Hcalled'.
        vm_compute in Hcalled. apply Some_eq in Hcalled. subst resolved.
        destruct Hin as [<- | [<- | [<- | []]]]; split; right; right; reflexivity.
      * exfalso. apply nth_error_None in Hfirst. rewrite Hlen in Hfirst.
        vm_compute in Hfirst. lia.
  - apply (proj2 (proj2 (proj2 (calcAgreementTermDates_noop_without_dates
                                  plus_whole_years_and_days None None None lease_terms))));
      reflexivity.
Defined.

(** Counterexample to C10 as stated: the operations term starts on the
    day operations commenced, so its extension is the first term whose
    start is not overridden; the extension starts on the day after the
    operations term ends, not on the commencement date. *)
Lemma calcAgreementTermDates_extension_follows :
  commencement_date milestone_op_details = Some (local 2023 3 1)
  /\ map (milestone_override milestone_op_details) (sort_by_ordinal operations_terms)
     = [Some (local 2023 6 1); None]
  /\ option_map (map (fun t => (Term.term_ordinal t, Term.start_date t)))
                (calcAgreementTermDates_call plus_whole_years_and_days None
                                             (Some milestone_op_details) None
                                             operations_terms)
     = Some [(1, Some (local 2023 6 1)); (2, Some (local 2024 6 1))]
  /\ local 2024 6 1 <> local 2023 3 1.
Proof.
  split; [reflexivity|]. split; [vm_compute; reflexivity|].
  split; [vm_compute; reflexivity|]. vm_compute. discriminate.
Qed.

(** ** Date based generator *)

Lemma next_payment_date_unrecognized (frequency : option string) (d : DateTime) :
  ~ recognized_frequency frequency -> next_payment_date frequency d = None.
Proof.
  intros Hn. unfold next_payment_date.
  repeat match goal with
         | |- context [freq_is ?n frequency] =>
             let E := fresh "E" in
             destruct (freq_is n frequency) eqn:E;
             [apply freq_is_true in E; exfalso; apply Hn; unfold recognized_frequency; tauto|]
         end.
  reflexivity.
Qed.

(** With a frequency it does not know the loop body runs at most once. *)
Lemma date_model_loop_unrecognized (fuel : nat) (this : Doc.t) (model : DateModel.t)
      (amount : Q) (payment_date_end payment_date : DateTime) (period : Z) :
  ~ recognized_frequency (DateModel.frequency model) ->
  date_model_loop (S fuel) this model amount payment_date_end payment_date period
  = Some (if (payment_date <=? payment_date_end)
             && negb match Doc.date_purchased this with
                     | Some purchased => payment_date >? purchased
                     | None => false
                     end
          then date_grantor_events this model payment_date period
                                   (date_payment_amount model amount period)
          else []).
Proof.
  intros Hn. simpl. rewrite (next_payment_date_unrecognized _ _ Hn).
  destruct (payment_date <=? payment_date_end); [|reflexivity].
  destruct (Doc.date_purchased this) as [purchased|]; [|reflexivity].
  destruct (payment_date >? purchased); reflexivity.
Qed.

Lemma date_models_events_app (fuel : nat) (this : Doc.t) (l1 l2 : list DateModel.t) :
  date_models_events fuel this (l1 ++ l2)
  = events_then (date_models_events fuel this l1) (date_models_events fuel this l2).
Proof.
  induction l1 as [|m rest IH]; simpl.
  - destruct (date_models_events fuel this l2); reflexivity.
  - rewrite IH.
    destruct (date_model_events fuel this m) as [e|]; [|reflexivity].
    destruct (date_models_events fuel this rest) as [r|]; [|reflexivity].
    destruct (date_models_events fuel this l2) as [t|]; [|reflexivity].
    simpl. now rewrite app_assoc.
Qed.

Lemma next_payment_date_advances (frequency : option string) (d d' : DateTime) :
  next_payment_date frequency d = Some d' -> d + MS_PER_DAY <= d'.
Proof.
  unfold next_payment_date, plus_years.
  repeat match goal with
         | |- context [freq_is ?n frequency] => destruct (freq_is n frequency)
         end;
    intros [= <-]; try discriminate; apply plus_months_advances; lia.
Qed.

Lemma rounds_left_advance (d d' last : DateTime) :
  d <= last -> d + MS_PER_DAY <= d' ->
  (S (rounds_left d' last) <= rounds_left d last)%nat.
Proof.
  intros Hle Hadv. unfold rounds_left.
  destruct (d <=? last) eqn:E; [|lia].
  assert (H0 : 0 <= (last - d) / MS_PER_DAY) by (apply Z.div_pos; unfold MS_PER_DAY; lia).
  destruct (d' <=? last) eqn:E'; [|lia].
  apply Z.leb_le in E'.
  assert (H1 : 0 <= (last - d') / MS_PER_DAY)
    by (apply Z.div_pos; unfold MS_PER_DAY; lia).
  assert (H2 : (last - d') / MS_PER_DAY + 1 <= (last - d) / MS_PER_DAY).
  { unfold MS_PER_DAY in *. Z.div_mod_to_equations. lia. }
  lia.
Qed.

(** The loop of a date model finishes: every round moves the payment date
    forward by a day at least, so it passes the end date in time. *)
Lemma date_model_loop_terminates (this : Doc.t) (model : DateModel.t) (amount : Q)
      (last : DateTime) :
  forall (fuel : nat) (d : DateTime) (period : Z),
    (rounds_left d last < fuel)%nat ->
    exists events, date_model_loop fuel this model amount last d period = Some events.
Proof.
  induction fuel as [|fuel IH]; intros d period Hfuel; [lia|].
  simpl. destruct (d <=? last) eqn:E; [|eexists; reflexivity].
  destruct (match Doc.date_purchased this with
            | Some purchased => d >? purchased
            | None => false
            end); [eexists; reflexivity|].
  destruct (next_payment_date (DateModel.frequency model) d) as [d'|] eqn:En;
    [|eexists; reflexivity].
  apply Z.leb_le in E.
  pose proof (rounds_left_advance d d' last E (next_payment_date_advances _ _ _ En)).
  destruct (IH d' (period + 1)) as [later ->]; [lia|].
  eexists; reflexivity.
Qed.

(** More fuel does not change a result. *)
Lemma date_model_loop_fuel (this : Doc.t) (model : DateModel.t) (amount : Q)
      (last : DateTime) :
  forall (fuel fuel' : nat) (d : DateTime) (period : Z) (events : list Event.t),
    date_model_loop fuel this model amount last d period = Some events ->
    (fuel <= fuel')%nat ->
    date_model_loop fuel' this model amount last d period = Some events.
Proof.
  induction fuel as [|fuel IH]; intros fuel' d period events H Hle; [discriminate H|].
  destruct fuel' as [|fuel']; [lia|].
  simpl in *. destruct (d <=? last); [|exact H].
  destruct (match Doc.date_purchased this with
            | Some purchased => d >? purchased
            | None => false
            end); [exact H|].
  destruct (next_payment_date (DateModel.frequency model) d) as [d'|]; [|exact H].
  destruct (date_model_loop fuel this model amount last d' (period + 1)) as [later|] eqn:El;
    [|discriminate H].
  rewrite (IH fuel' d' (period + 1) later El) by lia. exact H.
Qed.

Lemma date_model_events_terminates (this : Doc.t) (model : DateModel.t) :
  exists fuel, forall fuel', (fuel <= fuel')%nat ->
    exists events, date_model_events fuel' this model = Some events.
Proof.
  unfold date_model_events.
  destruct (date_model_complete this model); [|exists O; eexists; reflexivity].
  destruct (JS.nullish_opt _ _) as [first|]; [|exists O; eexists; reflexivity].
  destruct (getEarliestDateTimeFromArray _) as [last|]; [|exists O; eexists; reflexivity].
  destruct (DateModel.payment_amount model) as [amount|];
    [|exists O; eexists; reflexivity].
  exists (S (rounds_left first last)). intros fuel' Hle.
  apply date_model_loop_terminates. lia.
Qed.

(** X6. The date based generator finishes for every agreement: with enough
    rounds allowed it returns its schedule. *)
Theorem calcDatePayments_terminates (this : Doc.t) :
  exists fuel, forall fuel', (fuel <= fuel')%nat ->
    exists events, calcDatePayments fuel' this = Some events.
Proof.
  unfold calcDatePayments.
  induction (Doc.date_payment_models this) as [|model rest IH].
  - exists O. intros fuel' _. eexists. reflexivity.
  - destruct IH as [fuel_rest Hrest].
    destruct (date_model_events_terminates this model) as [fuel_model Hmodel].
    exists (Nat.max fuel_model fuel_rest). intros fuel' Hle. simpl.
    destruct (Hmodel fuel') as [events ->]; [lia|].
    destruct (Hrest fuel') as [later ->]; [lia|].
    eexists. reflexivity.
Qed.

(** The date based generator reads the models it is given, not the ones
    stored on the document. *)
Lemma date_model_loop_models (x : Doc.t) (m : list DateModel.t) (model : DateModel.t)
      (amount : Q) (payment_date_end : DateTime) :
  forall (fuel : nat) (payment_date : DateTime) (period : Z),
    date_model_loop fuel (with_date_payment_models x m) model amount
                    payment_date_end payment_date period
    = date_model_loop fuel x model amount payment_date_end payment_date period.
Proof.
  induction fuel as [|fuel IH]; intros payment_date period; [reflexivity|].
  cbn [date_model_loop].
  destruct (next_payment_date (DateModel.frequency model) payment_date) as [next|];
    [rewrite IH|]; reflexivity.
Qed.

Lemma date_models_events_models (fuel : nat) (x : Doc.t) (m l : list DateModel.t) :
  date_models_events fuel (with_date_payment_models x m) l
  = date_models_events fuel x l.
Proof.
  induction l as [|model rest IH]; [reflexivity|].
  cbn [date_models_events]. rewrite IH.
  replace (date_model_events fuel (with_date_payment_models x m) model)
    with (date_model_events fuel x model); [reflexivity|].
  unfold date_model_events.
  change (date_model_complete (with_date_payment_models x m) model)
    with (date_model_complete x model).
  change (Doc.termination (with_date_payment_models x m)) with (Doc.termination x).
  destruct (date_model_complete x model); [|reflexivity].
  destruct (JS.nullish_opt _ _); [|reflexivity].
  destruct (getEarliestDateTimeFromArray _); [|reflexivity].
  destruct (DateModel.payment_amount model); [|reflexivity].
  symmetry. apply date_model_loop_models.
Qed.

Lemma calcDatePayments_of_models (fuel : nat) (x : Doc.t) (l : list DateModel.t) :
  calcDatePayments fuel (with_date_payment_models x l) = date_models_events fuel x l.
Proof.
  unfold calcDatePayments. cbn [with_date_payment_models Doc.date_payment_models].
  apply date_models_events_models.
Qed.

(** What a model with a frequency the loop does not know yields: the events
    of its first period where there is one, and nothing otherwise. *)
Lemma date_model_events_unrecognized (fuel : nat) (this : Doc.t) (model : DateModel.t) :
  ~ recognized_frequency (DateModel.frequency model) ->
  date_model_events (S fuel) this model
  = Some (if date_model_complete this model then
            match JS.nullish_opt (DateModel.date_one_time model)
                                 (DateModel.date_begin model),
                  getEarliestDateTimeFromArray
                    [termination_date (Doc.termination this);
                     DateModel.date_one_time model;
                     DateModel.date_end model],
                  DateModel.payment_amount model with
            | Some first, Some last, Some amount =>
                if (first <=? last)
                   && negb match Doc.date_purchased this with
                           | Some purchased => first >? purchased
                           | None => false
                           end
                then date_grantor_events this model first 1
                                         (date_payment_amount model amount 1)
                else []
            | _, _, _ => []
            end
          else []).
Proof.
  intros Hn. unfold date_model_events.
  destruct (date_model_complete this model); [|reflexivity].
  destruct (JS.nullish_opt _ _) as [first|]; [|reflexivity].
  destruct (getEarliestDateTimeFromArray _) as [last|]; [|reflexivity].
  destruct (DateModel.payment_amount model) as [amount|]; [|reflexivity].
  apply (date_model_loop_unrecognized fuel this model amount last first 1 Hn).
Qed.

Lemma Forall2_map_right {A B : Type} (P : A -> B -> Prop) (f : A -> B) (l : list A) :
  (forall a, In a l -> P a (f a)) -> Forall2 P l (map f l).
Proof.
  induction l as [|a rest IH]; intros H; simpl; constructor.
  - apply H. left. reflexivity.
  - apply IH. intros b Hb. apply H. right. exact Hb.
Qed.

(** C4. For a date model whose frequency is none of "Annually",
    "Semiannually", "Quarterly" and "Monthly", one round of the loop is
    enough for any agreement, and the generation of that model finishes with
    a result.  The result is what the first round pushed: when the model has
    the fields it needs, its first date is not after its last and not after
    the purchase, these are the events of the first period, one per grantor,
    dated at the first date, with payment index 0 and the grantor's share
    of the amount of period 1; in every other case there are none.  The
    schedule of the agreement is the schedule it has without that model,
    computed in the same number of rounds, with these events at the place of
    the model. *)
Theorem calcDatePayments_unrecognized_frequency
        (fuel : nat) (this : Doc.t) (before after : list DateModel.t)
        (model : DateModel.t) :
  ~ recognized_frequency (DateModel.frequency model) ->
  (0 < fuel)%nat ->
  exists events : list Event.t,
    date_model_events fuel this model = Some events
    /\ date_model_events 1 this model = Some events
    /\ (forall (first last : DateTime) (amount : Q),
          DateModel.date_one_time model = Some first
          \/ (DateModel.date_one_time model = None
              /\ DateModel.date_begin model = Some first
              /\ DateModel.date_end model <> None
              /\ JS.truthy_str (DateModel.frequency model) = true) ->
          getEarliestDateTimeFromArray
            [termination_date (Doc.termination this);
             DateModel.date_one_time model;
             DateModel.date_end model] = Some last ->
          DateModel.payment_amount model = Some amount ->
          ~ (amount == 0)%Q ->
          Doc.grantor this <> [] ->
          first <= last ->
          (forall purchased : DateTime,
              Doc.date_purchased this = Some purchased -> first <= purchased) ->
          events = date_grantor_events this model first 1
                                       (date_payment_amount model amount 1)
          /\ events <> []
          /\ Forall2
               (fun (g : Grantor) (e : Event.t) =>
                  Event.payment_date e = first
                  /\ Event.payment_index e = Some 0
                  /\ Event.model_id e = DateModel.id model
                  /\ match payment_split g with
                     | Some percent =>
                         (Event.payment_amount e
                          == date_payment_amount model amount 1 * (percent / 100))%Q
                     | None =>
                         (Event.payment_amount e
                          == date_payment_amount model amount 1
                             * (1 / inject_Z (Z.of_nat (List.length (Doc.grantor this)))))%Q
                     end)
               (Doc.grantor this) events)
    /\ (DateModel.payment_amount model = None
        \/ (exists amount : Q,
               DateModel.payment_amount model = Some amount /\ (amount == 0)%Q)
        \/ Doc.grantor this = []
        \/ (DateModel.date_one_time model = None
            /\ (DateModel.date_begin model = None
                \/ DateModel.date_end model = None
                \/ JS.truthy_str (DateModel.frequency model) = false)) ->
        events = [])
    /\ (forall first last : DateTime,
          JS.nullish_opt (DateModel.date_one_time model) (DateModel.date_begin model)
          = Some first ->
          getEarliestDateTimeFromArray
            [termination_date (Doc.termination this);
             DateModel.date_one_time model;
             DateModel.date_end model] = Some last ->
          last < first
          \/ (exists purchased : DateTime,
                 Doc.date_purchased this = Some purchased /\ purchased < first) ->
          events = [])
    /\ (forall others : list Event.t,
          calcDatePayments fuel (with_date_payment_models this (before ++ after))
          = Some others ->
          exists events_before events_after : list Event.t,
            date_models_events fuel this before = Some events_before
            /\ date_models_events fuel this after = Some events_after
            /\ others = events_before ++ events_after
            /\ calcDatePayments
                 fuel (with_date_payment_models this (before ++ model :: after))
               = Some (events_before ++ events ++ events_after)).
Proof.
  intros Hn Hfuel. destruct fuel as [|fuel]; [lia|].
  eexists. split; [apply (date_model_events_unrecognized fuel this model Hn)|].
  split; [apply (date_model_events_unrecognized O this model Hn)|].
  split; [|split; [|split]].
  - intros first last amount Hfirst Hlast Hamount Hnz Hgrantor Hle Hpurchased.
    assert (Hcomplete : date_model_complete this model = true).
    { unfold date_model_complete. rewrite Hamount.
      assert (Ht : JS.truthy_num (Some amount) = true).
      { cbn [JS.truthy_num]. destruct (Qeq_bool amount 0) eqn:E; [|reflexivity].
        apply Qeq_bool_iff in E. contradiction. }
      rewrite Ht.
      assert (Hlen : (Z.b2z (Z.of_nat (List.length (Doc.grantor this)) =? 0) >? 0) = false).
      { destruct (Doc.grantor this); [congruence | reflexivity]. }
      rewrite Hlen.
      destruct Hfirst as [-> | (-> & -> & Hend & ->)].
      - cbn [JS.truthy_obj negb andb orb]. rewrite andb_false_r. reflexivity.
      - destruct (DateModel.date_end model); [reflexivity | congruence]. }
    assert (Hdate : JS.nullish_opt (DateModel.date_one_time model)
                                   (DateModel.date_begin model) = Some first).
    { destruct Hfirst as [-> | (-> & -> & _)]; reflexivity. }
    assert (Hround : (first <=? last)
                     && negb match Doc.date_purchased this with
                             | Some purchased => first >? purchased
                             | None => false
                             end = true).
    { apply andb_true_intro. split; [apply Z.leb_le, Hle|].
      destruct (Doc.date_purchased this) as [purchased|]; [|reflexivity].
      specialize (Hpurchased purchased eq_refl).
      destruct (first >? purchased) eqn:E; [|reflexivity].
      apply Z.gtb_lt in E. lia. }
    rewrite Hcomplete, Hdate, Hlast, Hamount, Hround.
    split; [reflexivity|]. split.
    + unfold date_grantor_events. destruct (Doc.grantor this); [congruence|discriminate].
    + unfold date_grantor_events. apply Forall2_map_right. intros g _.
      cbn [Event.payment_date Event.payment_index Event.model_id Event.payment_amount].
      split; [reflexivity|]. split; [reflexivity|]. split; [reflexivity|].
      destruct (payment_split g) as [percent|] eqn:Es.
      * rewrite (split_share_percentage _ g percent Es). reflexivity.
      * rewrite (split_share_equal_part _ g Es). reflexivity.
  - intros Hmissing.
    assert (Hcomplete : date_model_complete this model = false).
    { unfold date_model_complete.
      destruct Hmissing as [Ha | [(amount & Ha & Hz) | [Hg | (Ho & Hb)]]].
      - rewrite Ha. cbn [JS.truthy_num negb]. rewrite orb_true_r. reflexivity.
      - rewrite Ha. cbn [JS.truthy_num]. apply Qeq_bool_iff in Hz. rewrite Hz.
        cbn [negb]. rewrite orb_true_r. reflexivity.
      - rewrite Hg. cbn [List.length Z.of_nat Z.eqb Z.b2z Z.gtb Z.compare Pos.compare].
        rewrite orb_true_r. reflexivity.
      - rewrite Ho. destruct Hb as [-> | [-> | ->]];
          cbn [JS.truthy_obj negb andb orb]; rewrite ?andb_false_r; reflexivity. }
    rewrite Hcomplete. reflexivity.
  - intros first last Hdate Hlast Hout.
    rewrite Hdate, Hlast.
    destruct (date_model_complete this model); [|reflexivity].
    destruct (DateModel.payment_amount model) as [amount|]; [|reflexivity].
    assert (Hround : (first <=? last)
                     && negb match Doc.date_purchased this with
                             | Some purchased => first >? purchased
                             | None => false
                             end = false).
    { destruct Hout as [Hlt | (purchased & Hp & Hlt)].
      - assert (E : (first <=? last) = false) by (apply Z.leb_gt; exact Hlt).
        rewrite E. reflexivity.
      - rewrite Hp.
        assert (E : (first >? purchased) = true) by (apply Z.gtb_lt; exact Hlt).
        rewrite E. apply andb_false_r. }
    rewrite Hround. reflexivity.
  - intros others Hothers.
    rewrite calcDatePayments_of_models, date_models_events_app in Hothers.
    rewrite calcDatePayments_of_models, date_models_events_app.
    cbn [date_models_events].
    rewrite (date_model_events_unrecognized fuel this model Hn).
    destruct (date_models_events (S fuel) this before) as [events_before|];
      [|discriminate Hothers].
    destruct (date_models_events (S fuel) this after) as [events_after|];
      [|discriminate Hothers].
    cbn [events_then] in *. injection Hothers as <-.
    exists events_before, events_after. repeat split; reflexivity.
Qed.

Lemma calcDatePayments_unrecognized_frequency_witness :
  ~ recognized_frequency (DateModel.frequency weekly_model)
  /\ exists events : list Event.t,
      date_model_events 100 (dated_doc []) weekly_model = Some events
      /\ map (fun e => (Event.payment_index e, Event.payment_date e)) events
         = [(Some 0, local 2024 1 1)]
      /\ Forall (fun e => (Event.payment_amount e == 100)%Q) events
      /\ exists events_before events_after : list Event.t,
          calcDatePayments 100 (dated_doc [annual_model; quarterly_model])
          = Some (events_before ++ events_after)
          /\ calcDatePayments 100 (dated_doc [annual_model; weekly_model; quarterly_model])
             = Some (events_before ++ events ++ events_after).
Proof.
  assert (Hn : ~ recognized_frequency (DateModel.frequency weekly_model)).
  { intros [H|[H|[H|H]]]; discriminate H. }
  split; [exact Hn|].
  destruct (calcDatePayments_unrecognized_frequency
              100 (dated_doc []) [annual_model] [quarterly_model] weekly_model Hn)
    as (events & Hev & _ & Hkept & _ & _ & Hall).
  - repeat constructor.
  - exists events. split; [exact Hev|].
    destruct (Hkept (local 2024 1 1) (local 2024 12 31) 100%Q) as (Hevents & _ & _).
    + right. repeat split; try reflexivity. discriminate.
    + vm_compute. reflexivity.
    + reflexivity.
    + discriminate.
    + discriminate.
    + vm_compute. discriminate.
    + intros purchased Hp. discriminate Hp.
    + split; [rewrite Hevents; vm_compute; reflexivity|].
      split; [rewrite Hevents; constructor; [vm_compute; reflexivity | constructor]|].
      destruct (Hall (finished (calcDatePayments 100 (dated_doc [annual_model; quarterly_model]))))
        as (events_before & events_after & _ & _ & Hothers & Hwith).
      * vm_compute. reflexivity.
      * exists events_before, events_after. split; [|exact Hwith].
        rewrite <- Hothers. vm_compute. reflexivity.
Defined.

Example dated_schedule :
  option_map (map (fun e => (Event.model_id e, Event.payment_index e, Event.payment_date e)))
             (calcDatePayments 100 (dated_doc [annual_model; weekly_model; quarterly_model]))
  = Some [ (Some "annual"%string, Some 0, local 2024 1 1);
           (Some "annual"%string, Some 1, local 2025 1 1);
           (Some "weekly"%string, Some 0, local 2024 1 1);
           (Some "quarterly"%string, Some 0, local 2024 1 1);
           (Some "quarterly"%string, Some 1, local 2024 4 1) ].
Proof. vm_compute. reflexivity. Qed.

Example dated_schedule_without_weekly :
  option_map (map (fun e => (Event.model_id e, Event.payment_index e, Event.payment_date e)))
             (calcDatePayments 100 (dated_doc [annual_model; quarterly_model]))
  = Some [ (Some "annual"%string, Some 0, local 2024 1 1);
           (Some "annual"%string, Some 1, local 2025 1 1);
           (Some "quarterly"%string, Some 0, local 2024 1 1);
           (Some "quarterly"%string, Some 1, local 2024 4 1) ].
Proof. vm_compute. reflexivity. Qed.

(** ** Payee shares *)

Lemma sum_amounts_map {A : Type} (f : A -> Event.t) (l : list A) :
  (sum_amounts (map f l) == Qsum (map (fun a => Event.payment_amount (f a)) l))%Q.
Proof.
  induction l as [|a rest IH]; simpl.
  - reflexivity.
  - rewrite sum_amounts_cons, IH. reflexivity.
Qed.

Lemma Qsum_ext {A : Type} (f h : A -> Q) (l : list A) :
  (forall a, In a l -> (f a == h a)%Q) -> (Qsum (map f l) == Qsum (map h l))%Q.
Proof.
  induction l as [|a rest IH]; intros H; simpl.
  - reflexivity.
  - rewrite (H a (or_introl eq_refl)), IH; [reflexivity|].
    intros b Hb. apply H. right. exact Hb.
Qed.

Lemma Qsum_scale {A : Type} (c : Q) (f : A -> Q) (l : list A) :
  (Qsum (map (fun a => c * f a) l) == c * Qsum (map f l))%Q.
Proof.
  induction l as [|a rest IH]; simpl.
  - ring.
  - rewrite IH. ring.
Qed.

Lemma Qsum_const {A : Type} (c : Q) (l : list A) :
  (Qsum (map (fun _ => c) l) == inject_Z (Z.of_nat (List.length l)) * c)%Q.
Proof.
  induction l as [|a rest IH].
  - simpl. ring.
  - cbn [map Qsum fold_right List.length]. fold (Qsum (map (fun _ : A => c) rest)).
    rewrite IH, Nat2Z.inj_succ. unfold Z.succ. rewrite inject_Z_plus. ring.
Qed.

Lemma count_nonzero (grantor : list Grantor) :
  grantor <> [] -> ~ (count grantor == 0)%Q.
Proof.
  intros Hne. unfold count. destruct grantor as [|g rest]; [congruence|].
  intros H. unfold Qeq in H. simpl in H. lia.
Qed.

(** Shares of the standard, date based and settlement loops add up to one
    when the explicit percentages add up to 100. *)
Lemma split_share_total_explicit (grantor : list Grantor) :
  explicit_splits grantor -> (splits_total grantor == 100)%Q ->
  (Qsum (map (split_share grantor) grantor) == 1)%Q.
Proof.
  intros Hex Htot.
  assert (H : (Qsum (map (split_share grantor) grantor)
               == (1 / 100) * splits_total grantor)%Q).
  { unfold splits_total. rewrite <- Qsum_scale. apply Qsum_ext.
    intros g Hg. unfold split_share.
    eapply Forall_forall in Hex; [|exact Hg].
    destruct (payment_split g) as [sp|]; [|congruence]. simpl. field. }
  rewrite H, Htot. reflexivity.
Qed.

(** They also add up to one under the default equal split. *)
Lemma split_share_total_default (grantor : list Grantor) :
  default_splits grantor -> grantor <> [] ->
  (Qsum (map (split_share grantor) grantor) == 1)%Q.
Proof.
  intros Hdef Hne.
  assert (H : (Qsum (map (split_share grantor) grantor)
               == Qsum (map (fun _ => 100 / count grantor / 100) grantor))%Q).
  { apply Qsum_ext. intros g Hg. unfold split_share.
    eapply Forall_forall in Hdef; [|exact Hg]. rewrite Hdef. reflexivity. }
  rewrite H, Qsum_const. fold (count grantor). field. apply count_nonzero, Hne.
Qed.

(** Shares of the blended loop under the default equal split. *)
Lemma blended_split_share_total_default (grantor : list Grantor) :
  default_splits grantor -> grantor <> [] ->
  (Qsum (map (blended_split_share grantor) grantor) == 1)%Q.
Proof.
  intros Hdef Hne.
  assert (H : (Qsum (map (blended_split_share grantor) grantor)
               == Qsum (map (fun _ => 100 / count grantor / 100) grantor))%Q).
  { apply Qsum_ext. intros g Hg. unfold blended_split_share.
    eapply Forall_forall in Hdef; [|exact Hg]. rewrite Hdef. reflexivity. }
  rewrite H, Qsum_const. fold (count grantor). field. apply count_nonzero, Hne.
Qed.

(** Shares of the blended loop with explicit percentages adding up to 100:
    they add up to one over the number of grantors. *)
Lemma blended_split_share_total_explicit (grantor : list Grantor) :
  explicit_splits grantor -> (splits_total grantor == 100)%Q -> grantor <> [] ->
  (Qsum (map (blended_split_share grantor) grantor) == 1 / count grantor)%Q.
Proof.
  intros Hex Htot Hne. pose proof (count_nonzero grantor Hne) as Hc.
  assert (H : (Qsum (map (blended_split_share grantor) grantor)
               == (1 / count grantor / 100) * splits_total grantor)%Q).
  { unfold splits_total. rewrite <- Qsum_scale. apply Qsum_ext.
    intros g Hg. unfold blended_split_share.
    eapply Forall_forall in Hex; [|exact Hg].
    destruct (payment_split g) as [sp|]; [|congruence]. simpl. field. exact Hc. }
  rewrite H, Htot. field. exact Hc.
Qed.

(** The shares of one payment of the standard generator add up to the
    payment when the shares add up to one. *)
Lemma standard_shares_sum (term : Term.t) (model : TermModel.t) (grantor : list Grantor)
      (project_id : option string) (outside_date : option DateTime) (periodic_payment : Q)
      (i : Z) (payment_date : DateTime) (late_payment_date : option DateTime)
      (period_start period_end : DateTime) (prorata_factor previous_periods : Q)
      (escalation_periods : Z) :
  (Qsum (map (split_share grantor) grantor) == 1)%Q ->
  (sum_amounts
     (standard_grantor_events term model grantor project_id outside_date periodic_payment
        i payment_date late_payment_date period_start period_end prorata_factor
        previous_periods escalation_periods)
   == standard_total_payment model periodic_payment i escalation_periods prorata_factor)%Q.
Proof.
  intros Hone. unfold standard_grantor_events. rewrite sum_amounts_map. simpl.
  assert (H : (Qsum (map (fun g =>
                 calculateCompoundingGrowth
                   ((periodic_payment
                     + JS.nullish (TermModel.increase_amount model) 0 * inject_Z i)
                    * split_share grantor g)
                   (JS.nullish (TermModel.periodic_escalation_rate model) 0 / 100)
                   escalation_periods * prorata_factor) grantor)
               == Qsum (map (fun g =>
                    standard_total_payment model periodic_payment i escalation_periods
                                           prorata_factor * split_share grantor g)
                    grantor))%Q).
  { apply Qsum_ext. intros g _.
    unfold standard_total_payment, calculateCompoundingGrowth. ring. }
  rewrite H, Qsum_scale, Hone. ring.
Qed.

(** The shares of one period of a date model add up to the amount of the
    period when the shares add up to one. *)
Lemma date_shares_sum (this : Doc.t) (model : DateModel.t) (payment_date : DateTime)
      (period : Z) (amount : Q) :
  (Qsum (map (split_share (Doc.grantor this)) (Doc.grantor this)) == 1)%Q ->
  (sum_amounts (date_grantor_events this model payment_date period amount) == amount)%Q.
Proof.
  intros Hone. unfold date_grantor_events. rewrite sum_amounts_map. simpl.
  rewrite Qsum_scale, Hone. ring.
Qed.

(** The shares of one blended payment add up to the payment times the sum
    of the blended shares. *)
Lemma blended_shares_sum (term : Term.t) (model : TermModel.t) (grantor : list Grantor)
      (project_id : option string) (outside_date : option DateTime) (p : BlendedPayment) :
  (sum_amounts (blended_grantor_events term model grantor project_id outside_date p)
   == total_payment p * Qsum (map (blended_split_share grantor) grantor))%Q.
Proof.
  unfold blended_grantor_events. rewrite sum_amounts_map. simpl. apply Qsum_scale.
Qed.

(** C3, the defect. Two grantors with explicit splits of 50 and 50: whatever
    blended payments the segmentation yields for the term, the blended
    generator emits for each of them one event per grantor whose amounts add
    up to half the payment; for a payment of 1000 that is 250 to each
    grantor and 500 in all, where the loop of the standard generator hands
    out the whole 1000. *)
Theorem blended_shares_miss_total
        (blendedEscalation :
           DateTime -> DateTime -> bool -> DateTime -> option Q -> option Q ->
           option string -> list BlendedPayment) :
  calcBlendedPeriodicPaymentsForTerm
    blendedEscalation shared_option_doc paid_option_term (Some no_op_details)
    (Some [blended_model]) None half_and_half (Some "P-7"%string)
  = Some (flat_map (blended_grantor_events paid_option_term blended_model half_and_half
                                           (Some "P-7"%string) None)
                   (blendedEscalation (local 2023 1 1) (local 2024 12 31) true
                                      (local 2023 1 1) (Some (2 / 100)%Q) (Some 1000%Q)
                                      (Some "Start with Term"%string)))
  /\ (forall p : BlendedPayment,
        (sum_amounts (blended_grantor_events paid_option_term blended_model half_and_half
                                             (Some "P-7"%string) None p)
         == total_payment p / 2)%Q)
  /\ (sum_amounts (blended_grantor_events paid_option_term blended_model half_and_half
                                          (Some "P-7"%string) None blended_1000)
      == 500)%Q
  /\ ~ (sum_amounts (blended_grantor_events paid_option_term blended_model half_and_half
                                            (Some "P-7"%string) None blended_1000)
        == total_payment blended_1000)%Q
  /\ map Event.payment_amount
         (blended_grantor_events paid_option_term blended_model half_and_half
                                 (Some "P-7"%string) None blended_1000)
     = map (fun g => (1000 * (50 / 2 / 100))%Q) half_and_half
  /\ (sum_amounts (standard_grantor_events paid_option_term blended_model half_and_half
                                           (Some "P-7"%string) None 1000 0
                                           (local 2023 1 1) None
                                           (local 2023 1 1) (local 2023 12 31) 1 0 0)
      == 1000)%Q.
Proof.
  split; [reflexivity|].
  split.
  { intros p. rewrite blended_shares_sum, blended_split_share_total_explicit.
    - unfold Qdiv. apply Qmult_comp; reflexivity.
    - repeat constructor; discriminate.
    - reflexivity.
    - discriminate. }
  split; [vm_compute; reflexivity|].
  split; [vm_compute; discriminate|].
  split; [reflexivity|].
  vm_compute. reflexivity.
Qed.

(** ** Amendment overlay *)

(** Two documents with the same fields are the same document. *)
Lemma Doc_eq (a b : Doc.t) :
  Doc.id a = Doc.id b ->
  Doc.project_id a = Doc.project_id b ->
  Doc.agreement_group a = Doc.agreement_group b ->
  Doc.jupiter_entity a = Doc.jupiter_entity b ->
  Doc.grantee a = Doc.grantee b ->
  Doc.grantor a = Doc.grantor b ->
  Doc.effective_date a = Doc.effective_date b ->
  Doc.amendment_date a = Doc.amendment_date b ->
  Doc.letter_date a = Doc.letter_date b ->
  Doc.deed_date a = Doc.deed_date b ->
  Doc.payment_directive_date a = Doc.payment_directive_date b ->
  Doc.recorded_date a = Doc.recorded_date b ->
  Doc.outside_date a = Doc.outside_date b ->
  Doc.estimated_closing_date a = Doc.estimated_closing_date b ->
  Doc.date_purchased a = Doc.date_purchased b ->
  Doc.date_sold a = Doc.date_sold b ->
  Doc.full_purchase_price a = Doc.full_purchase_price b ->
  Doc.property_description a = Doc.property_description b ->
  Doc.operational_details a = Doc.operational_details b ->
  Doc.termination a = Doc.termination b ->
  Doc.agreement_terms a = Doc.agreement_terms b ->
  Doc.term_payment_models a = Doc.term_payment_models b ->
  Doc.date_payment_models a = Doc.date_payment_models b ->
  Doc.date_payments a = Doc.date_payments b ->
  Doc.review_status a = Doc.review_status b ->
  Doc.review_status_doc_id a = Doc.review_status_doc_id b ->
  Doc.review_status_instance_id a = Doc.review_status_instance_id b ->
  Doc.review_status_value_instance_id a = Doc.review_status_value_instance_id b ->
  Doc.review_status_notes a = Doc.review_status_notes b ->
  Doc.sort_date a = Doc.sort_date b ->
  Doc.amendment_ordinal a = Doc.amendment_ordinal b ->
  Doc.amendments a = Doc.amendments b ->
  a = b.
Proof.
  destruct a, b; simpl; intros; subst; reflexivity.
Qed.

Lemma set_sort_date_same (x : Doc.t) : set_sort_date x (Doc.sort_date x) = x.
Proof. destruct x; reflexivity. Qed.

Lemma set_amendment_ordinal_twice (x : Doc.t) (n : option Z) :
  set_amendment_ordinal (set_amendment_ordinal x n) n = set_amendment_ordinal x n.
Proof. reflexivity. Qed.

(** *** The fold of [overlay], field by field *)

Lemma fold_overlay_ow {T : Type} (f : Doc.t -> T) (pf : Doc.t -> option T) :
  (forall d a, f (overlay d a) = ow (pf a) (f d)) ->
  forall (l : list Doc.t) (d : Doc.t),
    f (fold_left overlay l d) = fold_left (fun acc a => ow (pf a) acc) l (f d).
Proof.
  intros H. induction l as [|a rest IH]; intros d; simpl; [reflexivity|].
  rewrite IH, H. reflexivity.
Qed.

Lemma fold_overlay_keep {T : Type} (f : Doc.t -> T) :
  (forall d a, f (overlay d a) = f d) ->
  forall (l : list Doc.t) (d : Doc.t), f (fold_left overlay l d) = f d.
Proof.
  intros H. induction l as [|a rest IH]; intros d; simpl; [reflexivity|].
  rewrite IH, H. reflexivity.
Qed.

Lemma fold_overlay_models (l : list Doc.t) (d : Doc.t) :
  Doc.date_payment_models (fold_left overlay l d)
  = Doc.date_payment_models d ++ flat_map Doc.date_payment_models l.
Proof.
  revert d. induction l as [|a rest IH]; intros d; simpl.
  - now rewrite app_nil_r.
  - rewrite IH. simpl. now rewrite app_assoc.
Qed.

(** A fold of overwrites either keeps its argument or forgets it. *)
Lemma ow_fold_keeps_or_forgets {A T : Type} (pf : A -> option T) (l : list A) :
  (forall x, fold_left (fun acc a => ow (pf a) acc) l x = x)
  \/ (exists v, forall x, fold_left (fun acc a => ow (pf a) acc) l x = v).
Proof.
  induction l as [|a rest IH]; simpl.
  - left. reflexivity.
  - destruct IH as [Hid | [v Hv]].
    + destruct (pf a) as [w|] eqn:E.
      * right. exists w. intros x. rewrite Hid. reflexivity.
      * left. intros x. rewrite Hid. reflexivity.
    + right. exists v. intros x. apply Hv.
Qed.

Lemma ow_fold_twice {A T : Type} (pf : A -> option T) (l : list A) (x : T) :
  fold_left (fun acc a => ow (pf a) acc) l
            (fold_left (fun acc a => ow (pf a) acc) l x)
  = fold_left (fun acc a => ow (pf a) acc) l x.
Proof.
  destruct (ow_fold_keeps_or_forgets pf l) as [Hid | [v Hv]].
  - now rewrite !Hid.
  - now rewrite !Hv.
Qed.

Lemma fold_overlay_ow_twice {T : Type} (f : Doc.t -> T) (pf : Doc.t -> option T) :
  (forall d a, f (overlay d a) = ow (pf a) (f d)) ->
  forall (l : list Doc.t) (d : Doc.t),
    f (fold_left overlay l (fold_left overlay l d)) = f (fold_left overlay l d).
Proof.
  intros H l d. rewrite !(fold_overlay_ow f pf H). apply ow_fold_twice.
Qed.

Lemma fold_overlay_keep_twice {T : Type} (f : Doc.t -> T) :
  (forall d a, f (overlay d a) = f d) ->
  forall (l : list Doc.t) (d : Doc.t),
    f (fold_left overlay l (fold_left overlay l d)) = f (fold_left overlay l d).
Proof.
  intros H l d. now rewrite !(fold_overlay_keep f H).
Qed.

Lemma fold_overlay_set_amendments (l : list Doc.t) (d : Doc.t) (ids : list string) :
  fold_left overlay l (set_amendments d ids)
  = set_amendments (fold_left overlay l d) ids.
Proof.
  revert d. induction l as [|a rest IH]; intros d; simpl; [reflexivity|].
  rewrite <- IH. reflexivity.
Qed.

(** Folding the same amendments a second time changes nothing but the date
    payment models, which receive the models of the amendments again. *)
Lemma fold_overlay_twice (l : list Doc.t) (d : Doc.t) :
  fold_left overlay l (fold_left overlay l d)
  = with_date_payment_models
      (fold_left overlay l d)
      (Doc.date_payment_models (fold_left overlay l d)
       ++ flat_map Doc.date_payment_models l).
Proof.
  apply Doc_eq; cbn [with_date_payment_models Doc.id Doc.project_id Doc.agreement_group
    Doc.jupiter_entity Doc.grantee Doc.grantor Doc.effective_date Doc.amendment_date
    Doc.letter_date Doc.deed_date Doc.payment_directive_date Doc.recorded_date
    Doc.outside_date Doc.estimated_closing_date Doc.date_purchased Doc.date_sold
    Doc.full_purchase_price Doc.property_description Doc.operational_details
    Doc.termination Doc.agreement_terms Doc.term_payment_models Doc.date_payment_models
    Doc.date_payments Doc.review_status Doc.review_status_doc_id
    Doc.review_status_instance_id Doc.review_status_value_instance_id
    Doc.review_status_notes Doc.sort_date Doc.amendment_ordinal Doc.amendments];
    first [ apply fold_overlay_keep_twice; reflexivity
          | eapply fold_overlay_ow_twice; intros; reflexivity
          | apply fold_overlay_models ].
Qed.

(** *** The annotated collection *)

Lemma combine_seq_fst {A : Type} (l : list A) (s : nat) :
  map fst (combine (seq s (List.length l)) l) = seq s (List.length l).
Proof.
  revert s. induction l as [|x rest IH]; intros s; simpl; [reflexivity|].
  now rewrite IH.
Qed.

Lemma indexed_fst (l : list Doc.t) : map fst (indexed l) = seq 0 (List.length l).
Proof. apply combine_seq_fst. Qed.

Lemma indexed_length (l : list Doc.t) : List.length (indexed l) = List.length l.
Proof.
  unfold indexed, Ref. rewrite length_combine, length_seq. apply Nat.min_id.
Qed.

Lemma indexed_NoDup (l : list Doc.t) : NoDup (map fst (indexed l)).
Proof. rewrite indexed_fst. apply seq_NoDup. Qed.

Lemma combine_fst_map {A : Type} (g : Ref -> A) (I : list Ref) :
  combine (map fst I) (map g I) = map (fun r => (fst r, g r)) I.
Proof.
  induction I as [|r rest IH]; simpl; [reflexivity|]. now rewrite IH.
Qed.

(** Positions are kept when every document is replaced in place. *)
Lemma indexed_map (g : Ref -> Doc.t) (l : list Doc.t) :
  indexed (map g (indexed l)) = map (fun r => (fst r, g r)) (indexed l).
Proof.
  unfold indexed at 1. rewrite length_map, indexed_length, <- indexed_fst.
  apply combine_fst_map.
Qed.

Lemma find_index_absent (k : Ref -> Ref) (P : Ref -> bool) (l : list Ref) (i : nat) :
  (forall r, fst (k r) = fst r) ->
  ~ In i (map fst l) ->
  List.find (fun a : Ref => Nat.eqb (fst a) i) (map k (filter P l)) = None.
Proof.
  intros Hk. induction l as [|x rest IH]; intros Hi; simpl; [reflexivity|].
  simpl in Hi. destruct (P x); simpl.
  - rewrite Hk. destruct (Nat.eqb (fst x) i) eqn:E.
    + apply Nat.eqb_eq in E. tauto.
    + apply IH. tauto.
  - apply IH. tauto.
Qed.

(** Looking a reference up by its position in the annotated amendments. *)
Lemma find_index (k : Ref -> Ref) (P : Ref -> bool) (l : list Ref) (r : Ref) :
  (forall r, fst (k r) = fst r) ->
  NoDup (map fst l) -> In r l ->
  List.find (fun a : Ref => Nat.eqb (fst a) (fst r)) (map k (filter P l))
  = if P r then Some (k r) else None.
Proof.
  intros Hk. induction l as [|x rest IH]; intros Hnd Hin; [contradiction|].
  simpl in Hnd. inversion Hnd as [|? ? Hx Hrest]; subst.
  destruct Hin as [-> | Hin]; simpl.
  - destruct (P r); simpl.
    + now rewrite Hk, Nat.eqb_refl.
    + apply find_index_absent; assumption.
  - assert (Hne : fst x <> fst r).
    { intros E. apply Hx. rewrite E. apply in_map, Hin. }
    destruct (P x); simpl.
    + rewrite Hk. apply Nat.eqb_neq in Hne. rewrite Hne. apply IH; assumption.
    + apply IH; assumption.
Qed.

Lemma write_back_map (self : nat) (m : Doc.t) (k : Ref -> Ref) (P : Ref -> bool)
      (l : list Doc.t) :
  (forall r, fst (k r) = fst r) ->
  write_back self m (map k (filter P (indexed l))) l
  = map (fun r => if Nat.eqb (fst r) self then m
                  else if P r then snd (k r) else snd r)
        (indexed l).
Proof.
  intros Hk. unfold write_back. apply map_ext_in. intros r Hr.
  rewrite (find_index k P (indexed l) r Hk (indexed_NoDup l) Hr).
  destruct (Nat.eqb (fst r) self), (P r); reflexivity.
Qed.

(** An element of the indexed collection is the document at its position. *)
Lemma combine_seq_In {A : Type} (l : list A) :
  forall (s : nat) (r : nat * A),
    In r (combine (seq s (List.length l)) l) ->
    (s <= fst r)%nat /\ nth_error l (fst r - s) = Some (snd r).
Proof.
  induction l as [|x rest IH]; intros s r Hin; simpl in Hin; [contradiction|].
  destruct Hin as [<- | Hin]; cbn [fst snd].
  - rewrite Nat.sub_diag. split; [lia | reflexivity].
  - destruct (IH (S s) r Hin) as [Hle Hnth]. split; [lia|].
    replace (fst r - s)%nat with (S (fst r - S s)) by lia. exact Hnth.
Qed.

Lemma indexed_In (l : list Doc.t) (r : Ref) :
  In r (indexed l) -> nth_error l (fst r) = Some (snd r).
Proof.
  intros Hin. destruct (combine_seq_In l O r Hin) as [_ H].
  rewrite Nat.sub_0_r in H. exact H.
Qed.

Lemma nth_error_combine_seq {A : Type} (l : list A) :
  forall (s i : nat) (x : A),
    nth_error l i = Some x ->
    nth_error (combine (seq s (List.length l)) l) i = Some ((s + i)%nat, x).
Proof.
  induction l as [|y rest IH]; intros s i x H; destruct i as [|i]; simpl in *;
    try discriminate.
  - injection H as ->. rewrite Nat.add_0_r. reflexivity.
  - rewrite (IH (S s) i x H). f_equal. f_equal. lia.
Qed.

Lemma indexed_nth_error (l : list Doc.t) (i : nat) (x : Doc.t) :
  nth_error l i = Some x -> nth_error (indexed l) i = Some (i, x).
Proof. intros H. exact (nth_error_combine_seq l O i x H). Qed.

(** The position of [this] holds what the overlay made of it. *)
Lemma write_back_self (self : nat) (m x : Doc.t) (annotated : list Ref)
      (l : list Doc.t) :
  nth_error l self = Some x ->
  nth_error (write_back self m annotated l) self = Some m.
Proof.
  intros H. unfold write_back. rewrite nth_error_map.
  pose proof (indexed_nth_error l self x H) as E.
  unfold Ref in *. rewrite E.
  cbn [option_map fst]. now rewrite Nat.eqb_refl.
Qed.

(** The other positions do not depend on what the overlay made of [this]. *)
Lemma write_back_other (self : nat) (m m' : Doc.t) (annotated : list Ref)
      (l : list Doc.t) (i : nat) :
  i <> self ->
  nth_error (write_back self m annotated l) i
  = nth_error (write_back self m' annotated l) i.
Proof.
  intros Hne. unfold write_back. rewrite !nth_error_map.
  destruct (nth_error (indexed l) i) as [r|] eqn:Er; [|reflexivity].
  cbn [option_map].
  assert (Hi : fst r = i).
  { assert (Hin : In r (indexed l)) by (eapply nth_error_In; exact Er).
    pose proof (indexed_In l r Hin) as Hr.
    assert (Hx : nth_error (indexed l) (fst r) = Some (fst r, snd r))
      by (apply indexed_nth_error, Hr).
    rewrite <- surjective_pairing in Hx.
    pose proof (indexed_NoDup l) as Hnd.
    assert (Hlt : (i < List.length (indexed l))%nat)
      by (apply nth_error_Some; rewrite Er; discriminate).
    assert (Hnd' : NoDup (indexed l)).
    { eapply NoDup_map_inv. exact Hnd. }
    symmetry. eapply (proj1 (NoDup_nth_error (indexed l)) Hnd'); [exact Hlt|].
    now rewrite Er, Hx. }
  rewrite Hi. apply Nat.eqb_neq in Hne. now rewrite Hne.
Qed.

Lemma is_amendment_of_self (x : Doc.t) : is_amendment_of x x = false.
Proof.
  unfold is_amendment_of. rewrite String.eqb_refl. apply andb_false_r.
Qed.

Lemma is_amendment_of_same_id (this x : Doc.t) :
  Doc.id x = Doc.id this -> is_amendment_of this x = false.
Proof.
  intros H. unfold is_amendment_of. rewrite H, String.eqb_refl. apply andb_false_r.
Qed.

Lemma filter_map_commute {A B : Type} (p : B -> bool) (j : A -> B) (l : list A) :
  filter p (map j l) = map j (filter (fun a => p (j a)) l).
Proof.
  induction l as [|a rest IH]; simpl; [reflexivity|].
  destruct (p (j a)); simpl; now rewrite IH.
Qed.

Lemma position_map (k : Ref -> Ref) (i : nat) (l : list Ref) (from : Z) :
  (forall r, fst (k r) = fst r) ->
  position i (map k l) from = position i l from.
Proof.
  intros Hk. revert from. induction l as [|r rest IH]; intros from; simpl; [reflexivity|].
  rewrite Hk. destruct (Nat.eqb (fst r) i); [reflexivity | apply IH].
Qed.

Lemma number_fst (dated : list Ref) (r : Ref) : fst (number dated r) = fst r.
Proof. unfold number. destruct (position _ _ _); reflexivity. Qed.

Lemma number_key (dated : list Ref) (r : Ref) : ref_key (number dated r) = ref_key r.
Proof. unfold number. destruct (position _ _ _); reflexivity. Qed.

Lemma number_dated (dated : list Ref) (r : Ref) : is_dated (number dated r) = is_dated r.
Proof. unfold number. destruct (position _ _ _); reflexivity. Qed.

Lemma number_twice (dated : list Ref) (r : Ref) :
  number dated (number dated r) = number dated r.
Proof.
  unfold number at 2. destruct (position (fst r) dated 1) as [o|] eqn:E.
  - unfold number. simpl. rewrite E. reflexivity.
  - unfold number. rewrite E. reflexivity.
Qed.

Lemma number_renumbered (dated : list Ref) (r : Ref) :
  number (map (number dated) dated) r = number dated r.
Proof.
  unfold number at 1 3.
  now rewrite (position_map (number dated) _ _ _ (number_fst dated)).
Qed.

Lemma stamp_number_stamp (dated : list Ref) (r : Ref) :
  stamp (number dated (stamp r)) = number dated (stamp r).
Proof.
  unfold number. destruct (position _ _ _); destruct r as [i x]; reflexivity.
Qed.

(** The filter of the amendments reads the group and the [id] of [this],
    and of a candidate its group, its [id] and its five dates; the
    annotation writes none of them. *)
Lemma selects_annotated (this this' : Doc.t) (dated : list Ref) (r : Ref) :
  Doc.id this' = Doc.id this ->
  Doc.agreement_group this' = Doc.agreement_group this ->
  selects this' (number dated (stamp r)) = selects this r.
Proof.
  intros Hid Hgroup. unfold selects, is_amendment_of, number.
  rewrite Hid, Hgroup. destruct (position _ _ _); reflexivity.
Qed.

Lemma selects_same (this this' : Doc.t) (r : Ref) :
  Doc.id this' = Doc.id this ->
  Doc.agreement_group this' = Doc.agreement_group this ->
  selects this' r = selects this r.
Proof.
  intros Hid Hgroup. unfold selects, is_amendment_of. now rewrite Hid, Hgroup.
Qed.

(** Running the annotation again, on the collection as the first run left
    it, where the position of [this] holds a document with its [id] and
    its group, finds the same amendments in the same state. *)
Lemma annotated_amendments_again (self : nat) (this this' : Doc.t)
      (allDocs : list Doc.t) :
  nth_error allDocs self = Some this ->
  Doc.id this' = Doc.id this ->
  Doc.agreement_group this' = Doc.agreement_group this ->
  annotated_amendments this'
    (write_back self this' (annotated_amendments this allDocs) allDocs)
  = annotated_amendments this allDocs.
Proof.
  intros Hself Hid Hgroup.
  set (dated := sort_by_key ref_key
                  (filter is_dated (map stamp (filter (selects this) (indexed allDocs))))).
  set (k := fun r => number dated (stamp r)).
  assert (Hk : forall r, fst (k r) = fst r).
  { intros r. unfold k. rewrite number_fst. reflexivity. }
  assert (HA : annotated_amendments this allDocs
               = map k (filter (selects this) (indexed allDocs))).
  { unfold annotated_amendments. fold dated. now rewrite map_map. }
  rewrite HA, (write_back_map self this' k (selects this) allDocs Hk).
  set (g := fun r : Ref => if Nat.eqb (fst r) self then this'
                           else if selects this r then snd (k r) else snd r).
  change (annotated_amendments this' (map g (indexed allDocs))
          = map k (filter (selects this) (indexed allDocs))).
  assert (Hat : forall r : Ref, In r (indexed allDocs) -> fst r = self ->
                                selects this r = false).
  { intros r Hr Hfst. apply indexed_In in Hr. rewrite Hfst, Hself in Hr.
    injection Hr as Hr. unfold selects. rewrite <- Hr. apply is_amendment_of_self. }
  assert (HF : filter (selects this') (indexed (map g (indexed allDocs)))
               = map k (filter (selects this) (indexed allDocs))).
  { rewrite indexed_map, filter_map_commute.
    assert (Hsel : forall r : Ref, In r (indexed allDocs) ->
                                   selects this' (fst r, g r) = selects this r).
    { intros r Hr. unfold g. destruct (Nat.eqb (fst r) self) eqn:Es.
      - apply Nat.eqb_eq in Es. rewrite (Hat r Hr Es).
        unfold selects. cbn [snd]. apply is_amendment_of_self.
      - destruct (selects this r) eqn:E.
        + replace (fst r, snd (k r)) with (k r)
            by (rewrite <- (Hk r); apply surjective_pairing).
          unfold k. rewrite (selects_annotated this this' dated r Hid Hgroup). exact E.
        + replace (fst r, snd r) with r by apply surjective_pairing.
          rewrite (selects_same this this' r Hid Hgroup). exact E. }
    erewrite filter_ext_in; [|exact Hsel].
    apply map_ext_in. intros r Hr. apply filter_In in Hr. destruct Hr as [Hin Hr].
    unfold g. destruct (Nat.eqb (fst r) self) eqn:Es.
    - apply Nat.eqb_eq in Es. rewrite (Hat r Hin Es) in Hr. discriminate Hr.
    - rewrite Hr, <- (Hk r). symmetry. apply surjective_pairing. }
  unfold annotated_amendments at 1. rewrite HF.
  assert (Hstamp : map stamp (map k (filter (selects this) (indexed allDocs)))
                   = map k (filter (selects this) (indexed allDocs))).
  { rewrite map_map. apply map_ext. intros r. apply stamp_number_stamp. }
  rewrite Hstamp.
  assert (Hdated : sort_by_key ref_key
                     (filter is_dated (map k (filter (selects this) (indexed allDocs))))
                   = map (number dated) dated).
  { unfold k. rewrite <- (map_map stamp (number dated)), filter_map_commute.
    rewrite (filter_ext _ is_dated (number_dated dated)).
    apply sort_by_key_map. apply number_key. }
  rewrite Hdated. unfold k. rewrite map_map.
  apply map_ext. intros r. rewrite number_renumbered. apply number_twice.
Qed.

(** Writing back a second time keeps the annotations and replaces what the
    position of [this] holds. *)
Lemma write_back_again (self : nat) (m m' : Doc.t) (this : Doc.t)
      (allDocs : list Doc.t) :
  write_back self m' (annotated_amendments this allDocs)
             (write_back self m (annotated_amendments this allDocs) allDocs)
  = write_back self m' (annotated_amendments this allDocs) allDocs.
Proof.
  set (dated := sort_by_key ref_key
                  (filter is_dated (map stamp (filter (selects this) (indexed allDocs))))).
  set (k := fun r => number dated (stamp r)).
  assert (Hk : forall r, fst (k r) = fst r).
  { intros r. unfold k. rewrite number_fst. reflexivity. }
  assert (HA : annotated_amendments this allDocs
               = map k (filter (selects this) (indexed allDocs))).
  { unfold annotated_amendments. fold dated. now rewrite map_map. }
  rewrite HA, (write_back_map self m k (selects this) allDocs Hk).
  unfold write_back. rewrite indexed_map, map_map. apply map_ext_in.
  intros r Hr. cbn [fst snd].
  rewrite (find_index k (selects this) (indexed allDocs) r Hk (indexed_NoDup allDocs) Hr).
  destruct (Nat.eqb (fst r) self), (selects this r); reflexivity.
Qed.

Lemma overlay_keeps_effective_date (l : list Doc.t) (d : Doc.t) :
  JS.truthy_obj (Doc.effective_date d) = true ->
  JS.truthy_obj (Doc.effective_date (fold_left overlay l d)) = true.
Proof.
  revert d. induction l as [|a rest IH]; intros d H; simpl; [exact H|].
  apply IH. simpl. destruct (Doc.effective_date a); [reflexivity | exact H].
Qed.

Lemma with_date_payment_models_same (x : Doc.t) :
  with_date_payment_models x (Doc.date_payment_models x ++ []) = x.
Proof. rewrite app_nil_r. destruct x; reflexivity. Qed.

Lemma flat_map_snd {B : Type} (f : Doc.t -> list B) (l : list Ref) :
  flat_map f (map snd l) = flat_map (fun r : Ref => f (snd r)) l.
Proof.
  induction l as [|r rest IH]; simpl; [reflexivity|]. now rewrite IH.
Qed.

Lemma processAmendments_skips (self : nat) (this : Doc.t) (allDocs : list Doc.t) :
  nth_error allDocs self = Some this ->
  JS.truthy_obj (Doc.effective_date this) = false
  \/ sorted_amendments this allDocs = [] ->
  processAmendments self allDocs = allDocs.
Proof.
  unfold processAmendments. intros -> [H | H]; rewrite H; [reflexivity|].
  destruct (negb _); reflexivity.
Qed.

Lemma processAmendments_merges (self : nat) (this : Doc.t) (allDocs : list Doc.t) :
  nth_error allDocs self = Some this ->
  JS.truthy_obj (Doc.effective_date this) = true ->
  sorted_amendments this allDocs <> [] ->
  processAmendments self allDocs
  = write_back self (merge_amendments this allDocs)
               (annotated_amendments this allDocs) allDocs.
Proof.
  unfold processAmendments. intros -> -> H. cbn [negb].
  destruct (sorted_amendments this allDocs); [congruence | reflexivity].
Qed.

(** C2 (as amended). The overlay is applied to the document at position
    [self] of the collection, and a second time to the collection as the
    first application left it.  Every other document of the collection is
    after the second application what it was after the first, and so is
    every field of the document itself, among them [effective_date],
    [agreement_terms] and the stored payment events, except
    [date_payment_models]: each application appends the date payment models
    of the amendments, so after the second they are there twice, and the
    schedule generated from them is the schedule of the first application
    followed by the events of the appended models once more. *)
Theorem processAmendments_twice (self : nat) (this : Doc.t) (allDocs : list Doc.t) :
  nth_error allDocs self = Some this ->
  let once := processAmendments self allDocs in
  let twice := processAmendments self once in
  let appended :=
    if JS.truthy_obj (Doc.effective_date this)
    then appended_models this allDocs else [] in
  exists this1 this2 : Doc.t,
    nth_error once self = Some this1
    /\ nth_error twice self = Some this2
    /\ (forall i : nat, i <> self -> nth_error twice i = nth_error once i)
    /\ Doc.effective_date this2 = Doc.effective_date this1
    /\ Doc.agreement_terms this2 = Doc.agreement_terms this1
    /\ Doc.date_payments this2 = Doc.date_payments this1
    /\ this2
       = with_date_payment_models this1 (Doc.date_payment_models this1 ++ appended)
    /\ Doc.date_payment_models this1 = Doc.date_payment_models this ++ appended
    /\ Doc.date_payment_models this2
       = Doc.date_payment_models this ++ appended ++ appended
    /\ (forall fuel : nat,
           calcDatePayments fuel this2
           = events_then (calcDatePayments fuel this1)
                         (date_models_events fuel this1 appended)).
Proof.
  intros Hself once twice appended.
  assert (Hmain : exists this1 this2 : Doc.t,
             nth_error once self = Some this1
             /\ nth_error twice self = Some this2
             /\ (forall i : nat, i <> self -> nth_error twice i = nth_error once i)
             /\ this2
                = with_date_payment_models
                    this1 (Doc.date_payment_models this1 ++ appended)
             /\ Doc.date_payment_models this1
                = Doc.date_payment_models this ++ appended).
  { subst once twice appended.
    destruct (JS.truthy_obj (Doc.effective_date this)) eqn:Heff.
    - destruct (sorted_amendments this allDocs) as [|r0 rest] eqn:Hs.
      + rewrite (processAmendments_skips self this allDocs Hself) by (right; exact Hs).
        rewrite (processAmendments_skips self this allDocs Hself) by (right; exact Hs).
        exists this, this. unfold appended_models. rewrite Hs. cbn [flat_map].
        rewrite with_date_payment_models_same, app_nil_r. auto.
      + assert (Hne : sorted_amendments this allDocs <> []) by (rewrite Hs; discriminate).
        unfold appended_models. clear Hs r0 rest.
        rewrite (processAmendments_merges self this allDocs Hself Heff Hne).
        set (this1 := merge_amendments this allDocs).
        set (docs1 := write_back self this1 (annotated_amendments this allDocs) allDocs).
        set (L := map snd (sorted_amendments this allDocs)).
        assert (Hself1 : nth_error docs1 self = Some this1).
        { unfold docs1. eapply write_back_self. exact Hself. }
        assert (Hid : Doc.id this1 = Doc.id this).
        { unfold this1, merge_amendments. cbn [set_amendments Doc.id].
          apply (fold_overlay_keep Doc.id). reflexivity. }
        assert (Hgroup : Doc.agreement_group this1 = Doc.agreement_group this).
        { unfold this1, merge_amendments. cbn [set_amendments Doc.agreement_group].
          apply (fold_overlay_keep Doc.agreement_group). reflexivity. }
        assert (Heff1 : JS.truthy_obj (Doc.effective_date this1) = true).
        { unfold this1, merge_amendments. cbn [set_amendments Doc.effective_date].
          apply overlay_keeps_effective_date, Heff. }
        assert (Hann : annotated_amendments this1 docs1
                       = annotated_amendments this allDocs).
        { apply annotated_amendments_again; assumption. }
        assert (Hsort : sorted_amendments this1 docs1 = sorted_amendments this allDocs).
        { unfold sorted_amendments. now rewrite Hann. }
        rewrite (processAmendments_merges self this1 docs1 Hself1 Heff1)
          by (rewrite Hsort; exact Hne).
        rewrite Hann.
        pose proof (write_back_again self this1 (merge_amendments this1 docs1)
                                     this allDocs) as Hwb.
        fold docs1 in Hwb. rewrite Hwb. clear Hwb.
        exists this1, (merge_amendments this1 docs1).
        split; [exact Hself1|].
        split; [eapply write_back_self; exact Hself|].
        split; [intros i Hi; unfold docs1; apply write_back_other; exact Hi|].
        split.
        * unfold merge_amendments at 1. rewrite Hsort. fold L.
          unfold this1 at 1. unfold merge_amendments. fold L.
          rewrite fold_overlay_set_amendments, fold_overlay_twice.
          unfold L. rewrite flat_map_snd. reflexivity.
        * unfold this1, merge_amendments. cbn [set_amendments Doc.date_payment_models].
          rewrite fold_overlay_models. rewrite flat_map_snd. reflexivity.
    - rewrite (processAmendments_skips self this allDocs Hself) by (left; exact Heff).
      rewrite (processAmendments_skips self this allDocs Hself) by (left; exact Heff).
      exists this, this. rewrite with_date_payment_models_same, app_nil_r. auto. }
  destruct Hmain as (this1 & this2 & H1 & H2 & Hother & Htwice & Honce).
  exists this1, this2.
  split; [exact H1|]. split; [exact H2|]. split; [exact Hother|].
  split; [rewrite Htwice; reflexivity|].
  split; [rewrite Htwice; reflexivity|].
  split; [rewrite Htwice; reflexivity|].
  split; [exact Htwice|]. split; [exact Honce|].
  split.
  - rewrite Htwice. cbn [with_date_payment_models Doc.date_payment_models].
    rewrite Honce. now rewrite app_assoc.
  - intros fuel. rewrite Htwice. unfold calcDatePayments.
    cbn [with_date_payment_models Doc.date_payment_models].
    rewrite date_models_events_models. apply date_models_events_app.
Qed.

Lemma processAmendments_twice_witness :
  nth_error lease_collection 0 = Some base_lease
  /\ exists this1 this2 : Doc.t,
       nth_error (processAmendments 0 lease_collection) 0 = Some this1
       /\ nth_error (processAmendments 0 (processAmendments 0 lease_collection)) 0
          = Some this2
       /\ Doc.date_payment_models this2
          = Doc.date_payment_models base_lease
              ++ appended_models base_lease lease_collection
              ++ appended_models base_lease lease_collection
       /\ calcDatePayments 100 this2
          = events_then (calcDatePayments 100 this1)
                        (date_models_events 100 this1
                           (appended_models base_lease lease_collection)).
Proof.
  split; [reflexivity|].
  destruct (processAmendments_twice 0 base_lease lease_collection eq_refl)
    as (this1 & this2 & H1 & H2 & _ & _ & _ & _ & _ & _ & Hm & Hs).
  exists this1, this2.
  split; [exact H1|]. split; [exact H2|].
  split; [exact Hm | exact (Hs 100%nat)].
Defined.

(** Counterexample to C2 as stated: the first amendment of the lease carries
    one date payment model; after one application of the overlay the lease
    holds it once, after two applications twice, and the schedule generated
    from the models doubles with it. *)
Lemma processAmendments_twice_duplicates :
  let once := processAmendments 0 lease_collection in
  let twice := processAmendments 0 once in
  option_map (fun x => map DateModel.id (Doc.date_payment_models x))
             (nth_error once 0)
  = Some [Some "annual"%string]
  /\ option_map (fun x => map DateModel.id (Doc.date_payment_models x))
                (nth_error twice 0)
     = Some [Some "annual"%string; Some "annual"%string]
  /\ nth_error twice 0 <> nth_error once 0
  /\ option_map (@List.length Event.t)
                (match nth_error once 0 with
                 | Some x => calcDatePayments 100 x
                 | None => None
                 end)
     = Some 2%nat
  /\ option_map (@List.length Event.t)
                (match nth_error twice 0 with
                 | Some x => calcDatePayments 100 x
                 | None => None
                 end)
     = Some 4%nat.
Proof.
  cbv zeta.
  split; [vm_compute; reflexivity|].
  split; [vm_compute; reflexivity|].
  split.
  - intros H.
    apply (f_equal (option_map
                      (fun x => List.length (Doc.date_payment_models x)))) in H.
    vm_compute in H. discriminate H.
  - split; vm_compute; reflexivity.
Qed.

Example lease_amended :
  let once := processAmendments 0 lease_collection in
  option_map (fun x => map Term.term_ordinal (Doc.agreement_terms x))
             (nth_error once 0)
  = Some [1]
  /\ option_map Doc.amendments (nth_error once 0)
     = Some ["amd-1"%string; "amd-2"%string]
  /\ map Doc.amendment_ordinal once
     = [None; Some 2; None; Some 1].
Proof. vm_compute. repeat split. Qed.

(** * Further properties *)

(** ** The term date resolver run again, and the order of its input *)

Lemma sort_by_key_sorted_same {A : Type} (key : A -> Z) (l : list A) :
  StronglySorted (key_le key) l -> sort_by_key key l = l.
Proof.
  induction 1 as [|x rest Hs IH Hall]; simpl; [reflexivity|].
  rewrite IH. destruct rest as [|y rest']; [reflexivity|]. simpl.
  inversion Hall as [|? ? Hxy _]; subst. unfold key_le in Hxy.
  apply Z.leb_le in Hxy. now rewrite Hxy.
Qed.

Lemma cohort_fold_facts {T : Type} (f : T -> Term.t -> T)
      (term : Term.t) (l l' : list Term.t) :
  (forall acc a b, same_facts a b -> f acc b = f acc a) ->
  Forall2 same_facts l l' ->
  forall acc, fold_left f (filter (same_cohort_upto term) l') acc
              = fold_left f (filter (same_cohort_upto term) l) acc.
Proof.
  intros Hf. induction 1 as [|a b l l' Hab Hl IH]; intros acc; [reflexivity|].
  simpl. assert (Hp : same_cohort_upto term b = same_cohort_upto term a).
  { unfold same_cohort_upto. destruct Hab as (Ho & _ & _ & _ & Hm & _).
    now rewrite Ho, Hm. }
  rewrite Hp. destruct (same_cohort_upto term a); simpl; [|apply IH].
  rewrite (Hf acc a b Hab). apply IH.
Qed.

Lemma calc_cumulative_resolved (l l' : list Term.t) (a b : Term.t) :
  Forall2 same_facts l l' -> same_facts a b ->
  calc_cumulative_increase_amount l' b = calc_cumulative_increase_amount l a
  /\ calc_cumulative_escalation_rate l' b = calc_cumulative_escalation_rate l a.
Proof.
  intros Hl Hab. destruct (calc_cumulative_facts l' a b Hab) as [-> ->].
  unfold calc_cumulative_increase_amount, calc_cumulative_escalation_rate. split.
  - apply cohort_fold_facts; [|exact Hl].
    intros acc x y (_ & _ & _ & _ & _ & _ & Hi & _). now rewrite Hi.
  - apply cohort_fold_facts; [|exact Hl].
    intros acc x y (_ & _ & _ & _ & _ & _ & _ & Hr). now rewrite Hr.
Qed.

Lemma Term_eq (a b : Term.t) :
  same_facts a b ->
  Term.start_date a = Term.start_date b ->
  Term.end_date a = Term.end_date b ->
  Term.cancelled_by_ops a = Term.cancelled_by_ops b ->
  Term.cumulative_increase_amount a = Term.cumulative_increase_amount b ->
  Term.cumulative_escalation_rate a = Term.cumulative_escalation_rate b ->
  Term.periodic_payments a = Term.periodic_payments b ->
  a = b.
Proof.
  unfold same_facts. destruct a, b; simpl.
  intros (? & ? & ? & ? & ? & ? & ? & ?) ? ? ? ? ? ?. subst. reflexivity.
Qed.

Lemma resolve_term_unfold (plus_duration_years : DateTime -> Q -> DateTime)
      (opDetails : OpDetails) (termination : Termination)
      (all : list Term.t) (fs : DateTime) (pe : option DateTime) (term : Term.t) :
  let start := term_start opDetails fs pe term in
  let cut := ops_override opDetails start
               (term_end_calc plus_duration_years termination start term) term in
  let resolved := resolve_term plus_duration_years opDetails termination all fs pe term in
  Term.start_date resolved = Some start
  /\ Term.end_date resolved = Some (fst cut)
  /\ Term.cancelled_by_ops resolved = snd cut || Term.cancelled_by_ops term
  /\ Term.periodic_payments resolved = Term.periodic_payments term.
Proof.
  cbv zeta. unfold resolve_term.
  destruct (ops_override opDetails _ _ term) as [e c]. repeat split.
Qed.

Lemma is_type_facts (name : string) (a b : Term.t) :
  same_facts a b -> is_type name b = is_type name a.
Proof. intros (_ & Ht & _). unfold is_type. now rewrite Ht. Qed.

Lemma term_start_facts (opDetails : OpDetails) (fs : DateTime) (pe : option DateTime)
      (a b : Term.t) :
  same_facts a b -> term_start opDetails fs pe b = term_start opDetails fs pe a.
Proof.
  intros H. unfold term_start, milestone_override.
  rewrite !(is_type_facts _ a b H). destruct H as (_ & _ & He & _). now rewrite He.
Qed.

Lemma term_end_calc_facts (plus_duration_years : DateTime -> Q -> DateTime)
      (termination : Termination) (start : DateTime) (a b : Term.t) :
  same_facts a b ->
  term_end_calc plus_duration_years termination start b
  = term_end_calc plus_duration_years termination start a.
Proof.
  intros (_ & _ & _ & Hl & _). unfold term_end_calc. now rewrite Hl.
Qed.

Lemma ops_override_facts (opDetails : OpDetails) (start end_ : DateTime) (a b : Term.t) :
  same_facts a b ->
  ops_override opDetails start end_ b = ops_override opDetails start end_ a.
Proof.
  intros H. unfold ops_override. now rewrite !(is_type_facts _ a b H).
Qed.

Lemma resolve_term_again (plus_duration_years : DateTime -> Q -> DateTime)
      (opDetails : OpDetails) (termination : Termination)
      (all all' : list Term.t) (fs : DateTime) (pe : option DateTime) (term : Term.t) :
  Forall2 same_facts all all' ->
  resolve_term plus_duration_years opDetails termination all' fs pe
    (resolve_term plus_duration_years opDetails termination all fs pe term)
  = resolve_term plus_duration_years opDetails termination all fs pe term.
Proof.
  intros Hall.
  set (t1 := resolve_term plus_duration_years opDetails termination all fs pe term).
  pose proof (resolve_term_facts plus_duration_years opDetails termination all fs pe term)
    as Hfacts. fold t1 in Hfacts.
  pose proof (resolve_term_facts plus_duration_years opDetails termination all' fs pe t1)
    as Hfacts2.
  pose proof (resolve_term_unfold plus_duration_years opDetails termination all fs pe term)
    as (Hs1 & He1 & Hc1 & Hp1). fold t1 in Hs1, He1, Hc1, Hp1.
  pose proof (resolve_term_unfold plus_duration_years opDetails termination all' fs pe t1)
    as (Hs2 & He2 & Hc2 & Hp2).
  pose proof (resolve_term_cumulative plus_duration_years opDetails termination
                all fs pe term) as (Hi1 & Hr1). fold t1 in Hi1, Hr1.
  pose proof (resolve_term_cumulative plus_duration_years opDetails termination
                all' fs pe t1) as (Hi2 & Hr2).
  destruct (calc_cumulative_resolved all all' term t1 Hall Hfacts) as [Hinc Hrate].
  rewrite (term_start_facts opDetails fs pe term t1 Hfacts) in Hs2, He2, Hc2.
  rewrite (term_end_calc_facts plus_duration_years termination _ term t1 Hfacts)
    in He2, Hc2.
  rewrite (ops_override_facts opDetails _ _ term t1 Hfacts) in He2, Hc2.
  apply Term_eq.
  - unfold same_facts in *. intuition congruence.
  - congruence.
  - congruence.
  - rewrite Hc2, Hc1. now rewrite orb_assoc, orb_diag.
  - congruence.
  - congruence.
  - congruence.
Qed.

Lemma resolve_terms_again (plus_duration_years : DateTime -> Q -> DateTime)
      (opDetails : OpDetails) (termination : Termination)
      (all all' : list Term.t) (fs : DateTime) :
  Forall2 same_facts all all' ->
  forall (todo : list Term.t) (pe : option DateTime),
    resolve_terms plus_duration_years opDetails termination all' fs pe
      (resolve_terms plus_duration_years opDetails termination all fs pe todo)
    = resolve_terms plus_duration_years opDetails termination all fs pe todo.
Proof.
  intros Hall. induction todo as [|t rest IH]; intros pe; simpl; [reflexivity|].
  rewrite (resolve_term_again _ _ _ all all' fs pe t Hall). f_equal. apply IH.
Qed.

(** X1. Resolving the dates of terms that are already resolved, with the same
    dates and operational details, changes nothing. *)
Theorem calcAgreementTermDates_again
        (plus_duration_years : DateTime -> Q -> DateTime)
        (effectiveDate : option DateTime) (opDetails : OpDetails)
        (termination : Termination) (agreementTerms : list Term.t) :
  calcAgreementTermDates plus_duration_years effectiveDate opDetails termination
    (calcAgreementTermDates plus_duration_years effectiveDate opDetails termination
                            agreementTerms)
  = calcAgreementTermDates plus_duration_years effectiveDate opDetails termination
                           agreementTerms.
Proof.
  unfold calcAgreementTermDates.
  destruct (JS.or_obj (commencement_date opDetails) effectiveDate) as [fs|];
    [|reflexivity].
  set (S := sort_by_ordinal agreementTerms).
  set (R := resolve_terms plus_duration_years opDetails termination S fs None S).
  assert (HSR : Forall2 same_facts S R) by apply resolve_terms_facts.
  assert (Hsorted : sort_by_ordinal R = R).
  { apply sort_by_key_sorted_same. eapply Forall2_sorted_facts; [exact HSR|].
    apply sort_by_key_sorted. }
  rewrite Hsorted. apply resolve_terms_again. exact HSR.
Qed.

Lemma key_injective_in {A : Type} (key : A -> Z) (l : list A) (a b : A) :
  NoDup (map key l) -> In a l -> In b l -> key a = key b -> a = b.
Proof.
  induction l as [|x rest IH]; intros Hnd Ha Hb Hk; [contradiction|].
  simpl in Hnd. inversion Hnd as [|? ? Hx Hrest]; subst.
  destruct Ha as [-> | Ha], Hb as [-> | Hb].
  - reflexivity.
  - exfalso. apply Hx. rewrite Hk. apply in_map, Hb.
  - exfalso. apply Hx. rewrite <- Hk. apply in_map, Ha.
  - apply IH; assumption.
Qed.

(** Two sorted arrangements of the same elements with distinct keys are the
    same list. *)
Lemma sorted_arrangement_unique {A : Type} (key : A -> Z) :
  forall l1 l2 : list A,
    NoDup (map key l1) -> Permutation l1 l2 ->
    StronglySorted (key_le key) l1 -> StronglySorted (key_le key) l2 ->
    l1 = l2.
Proof.
  induction l1 as [|a t1 IH]; intros l2 Hnd Hperm Hs1 Hs2.
  - apply Permutation_nil in Hperm. now subst.
  - destruct l2 as [|b t2].
    + apply Permutation_sym, Permutation_nil in Hperm. discriminate.
    + inversion Hs1 as [|? ? Hs1' Hall1]; subst.
      inversion Hs2 as [|? ? Hs2' Hall2]; subst.
      assert (Hab : a = b).
      { assert (Hb : In b (a :: t1)).
        { eapply Permutation_in; [apply Permutation_sym, Hperm | left; reflexivity]. }
        assert (Ha : In a (b :: t2)).
        { eapply Permutation_in; [exact Hperm | left; reflexivity]. }
        apply (key_injective_in key (a :: t1)); [exact Hnd | left; reflexivity | exact Hb |].
        assert (key a <= key b).
        { destruct Hb as [-> | Hb]; [lia|].
          eapply Forall_forall in Hall1; [exact Hall1 | exact Hb]. }
        assert (key b <= key a).
        { destruct Ha as [-> | Ha]; [lia|].
          eapply Forall_forall in Hall2; [exact Hall2 | exact Ha]. }
        lia. }
      subst b. f_equal. apply IH.
      * simpl in Hnd. now inversion Hnd.
      * eapply Permutation_cons_inv. exact Hperm.
      * exact Hs1'.
      * exact Hs2'.
Qed.

Lemma sort_by_key_arrangement {A : Type} (key : A -> Z) (l l' : list A) :
  NoDup (map key l) -> Permutation l l' -> sort_by_key key l = sort_by_key key l'.
Proof.
  intros Hnd Hperm. apply (sorted_arrangement_unique key).
  - eapply Permutation_NoDup; [|exact Hnd].
    apply Permutation_map, Permutation_sym, sort_by_key_perm.
  - eapply perm_trans; [apply sort_by_key_perm|].
    eapply perm_trans; [exact Hperm | apply Permutation_sym, sort_by_key_perm].
  - apply sort_by_key_sorted.
  - apply sort_by_key_sorted.
Qed.

(** X2. When the ordinals of the terms are distinct and there is a date to
    start from, the order in which the document lists its terms does not
    matter: any rearrangement of them resolves to the same terms. *)
Theorem calcAgreementTermDates_any_order
        (plus_duration_years : DateTime -> Q -> DateTime)
        (effectiveDate : option DateTime) (opDetails : OpDetails)
        (termination : Termination) (agreementTerms rearranged : list Term.t) :
  JS.or_obj (commencement_date opDetails) effectiveDate <> None ->
  NoDup (map Term.term_ordinal agreementTerms) ->
  Permutation agreementTerms rearranged ->
  calcAgreementTermDates plus_duration_years effectiveDate opDetails termination rearranged
  = calcAgreementTermDates plus_duration_years effectiveDate opDetails termination
                           agreementTerms.
Proof.
  intros Hdate Hnd Hperm. unfold calcAgreementTermDates.
  destruct (JS.or_obj (commencement_date opDetails) effectiveDate) as [fs|];
    [|congruence].
  unfold sort_by_ordinal.
  now rewrite (sort_by_key_arrangement Term.term_ordinal agreementTerms rearranged Hnd Hperm).
Qed.

Lemma calcAgreementTermDates_any_order_witness :
  calcAgreementTermDates plus_whole_years_and_days (Some (local 2023 1 1)) lease_op_details
                         no_termination (rev lease_terms)
  = lease_resolved.
Proof.
  apply (calcAgreementTermDates_any_order
           plus_whole_years_and_days (Some (local 2023 1 1)) lease_op_details
           no_termination lease_terms (rev lease_terms)).
  - discriminate.
  - vm_compute. repeat constructor; simpl; intuition discriminate.
  - apply Permutation_rev.
Defined.

(** ** Operational dates and the termination date *)

(** A resolved term is the callback applied to a term of the agreement. *)
Lemma resolved_term_origin (plus_duration_years : DateTime -> Q -> DateTime)
      (effectiveDate : option DateTime) (opDetails : OpDetails)
      (termination : Termination) (agreementTerms : list Term.t) (term : Term.t) :
  JS.or_obj (commencement_date opDetails) effectiveDate <> None ->
  In term (calcAgreementTermDates plus_duration_years effectiveDate opDetails termination
                                  agreementTerms) ->
  exists (all : list Term.t) (fs : DateTime) (pe : option DateTime) (src : Term.t),
    In src agreementTerms
    /\ term = resolve_term plus_duration_years opDetails termination all fs pe src.
Proof.
  intros Hdate Hin. unfold calcAgreementTermDates in Hin.
  destruct (JS.or_obj (commencement_date opDetails) effectiveDate) as [fs|];
    [|congruence].
  apply In_nth_error in Hin. destruct Hin as [i Hi].
  pose proof (resolve_terms_nth _ _ _ _ _ _ _ _ _ Hi) as (src & Hsrc & Hterm).
  eexists _, _, _, src. split; [|exact Hterm].
  apply nth_error_In in Hsrc.
  eapply Permutation_in; [apply sort_by_key_perm | exact Hsrc].
Qed.

Lemma getEarliestDateTime_bound (a b : option DateTime) (d : DateTime) :
  a = Some d \/ b = Some d ->
  exists f, getEarliestDateTime a b = Some f /\ f <= d.
Proof.
  unfold getEarliestDateTime. simpl.
  destruct a as [x|], b as [y|]; intros [H|H]; try discriminate;
    injection H as <-; eexists; (split; [reflexivity|]); lia.
Qed.

(** The end date only moves back when the operational dates cut a term. *)
Lemma ops_override_bound (opDetails : OpDetails) (start end_ : DateTime) (term : Term.t) :
  fst (ops_override opDetails start end_ term) <= end_.
Proof.
  unfold ops_override, plus_days, MS_PER_DAY.
  destruct (negb (is_type "Construction" term) && negb (is_type "Operations" term)).
  - destruct (getEarliestDateTime _ _) as [f|]; simpl; [|lia].
    destruct (start >=? f); simpl; [lia|].
    destruct (end_ >=? f) eqn:E; simpl; lia.
  - destruct (is_type "Construction" term); simpl; [|lia].
    destruct (operations_commencement opDetails) as [ops|]; simpl; [|lia].
    destruct (end_ >=? ops) eqn:E; simpl; lia.
Qed.

(** X3. A resolved "Construction" term ends before the operations
    commencement whenever the operational details provide one. *)
Theorem construction_ends_before_operations
        (plus_duration_years : DateTime -> Q -> DateTime)
        (effectiveDate : option DateTime) (opDetails : OpDetails)
        (termination : Termination) (agreementTerms : list Term.t)
        (term : Term.t) (ops : DateTime) :
  JS.or_obj (commencement_date opDetails) effectiveDate <> None ->
  In term (calcAgreementTermDates plus_duration_years effectiveDate opDetails termination
                                  agreementTerms) ->
  Term.term_type term = Some "Construction"%string ->
  operations_commencement opDetails = Some ops ->
  exists end_date : DateTime, Term.end_date term = Some end_date /\ end_date < ops.
Proof.
  intros Hdate Hin Htype Hops.
  destruct (resolved_term_origin _ _ _ _ _ _ Hdate Hin) as (all & fs & pe & src & _ & ->).
  pose proof (resolve_term_facts plus_duration_years opDetails termination all fs pe src)
    as (_ & Ht & _).
  pose proof (resolve_term_unfold plus_duration_years opDetails termination all fs pe src)
    as (_ & He & _).
  rewrite He. eexists. split; [reflexivity|].
  rewrite <- Ht in Htype.
  assert (Hc : is_type "Construction" src = true) by (apply strict_eq_str_Some, Htype).
  assert (Ho : is_type "Operations" src = false).
  { unfold is_type. rewrite Htype. reflexivity. }
  unfold ops_override. rewrite Hc, Ho, Hops. cbn [negb andb].
  destruct (_ >=? ops) eqn:E; cbn [fst snd]; unfold plus_days, MS_PER_DAY; lia.
Qed.

Lemma construction_ends_before_operations_witness :
  exists end_date : DateTime,
    Term.end_date (nth 1 lease_resolved option_term) = Some end_date
    /\ end_date < local 2026 1 1.
Proof.
  apply (construction_ends_before_operations
           plus_whole_years_and_days (Some (local 2023 1 1)) lease_op_details
           no_termination lease_terms).
  - discriminate.
  - apply nth_In. vm_compute. lia.
  - vm_compute. reflexivity.
  - reflexivity.
Defined.

(** X4. A resolved term that is neither "Construction" nor "Operations" is
    cancelled when it starts on or after a provided construction or
    operations commencement, and otherwise it is cancelled or ends before
    that date. *)
Theorem development_term_yields_to_operations
        (plus_duration_years : DateTime -> Q -> DateTime)
        (effectiveDate : option DateTime) (opDetails : OpDetails)
        (termination : Termination) (agreementTerms : list Term.t)
        (term : Term.t) (d : DateTime) :
  JS.or_obj (commencement_date opDetails) effectiveDate <> None ->
  In term (calcAgreementTermDates plus_duration_years effectiveDate opDetails termination
                                  agreementTerms) ->
  Term.term_type term <> Some "Construction"%string ->
  Term.term_type term <> Some "Operations"%string ->
  construction_commencement opDetails = Some d
  \/ operations_commencement opDetails = Some d ->
  exists start_date end_date : DateTime,
    Term.start_date term = Some start_date
    /\ Term.end_date term = Some end_date
    /\ (d <= start_date -> Term.cancelled_by_ops term = true)
    /\ (Term.cancelled_by_ops term = true \/ end_date < d).
Proof.
  intros Hdate Hin Hc Ho Hd.
  destruct (resolved_term_origin _ _ _ _ _ _ Hdate Hin) as (all & fs & pe & src & _ & ->).
  pose proof (resolve_term_facts plus_duration_years opDetails termination all fs pe src)
    as (_ & Ht & _).
  pose proof (resolve_term_unfold plus_duration_years opDetails termination all fs pe src)
    as (Hs & He & Hcan & _).
  rewrite Hs, He, Hcan. eexists _, _. split; [reflexivity|]. split; [reflexivity|].
  rewrite <- Ht in Hc, Ho.
  assert (Hnc : is_type "Construction" src = false).
  { destruct (is_type "Construction" src) eqn:E; [|reflexivity].
    apply strict_eq_str_Some in E. contradiction. }
  assert (Hno : is_type "Operations" src = false).
  { destruct (is_type "Operations" src) eqn:E; [|reflexivity].
    apply strict_eq_str_Some in E. contradiction. }
  destruct (getEarliestDateTime_bound _ _ d Hd) as (f & Hf & Hfd).
  unfold ops_override. rewrite Hnc, Hno, Hf. cbn [negb andb].
  set (start := term_start opDetails fs pe src).
  set (end_ := term_end_calc plus_duration_years termination start src).
  destruct (start >=? f) eqn:E1; cbn [fst snd orb].
  - split; [reflexivity | left; reflexivity].
  - split; [lia|].
    destruct (end_ >=? f) eqn:E2; cbn [fst snd]; right; unfold plus_days, MS_PER_DAY; lia.
Qed.

Lemma development_term_yields_to_operations_witness :
  exists start_date end_date : DateTime,
    Term.start_date (nth 0 lease_resolved option_term) = Some start_date
    /\ Term.end_date (nth 0 lease_resolved option_term) = Some end_date
    /\ (local 2026 1 1 <= start_date
        -> Term.cancelled_by_ops (nth 0 lease_resolved option_term) = true)
    /\ (Term.cancelled_by_ops (nth 0 lease_resolved option_term) = true
        \/ end_date < local 2026 1 1).
Proof.
  apply (development_term_yields_to_operations
           plus_whole_years_and_days (Some (local 2023 1 1)) lease_op_details
           no_termination lease_terms).
  - discriminate.
  - apply nth_In. vm_compute. lia.
  - vm_compute. discriminate.
  - vm_compute. discriminate.
  - right. reflexivity.
Defined.

(** X5. No resolved term ends after the termination date. *)
Theorem term_ends_by_termination
        (plus_duration_years : DateTime -> Q -> DateTime)
        (effectiveDate : option DateTime) (opDetails : OpDetails)
        (termination : Termination) (agreementTerms : list Term.t)
        (term : Term.t) (terminated : DateTime) :
  JS.or_obj (commencement_date opDetails) effectiveDate <> None ->
  In term (calcAgreementTermDates plus_duration_years effectiveDate opDetails termination
                                  agreementTerms) ->
  termination_date termination = Some terminated ->
  exists end_date : DateTime, Term.end_date term = Some end_date /\ end_date <= terminated.
Proof.
  intros Hdate Hin Ht.
  destruct (resolved_term_origin _ _ _ _ _ _ Hdate Hin) as (all & fs & pe & src & _ & ->).
  pose proof (resolve_term_unfold plus_duration_years opDetails termination all fs pe src)
    as (_ & He & _).
  rewrite He. eexists. split; [reflexivity|].
  eapply Z.le_trans; [apply ops_override_bound|].
  unfold term_end_calc. rewrite Ht. unfold getEarliestDateTime. simpl. lia.
Qed.

Lemma term_ends_by_termination_witness :
  exists end_date : DateTime,
    Term.end_date
      (nth 0 (calcAgreementTermDates plus_whole_years_and_days (Some (local 2023 1 1))
                                     lease_op_details terminated_early lease_terms)
           option_term)
    = Some end_date
    /\ end_date <= local 2024 3 31.
Proof.
  apply (term_ends_by_termination
           plus_whole_years_and_days (Some (local 2023 1 1)) lease_op_details
           terminated_early lease_terms).
  - discriminate.
  - apply nth_In. vm_compute. lia.
  - reflexivity.
Defined.

(** ** The window of the date based generator *)

Lemma getEarliestDateTimeFromArray_none (l : list (option DateTime)) (d : DateTime) :
  getEarliestDateTimeFromArray l = None -> ~ In (Some d) l.
Proof.
  induction l as [|[x|] rest IH]; simpl; intros He Hin.
  - exact Hin.
  - destruct (getEarliestDateTimeFromArray rest); discriminate.
  - destruct Hin as [H|Hin]; [discriminate|]. exact (IH He Hin).
Qed.

Lemma getEarliestDateTimeFromArray_le (l : list (option DateTime)) (e d : DateTime) :
  getEarliestDateTimeFromArray l = Some e -> In (Some d) l -> e <= d.
Proof.
  revert e. induction l as [|[x|] rest IH]; intros e He Hin; simpl in *.
  - contradiction.
  - destruct (getEarliestDateTimeFromArray rest) as [m|] eqn:Em.
    + injection He as <-. destruct Hin as [H|Hin].
      * injection H as ->. lia.
      * specialize (IH m eq_refl Hin). lia.
    + injection He as <-. destruct Hin as [H|Hin].
      * injection H as ->. lia.
      * exfalso. exact (getEarliestDateTimeFromArray_none rest d Em Hin).
  - destruct Hin as [H|Hin]; [discriminate|]. apply IH; assumption.
Qed.

Lemma date_grantor_events_date (this : Doc.t) (model : DateModel.t) (d : DateTime)
      (period : Z) (amount : Q) (e : Event.t) :
  In e (date_grantor_events this model d period amount) ->
  Event.payment_date e = d /\ Event.payment_index e = Some (period - 1).
Proof.
  unfold date_grantor_events. rewrite in_map_iff. intros (g & <- & _). split; reflexivity.
Qed.

(** Every event of the loop is dated from the first payment date on, not
    after the end date and not after the purchase. *)
Lemma date_model_loop_bounds (this : Doc.t) (model : DateModel.t) (amount : Q)
      (last : DateTime) :
  forall (fuel : nat) (d : DateTime) (period : Z) (events : list Event.t) (e : Event.t),
    date_model_loop fuel this model amount last d period = Some events ->
    In e events ->
    d <= Event.payment_date e <= last
    /\ (forall p, Doc.date_purchased this = Some p -> Event.payment_date e <= p).
Proof.
  induction fuel as [|fuel IH]; intros d period events e H Hin; [discriminate H|].
  simpl in H. destruct (d <=? last) eqn:E; [|injection H as <-; contradiction].
  apply Z.leb_le in E.
  destruct (match Doc.date_purchased this with
            | Some purchased => d >? purchased
            | None => false
            end) eqn:Ep; [injection H as <-; contradiction|].
  assert (Hhere : forall e, In e (date_grantor_events this model d period
                                    (date_payment_amount model amount period)) ->
                  d <= Event.payment_date e <= last
                  /\ (forall p, Doc.date_purchased this = Some p -> Event.payment_date e <= p)).
  { intros e' He'. apply date_grantor_events_date in He'. destruct He' as [-> _].
    split; [lia|]. intros p Hp. rewrite Hp in Ep. lia. }
  destruct (next_payment_date (DateModel.frequency model) d) as [d'|] eqn:En.
  - destruct (date_model_loop fuel this model amount last d' (period + 1)) as [later|] eqn:El;
      [|discriminate H].
    injection H as <-. apply in_app_or in Hin. destruct Hin as [Hin|Hin].
    + apply Hhere, Hin.
    + pose proof (next_payment_date_advances _ _ _ En) as Hadv.
      destruct (IH d' (period + 1) later e El Hin) as [[H1 H2] H3].
      unfold MS_PER_DAY in Hadv. split; [lia | exact H3].
  - injection H as <-. apply Hhere, Hin.
Qed.

Lemma date_models_events_in (fuel : nat) (this : Doc.t) :
  forall (models : list DateModel.t) (events : list Event.t) (e : Event.t),
    date_models_events fuel this models = Some events -> In e events ->
    exists (model : DateModel.t) (own : list Event.t),
      In model models /\ date_model_events fuel this model = Some own /\ In e own.
Proof.
  induction models as [|model rest IH]; intros events e H Hin; simpl in H.
  - injection H as <-. contradiction.
  - destruct (date_model_events fuel this model) as [own|] eqn:Eo; [|discriminate H].
    destruct (date_models_events fuel this rest) as [later|] eqn:El; [|discriminate H].
    injection H as <-. apply in_app_or in Hin. destruct Hin as [Hin|Hin].
    + exists model, own. split; [left; reflexivity|]. split; [exact Eo | exact Hin].
    + destruct (IH later e eq_refl Hin) as (m & o & Hm & Ho & He).
      exists m, o. split; [right; exact Hm|]. split; assumption.
Qed.

(** X7. Every date payment comes from a model of the agreement and is dated
    within the window of that model: from its one-time date, or else its
    begin date, on; not after its end date nor its one-time date; and not
    after the termination date or the purchase date of the agreement. *)
Theorem calcDatePayments_within_window (fuel : nat) (this : Doc.t)
        (events : list Event.t) (e : Event.t) :
  calcDatePayments fuel this = Some events ->
  In e events ->
  exists (model : DateModel.t) (first : DateTime),
    In model (Doc.date_payment_models this)
    /\ JS.nullish_opt (DateModel.date_one_time model) (DateModel.date_begin model)
       = Some first
    /\ first <= Event.payment_date e
    /\ (forall d, DateModel.date_end model = Some d -> Event.payment_date e <= d)
    /\ (forall d, DateModel.date_one_time model = Some d -> Event.payment_date e = d)
    /\ (forall d, termination_date (Doc.termination this) = Some d ->
                  Event.payment_date e <= d)
    /\ (forall d, Doc.date_purchased this = Some d -> Event.payment_date e <= d).
Proof.
  intros H Hin. unfold calcDatePayments in H.
  destruct (date_models_events_in fuel this _ _ e H Hin) as (model & own & Hm & Ho & He).
  exists model. unfold date_model_events in Ho.
  destruct (date_model_complete this model); [|injection Ho as <-; contradiction].
  destruct (JS.nullish_opt (DateModel.date_one_time model) (DateModel.date_begin model))
    as [first|] eqn:Ef; [|injection Ho as <-; contradiction].
  destruct (getEarliestDateTimeFromArray _) as [last|] eqn:El;
    [|injection Ho as <-; contradiction].
  destruct (DateModel.payment_amount model) as [amount|];
    [|injection Ho as <-; contradiction].
  destruct (date_model_loop_bounds this model amount last fuel first 1 own e Ho He)
    as [[H1 H2] H3].
  exists first. split; [exact Hm|]. split; [reflexivity|]. split; [exact H1|].
  assert (Hle : forall d, In (Some d) [termination_date (Doc.termination this);
                                       DateModel.date_one_time model;
                                       DateModel.date_end model] -> last <= d).
  { intros d Hd. exact (getEarliestDateTimeFromArray_le _ _ _ El Hd). }
  split; [|split; [|split]].
  - intros d Hd. specialize (Hle d). simpl in Hle. rewrite Hd in Hle.
    specialize (Hle (or_intror (or_intror (or_introl eq_refl)))). lia.
  - intros d Hd. specialize (Hle d). simpl in Hle. rewrite Hd in Hle, Ef.
    specialize (Hle (or_intror (or_introl eq_refl))). simpl in Ef.
    injection Ef as <-. lia.
  - intros d Hd. specialize (Hle d). simpl in Hle. rewrite Hd in Hle.
    specialize (Hle (or_introl eq_refl)). lia.
  - exact H3.
Qed.

Lemma calcDatePayments_within_window_witness :
  exists e : Event.t,
    nth_error (finished (calcDatePayments 10 (terminated_doc [quarterly_model]))) 0 = Some e
    /\ Event.payment_date e <= local 2024 3 31.
Proof.
  exists (nth 0 (finished (calcDatePayments 10 (terminated_doc [quarterly_model])))
              (sample_event "none" 0 0 false)).
  split; [vm_compute; reflexivity|].
  destruct (calcDatePayments_within_window
              10 (terminated_doc [quarterly_model])
              (finished (calcDatePayments 10 (terminated_doc [quarterly_model])))
              (nth 0 (finished (calcDatePayments 10 (terminated_doc [quarterly_model])))
                   (sample_event "none" 0 0 false)))
    as (model & first & _ & _ & _ & _ & _ & Hterminated & _).
  - vm_compute. reflexivity.
  - apply nth_In. vm_compute. lia.
  - apply Hterminated. reflexivity.
Defined.

(** ** One-time models *)

Lemma date_model_loop_past (fuel : nat) (this : Doc.t) (model : DateModel.t) (amount : Q)
      (last d : DateTime) (period : Z) :
  last < d -> date_model_loop (S fuel) this model amount last d period = Some [].
Proof.
  intros H. simpl. destruct (d <=? last) eqn:E; [apply Z.leb_le in E; lia | reflexivity].
Qed.

Lemma date_payment_amount_first (model : DateModel.t) (amount : Q) :
  (date_payment_amount model amount 1
   == amount * (1 + JS.nullish (DateModel.periodic_escalation_rate model) 0 / 100))%Q.
Proof.
  unfold date_payment_amount, calculateCompoundingGrowth. simpl Z.sub.
  change (Qpower ?q 1) with (Qpower_positive q 1). simpl Qpower_positive.
  unfold inject_Z. ring.
Qed.

(** X8. A model with a one-time date is paid at most once, whatever its
    frequency, begin and end dates say: its schedule is empty, or it is the
    one payment on that date, one event per grantor.  The amount handed out
    is the stated amount escalated by one period already. *)
Theorem one_time_model_pays_once (fuel : nat) (this : Doc.t) (model : DateModel.t)
        (d : DateTime) (amount : Q) :
  (2 <= fuel)%nat ->
  DateModel.date_one_time model = Some d ->
  DateModel.payment_amount model = Some amount ->
  exists events : list Event.t,
    date_model_events fuel this model = Some events
    /\ (events = []
        \/ events = date_grantor_events this model d 1 (date_payment_amount model amount 1))
    /\ (date_payment_amount model amount 1
        == amount * (1 + JS.nullish (DateModel.periodic_escalation_rate model) 0 / 100))%Q.
Proof.
  intros Hfuel Hd Ha.
  assert (Hrun : exists events,
             date_model_events fuel this model = Some events
             /\ (events = []
                 \/ events = date_grantor_events this model d 1
                               (date_payment_amount model amount 1))).
  { unfold date_model_events. rewrite Hd, Ha. cbn [JS.nullish_opt].
    destruct (date_model_complete this model); [|exists []; auto].
    destruct (getEarliestDateTimeFromArray _) as [last|] eqn:El; [|exists []; auto].
    assert (Hlast : last <= d).
    { apply (getEarliestDateTimeFromArray_le _ _ _ El). right. left. reflexivity. }
    destruct fuel as [|[|fuel]]; [lia | lia |].
    cbn [date_model_loop].
    destruct (d <=? last); [|exists []; auto].
    destruct (match Doc.date_purchased this with
              | Some purchased => d >? purchased
              | None => false
              end); [exists []; auto|].
    destruct (next_payment_date (DateModel.frequency model) d) as [d'|] eqn:En.
    - pose proof (next_payment_date_advances _ _ _ En) as Hadv.
      unfold MS_PER_DAY in Hadv.
      destruct (d' <=? last) eqn:E'; [apply Z.leb_le in E'; lia|].
      rewrite app_nil_r. eexists. split; [reflexivity | right; reflexivity].
    - eexists. split; [reflexivity | right; reflexivity]. }
  destruct Hrun as (events & Hev & Hshape).
  exists events. split; [exact Hev|]. split; [exact Hshape|].
  apply date_payment_amount_first.
Qed.

Lemma one_time_model_pays_once_witness :
  exists events : list Event.t,
    date_model_events 5 (dated_doc [signing_bonus]) signing_bonus = Some events
    /\ (List.length events <= 1)%nat.
Proof.
  destruct (one_time_model_pays_once 5 (dated_doc [signing_bonus]) signing_bonus
                                     (local 2024 2 15) 5000)
    as (events & Hev & Hshape & _).
  - lia.
  - reflexivity.
  - reflexivity.
  - exists events. split; [exact Hev|].
    destruct Hshape as [-> | ->]; simpl; lia.
Defined.

Example signing_bonus_schedule :
  option_map (map (fun e => (Event.payment_index e, Event.payment_date e,
                             Qred (Event.payment_amount e))))
             (calcDatePayments 5 (dated_doc [signing_bonus]))
  = Some [ (Some 0, local 2024 2 15, 5150%Q) ].
Proof. vm_compute. reflexivity. Qed.

(** ** Explicit and default percentages side by side *)

Lemma share_total_part (c : Q) (part : list Grantor) :
  (Qsum (map (fun g => JS.nullish (payment_split g) c / 100) part)
   == (splits_total part + count (without_split part) * c) / 100)%Q.
Proof.
  induction part as [|g rest IH].
  - unfold splits_total, count. simpl. field.
  - unfold splits_total, without_split, Qsum in *.
    cbn [map fold_right filter]. rewrite IH.
    destruct (payment_split g) as [sp|]; cbn [JS.nullish].
    + field.
    + unfold count. cbn [List.length]. rewrite Nat2Z.inj_succ. unfold Z.succ.
      rewrite inject_Z_plus. field.
Qed.

Lemma split_share_total_part (grantor part : list Grantor) :
  (Qsum (map (split_share grantor) part)
   == (splits_total part + count (without_split part) * (100 / count grantor)) / 100)%Q.
Proof. apply share_total_part. Qed.

(** X9. In the date based, the standard and the settlement loop the grantors
    together receive, of every payment, the explicit percentages plus an
    equal share of 100 percent for each grantor without one: with a
    percentage on some grantors only, more or less than the payment is
    handed out. *)
Theorem grantors_receive_handed_out :
  (forall (this : Doc.t) (model : DateModel.t) (payment_date : DateTime) (period : Z)
          (amount : Q),
      (sum_amounts (date_grantor_events this model payment_date period amount)
       == amount * handed_out (Doc.grantor this))%Q)
  /\ (forall (term : Term.t) (model : TermModel.t) (grantor : list Grantor)
             (project_id : option string) (outside_date : option DateTime)
             (periodic_payment : Q) (i : Z) (payment_date : DateTime)
             (late_payment_date : option DateTime) (period_start period_end : DateTime)
             (prorata_factor previous_periods : Q) (escalation_periods : Z),
         (sum_amounts
            (standard_grantor_events term model grantor project_id outside_date
               periodic_payment i payment_date late_payment_date period_start period_end
               prorata_factor previous_periods escalation_periods)
          == standard_total_payment model periodic_payment i escalation_periods
                                    prorata_factor
             * handed_out grantor)%Q)
  /\ (forall this : Doc.t,
         (sum_amounts (settlement_events this)
          == if settlement_due this
             then (JS.nullish (Doc.full_purchase_price this) 0
                   - previous_applicable_payments this)
                  * handed_out (Doc.grantor this)
             else 0)%Q)
  /\ (handed_out sixty_and_rest == 11 # 10)%Q.
Proof.
  split; [|split; [|split]].
  - intros this model payment_date period amount.
    unfold date_grantor_events, handed_out. rewrite sum_amounts_map. cbn [Event.payment_amount].
    rewrite Qsum_scale, split_share_total_part. reflexivity.
  - intros. unfold standard_grantor_events, handed_out. rewrite sum_amounts_map.
    cbn [Event.payment_amount].
    rewrite <- split_share_total_part, <- Qsum_scale. apply Qsum_ext. intros g _.
    unfold standard_total_payment, calculateCompoundingGrowth. ring.
  - intros this. unfold settlement_events.
    destruct (settlement_due this) eqn:Hdue.
    + unfold settlement_due in Hdue.
      destruct (JS.nullish_opt (Doc.date_purchased this) (Doc.estimated_closing_date this))
        as [closing|]; [|discriminate Hdue].
      destruct (Doc.full_purchase_price this) as [price|]; [|discriminate Hdue].
      rewrite sum_amounts_map. cbn [Event.payment_amount JS.nullish].
      rewrite Qsum_scale. unfold handed_out. rewrite split_share_total_part. reflexivity.
    + destruct (JS.nullish_opt _ _); [|reflexivity].
      destruct (Doc.full_purchase_price this); reflexivity.
  - vm_compute. reflexivity.
Qed.

(** ** The settlement once it has run *)

Lemma filter_map_all {A B : Type} (p : B -> bool) (f : A -> B) (l : list A) :
  (forall a, p (f a) = true) -> filter p (map f l) = map f l.
Proof.
  intros H. induction l as [|a rest IH]; simpl; [reflexivity|].
  rewrite H, IH. reflexivity.
Qed.

Lemma settlement_events_applicable (this : Doc.t) :
  filter Event.applicable_to_purchase (settlement_events this) = settlement_events this.
Proof.
  unfold settlement_events.
  destruct (JS.nullish_opt _ _); [|reflexivity].
  destruct (Doc.full_purchase_price this); [|reflexivity].
  destruct (settlement_due this); [|reflexivity].
  apply filter_map_all. reflexivity.
Qed.

Lemma settlement_events_length (this : Doc.t) :
  settlement_due this = true ->
  List.length (settlement_events this) = List.length (Doc.grantor this).
Proof.
  intros Hdue. unfold settlement_events. rewrite Hdue. unfold settlement_due in Hdue.
  destruct (JS.nullish_opt _ _); [|discriminate Hdue].
  destruct (Doc.full_purchase_price this); [|discriminate Hdue].
  apply length_map.
Qed.

Lemma settlement_events_total (this : Doc.t) (price : Q) :
  Doc.full_purchase_price this = Some price ->
  settlement_due this = true ->
  (sum_amounts (settlement_events this)
   == (price - previous_applicable_payments this) * handed_out (Doc.grantor this))%Q.
Proof.
  intros Hprice Hdue. unfold settlement_events. rewrite Hprice, Hdue.
  unfold settlement_due in Hdue.
  destruct (JS.nullish_opt (Doc.date_purchased this) (Doc.estimated_closing_date this))
    as [closing|]; [|discriminate Hdue].
  rewrite sum_amounts_map. cbn [Event.payment_amount].
  rewrite Qsum_scale. unfold handed_out. rewrite split_share_total_part. reflexivity.
Qed.

Lemma calcEstimatedPurchasePrice_due (this : Doc.t) :
  settlement_due this = true ->
  calcEstimatedPurchasePrice this = Doc.date_payments this ++ settlement_events this.
Proof.
  intros Hdue. unfold calcEstimatedPurchasePrice. unfold settlement_due in Hdue.
  destruct (JS.truthy_num (Doc.full_purchase_price this));
    [|rewrite andb_false_r in Hdue; discriminate Hdue].
  destruct (Doc.date_purchased this), (Doc.estimated_closing_date this);
    try reflexivity; discriminate Hdue.
Qed.

(** X10. Where a settlement is due and the grantors receive the whole of a
    payment, the payments applicable to the purchase add up to the full
    purchase price once the settlement has run; running it again appends
    one more event per grantor, each of amount zero. *)
Theorem calcEstimatedPurchasePrice_completes_price (this : Doc.t) (price : Q) :
  Doc.full_purchase_price this = Some price ->
  settlement_due this = true ->
  (handed_out (Doc.grantor this) == 1)%Q ->
  let settled := with_date_payments this (calcEstimatedPurchasePrice this) in
  (previous_applicable_payments settled == price)%Q
  /\ calcEstimatedPurchasePrice settled
     = calcEstimatedPurchasePrice this ++ settlement_events settled
  /\ List.length (settlement_events settled) = List.length (Doc.grantor this)
  /\ Forall (fun e => (Event.payment_amount e == 0)%Q) (settlement_events settled).
Proof.
  intros Hprice Hdue Hone settled.
  assert (Hdue' : settlement_due settled = true) by exact Hdue.
  assert (Hpaid : (previous_applicable_payments settled == price)%Q).
  { unfold previous_applicable_payments, settled. cbn [with_date_payments Doc.agreement_terms
                                                      Doc.date_payments].
    rewrite (calcEstimatedPurchasePrice_due this Hdue), filter_app, sum_amounts_app,
      settlement_events_applicable, (settlement_events_total this price Hprice Hdue), Hone.
    unfold previous_applicable_payments. ring. }
  split; [exact Hpaid|]. split; [|split].
  - rewrite (calcEstimatedPurchasePrice_due settled Hdue'). reflexivity.
  - rewrite (settlement_events_length settled Hdue'). reflexivity.
  - unfold settlement_events at 1. rewrite Hdue'.
    change (Doc.full_purchase_price settled) with (Doc.full_purchase_price this).
    rewrite Hprice.
    destruct (JS.nullish_opt (Doc.date_purchased settled)
                             (Doc.estimated_closing_date settled)); [|constructor].
    apply Forall_forall. intros e He. apply in_map_iff in He.
    destruct He as (g & <- & _). cbn [Event.payment_amount]. rewrite Hpaid. ring.
Qed.

Lemma calcEstimatedPurchasePrice_completes_price_witness :
  (previous_applicable_payments
     (with_date_payments purchase_doc (calcEstimatedPurchasePrice purchase_doc))
   == 100000)%Q.
Proof.
  apply (calcEstimatedPurchasePrice_completes_price purchase_doc 100000).
  - reflexivity.
  - reflexivity.
  - vm_compute. reflexivity.
Defined.

(** ** Which amendment a fact is taken from *)

Lemma ow_fold_same {A T : Type} (pf : A -> option T) (l : list A) (v : T) :
  (forall r, In r l -> pf r = None \/ pf r = Some v) ->
  fold_left (fun acc r => ow (pf r) acc) l v = v.
Proof.
  induction l as [|r rest IH]; intros H; simpl; [reflexivity|].
  destruct (H r (or_introl eq_refl)) as [-> | ->]; simpl; apply IH;
    intros r' Hr'; apply H; right; exact Hr'.
Qed.

Lemma ow_fold_none {A T : Type} (pf : A -> option T) (l : list A) (x : T) :
  (forall r, In r l -> pf r = None) ->
  fold_left (fun acc r => ow (pf r) acc) l x = x.
Proof.
  induction l as [|r rest IH]; intros H; simpl; [reflexivity|].
  rewrite (H r (or_introl eq_refl)). simpl. apply IH.
  intros r' Hr'. apply H. right. exact Hr'.
Qed.

(** In a fold of overwrites over a list in key order, the value is that of
    the supplier that every other supplier precedes. *)
Lemma ow_fold_latest {A T : Type} (key : A -> Z) (pf : A -> option T) (a : A) (v : T) :
  pf a = Some v ->
  forall (l : list A) (x : T),
    StronglySorted (key_le key) l ->
    In a l ->
    (forall r, In r l -> pf r <> None -> r = a \/ key r < key a) ->
    fold_left (fun acc r => ow (pf r) acc) l x = v.
Proof.
  intros Ha. induction l as [|r rest IH]; intros x Hs Hin Hlate; [contradiction|].
  inversion Hs as [|? ? Hrest Hall]; subst. simpl.
  destruct Hin as [-> | Hin].
  - rewrite Ha. simpl. apply ow_fold_same. intros r Hr.
    destruct (pf r) as [w|] eqn:E; [|left; reflexivity]. right.
    destruct (Hlate r (or_intror Hr)) as [-> | Hlt]; [congruence | congruence |].
    eapply Forall_forall in Hall; [|exact Hr]. unfold key_le in Hall. lia.
  - apply IH; [exact Hrest | exact Hin |].
    intros r' Hr'. apply Hlate. right. exact Hr'.
Qed.

Lemma fold_left_map_snd {T : Type} (g : T -> Doc.t -> T) (l : list Ref) (x : T) :
  fold_left g (map snd l) x = fold_left (fun acc (r : Ref) => g acc (snd r)) l x.
Proof.
  revert x. induction l as [|r rest IH]; intros x; simpl; [reflexivity|]. apply IH.
Qed.

Lemma sorted_amendments_sorted (this : Doc.t) (allDocs : list Doc.t) :
  StronglySorted (key_le ref_key) (sorted_amendments this allDocs).
Proof. apply sort_by_key_sorted. Qed.

(** What the position of [this] holds after [processAmendments]. *)
Lemma processAmendments_self (self : nat) (this : Doc.t) (allDocs : list Doc.t) :
  nth_error allDocs self = Some this ->
  JS.truthy_obj (Doc.effective_date this) = true ->
  nth_error (processAmendments self allDocs) self
  = Some match sorted_amendments this allDocs with
         | [] => this
         | _ :: _ => merge_amendments this allDocs
         end.
Proof.
  intros Hself Heff.
  destruct (sorted_amendments this allDocs) as [|r rest] eqn:Es.
  - rewrite (processAmendments_skips self this allDocs Hself) by (right; exact Es).
    exact Hself.
  - rewrite (processAmendments_merges self this allDocs Hself Heff)
      by (rewrite Es; discriminate).
    eapply write_back_self. exact Hself.
Qed.

(** A fact that the overlay overwrites, after [processAmendments]. *)
Lemma processAmendments_fact {T : Type} (f : Doc.t -> T) (pf : Doc.t -> option T)
      (self : nat) (this : Doc.t) (allDocs : list Doc.t) :
  (forall d a, f (overlay d a) = ow (pf a) (f d)) ->
  (forall d ids, f (set_amendments d ids) = f d) ->
  nth_error allDocs self = Some this ->
  JS.truthy_obj (Doc.effective_date this) = true ->
  exists merged : Doc.t,
    nth_error (processAmendments self allDocs) self = Some merged
    /\ f merged
       = fold_left (fun acc (r : Ref) => ow (pf (snd r)) acc)
                   (sorted_amendments this allDocs) (f this).
Proof.
  intros Hf Hset Hself Heff.
  eexists. split; [apply (processAmendments_self self this allDocs Hself Heff)|].
  destruct (sorted_amendments this allDocs) as [|r rest] eqn:Es; [reflexivity|].
  unfold merge_amendments.
  rewrite Hset, (fold_overlay_ow f pf Hf), fold_left_map_snd, Es. reflexivity.
Qed.

Lemma processAmendments_latest {T : Type} (f : Doc.t -> T) (pf : Doc.t -> option T)
      (self : nat) (this merged : Doc.t) (allDocs : list Doc.t) (a : Ref) (v : T) :
  (forall d a, f (overlay d a) = ow (pf a) (f d)) ->
  (forall d ids, f (set_amendments d ids) = f d) ->
  nth_error allDocs self = Some this ->
  JS.truthy_obj (Doc.effective_date this) = true ->
  nth_error (processAmendments self allDocs) self = Some merged ->
  latest_to_supply pf (sorted_amendments this allDocs) a v ->
  f merged = v.
Proof.
  intros Hf Hset Hself Heff Hmerged (Hin & Hv & Hlate).
  destruct (processAmendments_fact f pf self this allDocs Hf Hset Hself Heff)
    as (merged' & Hm & Hfold).
  assert (merged' = merged) by congruence. subst merged'. rewrite Hfold.
  apply (ow_fold_latest ref_key (fun r : Ref => pf (snd r)) a v Hv);
    [apply sorted_amendments_sorted | exact Hin | exact Hlate].
Qed.

(** X11. Of the facts that an amendment replaces, the document ends up with
    the value of the amendment that supplies one and has the latest sort
    date among those that do; shown for the terms, the term payment models,
    the grantors, the purchase price, the effective date and the
    termination.  The document is the one at position [self] of the
    collection, before and after. *)
Theorem processAmendments_latest_wins (self : nat) (this : Doc.t)
        (allDocs : list Doc.t) (a : Ref) :
  nth_error allDocs self = Some this ->
  JS.truthy_obj (Doc.effective_date this) = true ->
  exists merged : Doc.t,
    nth_error (processAmendments self allDocs) self = Some merged
    /\ let amendments := sorted_amendments this allDocs in
       (forall v, latest_to_supply (fun x => supply_list (Doc.agreement_terms x))
                                   amendments a v ->
                  Doc.agreement_terms merged = v)
       /\ (forall v, latest_to_supply (fun x => supply_list (Doc.term_payment_models x))
                                      amendments a v ->
                     Doc.term_payment_models merged = v)
       /\ (forall v, latest_to_supply (fun x => supply_list (Doc.grantor x)) amendments a v ->
                     Doc.grantor merged = v)
       /\ (forall v, latest_to_supply (fun x => supply_num (Doc.full_purchase_price x))
                                      amendments a v ->
                     Doc.full_purchase_price merged = v)
       /\ (forall v, latest_to_supply (fun x => supply_obj (Doc.effective_date x))
                                      amendments a v ->
                     Doc.effective_date merged = v)
       /\ (forall v, latest_to_supply (fun x => supply_termination (Doc.termination x))
                                      amendments a v ->
                     Doc.termination merged = v).
Proof.
  intros Hself Heff.
  eexists. split; [apply (processAmendments_self self this allDocs Hself Heff)|].
  pose proof (processAmendments_self self this allDocs Hself Heff) as Hm.
  intros amendments.
  repeat split; intros v Hv;
    (eapply processAmendments_latest;
     [| | exact Hself | exact Heff | exact Hm | exact Hv]; intros; reflexivity).
Qed.

Lemma processAmendments_latest_wins_witness :
  option_map Doc.agreement_terms (nth_error (processAmendments 0 lease_collection) 0)
  = Some [option_term].
Proof.
  destruct (processAmendments_latest_wins
              0 base_lease lease_collection
              (nth 2 (sorted_amendments base_lease lease_collection) (O, base_lease))
              eq_refl eq_refl) as (merged & Hm & Hterms & _).
  rewrite Hm. cbn [option_map]. f_equal. apply Hterms.
  split; [|split].
  - apply nth_In. vm_compute. lia.
  - vm_compute. reflexivity.
  - intros r Hr Hsup. vm_compute in Hr.
    destruct Hr as [<- | [<- | [<- | []]]].
    + exfalso. apply Hsup. reflexivity.
    + exfalso. apply Hsup. reflexivity.
    + left. vm_compute. reflexivity.
Defined.

(** ** The ordinals of the amendments *)

Lemma insert_by_key_least {A : Type} (key : A -> Z) (x : A) (l : list A) :
  Forall (fun y => key x <= key y) l -> insert_by_key key x l = x :: l.
Proof.
  intros H. destruct l as [|y rest]; [reflexivity|]. simpl.
  inversion H as [|? ? Hy _]; subst.
  destruct (key x <=? key y) eqn:E; [reflexivity | apply Z.leb_gt in E; lia].
Qed.

Lemma filter_insert_by_key {A : Type} (key : A -> Z) (p : A -> bool) (x : A) (l : list A) :
  StronglySorted (key_le key) l ->
  filter p (insert_by_key key x l)
  = if p x then insert_by_key key x (filter p l) else filter p l.
Proof.
  induction 1 as [|y rest Hs IH Hall]; simpl.
  - destruct (p x); reflexivity.
  - destruct (key x <=? key y) eqn:E.
    + apply Z.leb_le in E. cbn [filter]. destruct (p x); [|reflexivity].
      symmetry. apply insert_by_key_least.
      assert (Hrest : Forall (fun z => key x <= key z) (y :: rest)).
      { constructor; [exact E|]. eapply Forall_impl; [|exact Hall].
        intros z Hz. unfold key_le in Hz. lia. }
      apply Forall_forall. intros z Hz.
      change (In z (filter p (y :: rest))) in Hz. apply filter_In in Hz.
      eapply Forall_forall in Hrest; [exact Hrest | apply Hz].
    + cbn [filter]. rewrite IH. destruct (p y), (p x); simpl; try reflexivity.
      rewrite E. reflexivity.
Qed.

(** Filtering commutes with the stable sort. *)
Lemma filter_sort_by_key {A : Type} (key : A -> Z) (p : A -> bool) (l : list A) :
  filter p (sort_by_key key l) = sort_by_key key (filter p l).
Proof.
  induction l as [|x rest IH]; simpl; [reflexivity|].
  rewrite filter_insert_by_key by apply sort_by_key_sorted.
  rewrite IH. destruct (p x); reflexivity.
Qed.

Lemma position_own (l : list Ref) :
  NoDup (map fst l) ->
  forall from : Z,
    map (fun r : Ref => position (fst r) l from) l
    = map (fun k => Some (from + Z.of_nat k)) (seq 0 (List.length l)).
Proof.
  induction l as [|x rest IH]; intros Hnd from; [reflexivity|].
  cbn [map List.length seq position]. rewrite Nat.eqb_refl, Z.add_0_r. f_equal.
  simpl in Hnd. inversion Hnd as [|? ? Hx Hrest]; subst.
  transitivity (map (fun r : Ref => position (fst r) rest (from + 1)) rest).
  - apply map_ext_in. intros r Hr.
    destruct (Nat.eqb (fst x) (fst r)) eqn:E; [|reflexivity].
    apply Nat.eqb_eq in E. exfalso. apply Hx. rewrite E. apply in_map, Hr.
  - rewrite (IH Hrest (from + 1)), <- seq_shift, map_map.
    apply map_ext. intros k. f_equal. lia.
Qed.

Lemma position_in (r : Ref) (l : list Ref) (from : Z) :
  In r l -> position (fst r) l from <> None.
Proof.
  revert from. induction l as [|y rest IH]; intros from Hin; [contradiction|]. simpl.
  destruct (Nat.eqb (fst y) (fst r)) eqn:Ey; [discriminate|].
  destruct Hin as [-> | Hin]; [rewrite Nat.eqb_refl in Ey; discriminate|].
  apply IH, Hin.
Qed.

Lemma NoDup_fst_filter (p : Ref -> bool) (l : list Ref) :
  NoDup (map fst l) -> NoDup (map fst (filter p l)).
Proof.
  induction l as [|x rest IH]; intros Hnd; simpl; [constructor|].
  simpl in Hnd. inversion Hnd as [|? ? Hx Hrest]; subst.
  destruct (p x); simpl; [|apply IH, Hrest].
  constructor; [|apply IH, Hrest].
  intros Hin. apply Hx. apply in_map_iff in Hin. destruct Hin as (r & Hr & Hin).
  apply filter_In in Hin. rewrite <- Hr. apply in_map, Hin.
Qed.

(** The amendments with an amendment date, stamped and in the order of
    their sort dates: the array that line 891 numbers. *)
Lemma dated_amendments_numbered (this : Doc.t) (allDocs : list Doc.t) :
  let dated := sort_by_key ref_key
                 (filter is_dated (map stamp (filter (selects this) (indexed allDocs)))) in
  filter is_dated (sorted_amendments this allDocs) = map (number dated) dated
  /\ NoDup (map fst dated).
Proof.
  intros dated. split.
  - unfold sorted_amendments, annotated_amendments. fold dated.
    rewrite filter_sort_by_key, filter_map_commute.
    rewrite (filter_ext _ is_dated (number_dated dated)).
    apply sort_by_key_map. apply number_key.
  - eapply Permutation_NoDup.
    + apply Permutation_map, Permutation_sym, sort_by_key_perm.
    + apply NoDup_fst_filter. rewrite map_map.
      rewrite (map_ext (fun r => fst (stamp r)) fst) by reflexivity.
      apply NoDup_fst_filter, indexed_NoDup.
Qed.

(** X12. The amendments that carry an amendment date are numbered 1, 2, ...
    in the order of their amendment dates, which is their order among the
    sorted amendments and, where there are amendments to an original
    document, in [this.amendments], [this] being the document at position
    [self] of the collection. *)
Theorem processAmendments_numbers_amendments (this : Doc.t) (allDocs : list Doc.t) :
  let dated := filter is_dated (sorted_amendments this allDocs) in
  map (fun r : Ref => Doc.amendment_ordinal (snd r)) dated
  = map (fun k => Some (Z.of_nat k)) (seq 1 (List.length dated))
  /\ StronglySorted (key_le ref_key) dated
  /\ Forall (fun r : Ref => Doc.sort_date (snd r) = Doc.amendment_date (snd r)) dated
  /\ (forall self : nat,
         nth_error allDocs self = Some this ->
         JS.truthy_obj (Doc.effective_date this) = true ->
         sorted_amendments this allDocs <> [] ->
         option_map Doc.amendments (nth_error (processAmendments self allDocs) self)
         = Some (map (fun r : Ref => Doc.id (snd r)) dated)).
Proof.
  intros dated.
  destruct (dated_amendments_numbered this allDocs) as [Hd Hnd].
  set (D := sort_by_key ref_key
              (filter is_dated (map stamp (filter (selects this) (indexed allDocs))))) in *.
  split; [|split; [|split]].
  - unfold dated. rewrite Hd, map_map, length_map.
    transitivity (map (fun r : Ref => position (fst r) D 1) D).
    + apply map_ext_in. intros r Hr. unfold number.
      destruct (position (fst r) D 1) as [o|] eqn:E; [reflexivity|].
      exfalso. exact (position_in r D 1 Hr E).
    + rewrite (position_own D Hnd 1), <- seq_shift, map_map.
      apply map_ext. intros k. f_equal. lia.
  - apply StronglySorted_filter, sorted_amendments_sorted.
  - unfold dated. rewrite Hd. apply Forall_forall. intros r Hr.
    apply in_map_iff in Hr. destruct Hr as (r0 & <- & Hr0).
    assert (Hin : In r0 (filter is_dated
                           (map stamp (filter (selects this) (indexed allDocs))))).
    { eapply Permutation_in; [apply sort_by_key_perm | exact Hr0]. }
    apply filter_In in Hin. destruct Hin as [Hin Hdated].
    apply in_map_iff in Hin. destruct Hin as (r1 & <- & _).
    unfold number. destruct (position _ _ _);
      cbn [snd fst set_amendment_ordinal Doc.sort_date Doc.amendment_date stamp
               set_sort_date];
      unfold is_dated in Hdated; cbn [snd stamp set_sort_date Doc.amendment_date] in Hdated;
      unfold calc_sort_date; destruct (Doc.amendment_date (snd r1));
      try discriminate Hdated; reflexivity.
  - intros self Hself Heff Hne.
    rewrite (processAmendments_merges self this allDocs Hself Heff Hne).
    erewrite write_back_self by exact Hself. reflexivity.
Qed.

Lemma processAmendments_numbers_amendments_witness :
  option_map Doc.amendments (nth_error (processAmendments 0 lease_collection) 0)
  = Some ["amd-1"; "amd-2"]%string.
Proof.
  etransitivity.
  - apply (proj2 (proj2 (proj2 (processAmendments_numbers_amendments
                                  base_lease lease_collection))) O).
    + reflexivity.
    + reflexivity.
    + vm_compute. discriminate.
  - vm_compute. reflexivity.
Defined.

(** ** The collection after the overlay *)

Lemma annotated_amendments_map (this : Doc.t) (allDocs : list Doc.t) :
  let dated := sort_by_key ref_key
                 (filter is_dated (map stamp (filter (selects this) (indexed allDocs)))) in
  annotated_amendments this allDocs
  = map (fun r => number dated (stamp r)) (filter (selects this) (indexed allDocs)).
Proof. intros dated. unfold annotated_amendments. fold dated. now rewrite map_map. Qed.

Lemma sorted_amendments_none (this : Doc.t) (allDocs : list Doc.t) :
  sorted_amendments this allDocs = [] ->
  forall r, In r (indexed allDocs) -> selects this r = false.
Proof.
  intros Hs r Hr. destruct (selects this r) eqn:E; [|reflexivity]. exfalso.
  assert (Hlen : List.length (sorted_amendments this allDocs) = O) by now rewrite Hs.
  unfold sorted_amendments in Hlen.
  rewrite sort_by_key_length, annotated_amendments_map, length_map in Hlen.
  assert (Hin : In r (filter (selects this) (indexed allDocs)))
    by (apply filter_In; split; assumption).
  destruct (filter (selects this) (indexed allDocs)); [contradiction | discriminate Hlen].
Qed.

Lemma annotation_writes_two_fields (dated : list Ref) (r : Ref) :
  let x' := snd (number dated (stamp r)) in
  x' = set_amendment_ordinal (set_sort_date (snd r) (Doc.sort_date x'))
                             (Doc.amendment_ordinal x')
  /\ Doc.sort_date x' = calc_sort_date (snd r).
Proof.
  destruct r as [i x]. unfold number. cbn [fst snd stamp].
  destruct (position i dated 1); cbn [snd]; split; reflexivity.
Qed.

(** X13. The overlay leaves the collection in its order.  The position of
    the document whose amendments are processed holds that document with the
    amendments merged into it; on every other document nothing but
    [sort_date] and [amendment_ordinal] is written; of these, a document that
    is not an amendment of [this] is left as it was, and an amendment of a
    document with an effective date receives the first of its five dates as
    sort date. *)
Theorem processAmendments_collection (self : nat) (this : Doc.t)
        (allDocs : list Doc.t) (i : nat) (x : Doc.t) :
  nth_error allDocs self = Some this ->
  nth_error allDocs i = Some x ->
  List.length (processAmendments self allDocs) = List.length allDocs
  /\ exists x' : Doc.t,
       nth_error (processAmendments self allDocs) i = Some x'
       /\ (i = self ->
           x' = if JS.truthy_obj (Doc.effective_date this)
                   && negb (Nat.eqb (List.length (sorted_amendments this allDocs)) 0)
                then merge_amendments this allDocs
                else this)
       /\ (i <> self ->
           x' = set_amendment_ordinal (set_sort_date x (Doc.sort_date x'))
                                      (Doc.amendment_ordinal x')
           /\ (is_amendment_of this x = false -> x' = x)
           /\ (JS.truthy_obj (Doc.effective_date this) = true ->
               is_amendment_of this x = true ->
               Doc.sort_date x' = calc_sort_date x)).
Proof.
  intros Hself Hx.
  pose proof (nth_error_combine_seq allDocs O i x Hx) as Hr. fold (indexed allDocs) in Hr.
  cbn [Nat.add] in Hr.
  assert (Hsame : x = set_amendment_ordinal (set_sort_date x (Doc.sort_date x))
                                            (Doc.amendment_ordinal x))
    by (destruct x; reflexivity).
  destruct (JS.truthy_obj (Doc.effective_date this)) eqn:Heff.
  - destruct (sorted_amendments this allDocs) as [|r0 rest] eqn:Es.
    + rewrite (processAmendments_skips self this allDocs Hself) by (right; exact Es).
      split; [reflexivity|].
      exists x. split; [exact Hx|]. split.
      * intros ->. cbn [List.length Nat.eqb negb andb]. congruence.
      * intros _. split; [exact Hsame|]. split; [reflexivity|].
        intros _ Hsel. exfalso.
        pose proof (sorted_amendments_none this allDocs Es (i, x)
                      (nth_error_In _ _ Hr)) as Hnot.
        unfold selects in Hnot. cbn [snd] in Hnot. congruence.
    + rewrite (processAmendments_merges self this allDocs Hself Heff)
        by (rewrite Es; discriminate).
      split; [unfold write_back; rewrite length_map; apply indexed_length|].
      destruct (Nat.eq_dec i self) as [-> | Hne].
      * exists (merge_amendments this allDocs).
        split; [eapply write_back_self; exact Hself|].
        split; [intros _; reflexivity | intros H; contradiction].
      * rewrite annotated_amendments_map.
        set (dated := sort_by_key ref_key _).
        rewrite (write_back_map self (merge_amendments this allDocs)
                                (fun r => number dated (stamp r)) (selects this) allDocs)
          by (intros r; rewrite number_fst; reflexivity).
        rewrite nth_error_map. unfold Ref in *. rewrite Hr. cbn [option_map fst].
        apply Nat.eqb_neq in Hne. rewrite Hne. apply Nat.eqb_neq in Hne.
        eexists. split; [reflexivity|]. split; [intros H; contradiction|]. intros _.
        unfold selects. cbn [snd].
        destruct (is_amendment_of this x) eqn:Esel.
        -- destruct (annotation_writes_two_fields dated (i, x)) as [H1 H2].
           cbn [snd] in H1, H2. split; [exact H1|]. split; [discriminate|].
           intros _ _. exact H2.
        -- split; [exact Hsame|]. split; [reflexivity | discriminate].
  - rewrite (processAmendments_skips self this allDocs Hself) by (left; exact Heff).
    split; [reflexivity|].
    exists x. split; [exact Hx|]. split.
    + intros ->. cbn [andb]. congruence.
    + intros _. split; [exact Hsame|]. split; [reflexivity | discriminate].
Qed.

Lemma processAmendments_collection_witness :
  (exists x' : Doc.t,
      nth_error (processAmendments 0 lease_collection) 2 = Some x'
      /\ Doc.sort_date x' = Some (local 2024 6 1))
  /\ (exists this' : Doc.t,
         nth_error (processAmendments 0 lease_collection) 0 = Some this'
         /\ map Term.term_ordinal (Doc.agreement_terms this') = [1]
         /\ map DateModel.id (Doc.date_payment_models this') = [Some "annual"%string]).
Proof.
  split.
  - destruct (processAmendments_collection 0 base_lease lease_collection 2 side_letter
                                           eq_refl eq_refl)
      as (_ & x' & Hx' & _ & Hother).
    assert (Hne : 2%nat <> 0%nat) by discriminate.
    destruct (Hother Hne) as (_ & _ & Hdate).
    exists x'. split; [exact Hx'|]. rewrite Hdate; reflexivity.
  - destruct (processAmendments_collection 0 base_lease lease_collection 0 base_lease
                                           eq_refl eq_refl)
      as (_ & x' & Hx' & Hown & _).
    exists x'. split; [exact Hx'|]. rewrite (Hown eq_refl).
    split; vm_compute; reflexivity.
Defined.

Lemma filter_none {A : Type} (p : A -> bool) (l : list A) :
  (forall a, p a = false) -> filter p l = [].
Proof.
  intros H. induction l as [|a rest IH]; simpl; [reflexivity|]. now rewrite H.
Qed.

(** X14. A document without an agreement group, or with an empty one, has no
    amendments: the overlay leaves it and the collection as they were, even
    where documents of the collection have no group either. *)
Theorem processAmendments_needs_group (self : nat) (this : Doc.t) (allDocs : list Doc.t) :
  nth_error allDocs self = Some this ->
  JS.truthy_str (Doc.agreement_group this) = false ->
  processAmendments self allDocs = allDocs.
Proof.
  intros Hself Hgroup. apply (processAmendments_skips self this allDocs Hself). right.
  unfold sorted_amendments. rewrite annotated_amendments_map.
  rewrite (filter_none (selects this)); [reflexivity|].
  intros r. unfold selects, is_amendment_of. rewrite Hgroup. reflexivity.
Qed.

Lemma processAmendments_needs_group_witness :
  processAmendments 0 (ungrouped_lease :: lease_collection)
  = ungrouped_lease :: lease_collection.
Proof.
  apply (processAmendments_needs_group 0 ungrouped_lease
                                       (ungrouped_lease :: lease_collection)).
  - reflexivity.
  - reflexivity.
Defined.

(** ** The rounds of the standard generator *)

Lemma year_end_after (t : DateTime) : t < local (year t) 12 31 + MS_PER_DAY.
Proof.
  unfold local, year.
  pose proof (civil_from_days_spec (day_number t)) as Hspec.
  destruct (civil_from_days (day_number t)) as [[y m] d].
  destruct Hspec as (Hz & Hm & Hd & Hnext).
  rewrite <- (month_start_next y m Hm) in Hnext.
  pose proof (month_start_mono (12 * y + (m - 1) + 1) (12 - m)) as Hmono.
  replace (12 * y + (m - 1) + 1 + (12 - m)) with (12 * (y + 1)) in Hmono by lia.
  assert (Hjan : month_start (12 * (y + 1)) = days_from_civil y 12 31 + 1).
  { unfold month_start.
    replace (12 * (y + 1) / 12) with (y + 1) by (Z.div_mod_to_equations; lia).
    replace (12 * (y + 1) mod 12) with 0 by (Z.div_mod_to_equations; lia).
    unfold days_from_civil. calc. replace (y + 1 - 1) with y by lia.
    change (1532 / 5) with 306. change (1379 / 5) with 275. lia. }
  assert (Ht : t = day_number t * MS_PER_DAY + ms_of_day t
               /\ 0 <= ms_of_day t < MS_PER_DAY).
  { unfold day_number, ms_of_day, MS_PER_DAY. Z.div_mod_to_equations. lia. }
  unfold MS_PER_DAY in *. nia.
Qed.

(** The period ends that lines 434-456 assign. *)
Lemma natural_period_end_cases (start_date : DateTime) (frequency : option string)
      (prorated : bool) (term_end natural : DateTime) :
  natural_period_end start_date frequency prorated term_end = Some natural ->
  natural = term_end
  \/ natural = local (year start_date) 12 31
  \/ exists n : Z, 1 <= n /\ natural = plus_days (plus_months start_date n) (-1).
Proof.
  unfold natural_period_end, plus_years. change (12 * 1) with 12.
  destruct prorated;
    repeat match goal with
           | |- context [freq_is ?n frequency] => destruct (freq_is n frequency)
           end;
    intros H;
    lazymatch type of H with
    | None = Some _ => discriminate H
    | Some (local _ _ _) = Some _ => right; left; congruence
    | Some (plus_days (plus_months _ ?n) _) = Some _ =>
        right; right; exists n; split; [lia | congruence]
    | Some _ = Some _ => left; congruence
    end.
Qed.

(** A period that is paid at its start ends less than a day before it at
    the earliest: the next period starts later. *)
Lemma calcPaymentPeriodEnd_advances (start_date : DateTime) (frequency : option string)
      (prorated : bool) (term_end payment_period_end : DateTime) :
  calcPaymentPeriodEnd start_date frequency prorated term_end = Some payment_period_end ->
  start_date < term_end ->
  start_date < plus_days payment_period_end 1.
Proof.
  unfold calcPaymentPeriodEnd. intros H Hlt.
  destruct (natural_period_end start_date frequency prorated term_end) as [natural|] eqn:En;
    [|discriminate H].
  destruct (natural >=? term_end) eqn:E; injection H as <-;
    [unfold plus_days, MS_PER_DAY; lia|].
  apply natural_period_end_cases in En.
  destruct En as [-> | [-> | (n & Hn & ->)]].
  - unfold plus_days, MS_PER_DAY. lia.
  - pose proof (year_end_after start_date) as Hyear.
    unfold plus_days, MS_PER_DAY in *. lia.
  - pose proof (plus_months_advances start_date n Hn) as Hadv.
    unfold plus_days, MS_PER_DAY in *. lia.
Qed.

Lemma payment_rounds_aligned_terminate (purchased : option DateTime)
      (frequency : option string) (prorated : bool) (term_end : DateTime) :
  forall (fuel : nat) (s : DateTime) (i : Z),
    (Z.to_nat (term_end - s) < fuel)%nat ->
    exists outcome,
      payment_rounds fuel purchased frequency prorated term_end s s i = Some outcome.
Proof.
  induction fuel as [|fuel IH]; intros s i Hfuel; [lia|].
  simpl. destruct (s <? term_end) eqn:E; [|eexists; reflexivity].
  apply Z.ltb_lt in E.
  destruct (match purchased with
            | Some p => s >? p
            | None => false
            end); [eexists; reflexivity|].
  destruct (calcPaymentPeriodEnd s frequency prorated term_end) as [pe|] eqn:Ep;
    [|eexists; reflexivity].
  pose proof (calcPaymentPeriodEnd_advances _ _ _ _ _ Ep E) as Hadv.
  destruct (IH (plus_days pe 1) (i + 1)) as [[later|] ->]; [lia | | ];
    eexists; reflexivity.
Qed.

Lemma payment_rounds_terminate (purchased : option DateTime)
      (frequency : option string) (prorated : bool) (term_end s pd : DateTime) (i : Z) :
  exists fuel : nat, forall fuel' : nat, (fuel <= fuel')%nat ->
    exists outcome,
      payment_rounds fuel' purchased frequency prorated term_end s pd i = Some outcome.
Proof.
  destruct (calcPaymentPeriodEnd pd frequency prorated term_end) as [pe|] eqn:Ep.
  - exists (S (S (Z.to_nat (term_end - plus_days pe 1)))). intros fuel' Hle.
    destruct fuel' as [|fuel']; [lia|]. simpl.
    destruct (s <? term_end); [|eexists; reflexivity].
    destruct (match purchased with
              | Some p => s >? p
              | None => false
              end); [eexists; reflexivity|].
    rewrite Ep.
    destruct (payment_rounds_aligned_terminate purchased frequency prorated term_end
                fuel' (plus_days pe 1) (i + 1)) as [[later|] ->]; [lia | | ];
      eexists; reflexivity.
  - exists 1%nat. intros fuel' Hle. destruct fuel' as [|fuel']; [lia|]. simpl.
    destruct (s <? term_end); [|eexists; reflexivity].
    destruct (match purchased with
              | Some p => s >? p
              | None => false
              end); [eexists; reflexivity|].
    rewrite Ep. eexists; reflexivity.
Qed.

(** X16. The loop of the standard generator finishes for every term: with
    enough rounds it returns, with a schedule or without one. *)
Theorem calcPeriodicPaymentsForTerm_rounds_terminate
        (this : Doc.t) (term : Term.t) (first_payment_date : option DateTime)
        (paymentModels : option (list TermModel.t)) (grantor : list Grantor) :
  exists fuel : nat, forall fuel' : nat, (fuel <= fuel')%nat ->
    exists outcome,
      calcPeriodicPaymentsForTerm_rounds fuel' this term first_payment_date
                                         paymentModels grantor
      = Some outcome.
Proof.
  unfold calcPeriodicPaymentsForTerm_rounds.
  destruct (Term.cancelled_by_ops term || (Z.of_nat (List.length grantor) =? 0));
    [exists O; intros; eexists; reflexivity|].
  destruct (termPaymentModel term paymentModels) as [model|];
    [|exists O; intros; eexists; reflexivity].
  destruct (Term.start_date term) as [start_date|];
    [|exists O; intros; eexists; reflexivity].
  destruct (Term.end_date term) as [end_date|];
    [|exists O; intros; eexists; reflexivity].
  apply payment_rounds_terminate.
Qed.

Lemma payment_rounds_chained (purchased : option DateTime)
      (frequency : option string) (prorated : bool) (term_end : DateTime) :
  forall (fuel : nat) (s pd : DateTime) (i : Z) (periods : list Period),
    payment_rounds fuel purchased frequency prorated term_end s pd i = Some (Some periods) ->
    rounds_chained s pd i periods
    /\ Forall (fun p => period_start p < term_end
                        /\ period_end p <= term_end
                        /\ forall d, purchased = Some d -> period_start p <= d)
              periods.
Proof.
  induction fuel as [|fuel IH]; intros s pd i periods H; [discriminate H|].
  simpl in H. destruct (s <? term_end) eqn:E;
    [|injection H as <-; split; [exact I | constructor]].
  apply Z.ltb_lt in E.
  destruct (match purchased with
            | Some p => s >? p
            | None => false
            end) eqn:Ep; [injection H as <-; split; [exact I | constructor]|].
  destruct (calcPaymentPeriodEnd pd frequency prorated term_end) as [pe|] eqn:Ee;
    [|discriminate H].
  destruct (payment_rounds fuel purchased frequency prorated term_end
                           (plus_days pe 1) (plus_days pe 1) (i + 1))
    as [[later|]|] eqn:El; try discriminate H.
  injection H as <-. destruct (IH _ _ _ _ El) as [Hchain Hall].
  split.
  - simpl. repeat split. exact Hchain.
  - constructor; [|exact Hall]. cbn [period_start period_end].
    split; [exact E|]. split.
    + unfold calcPaymentPeriodEnd in Ee.
      destruct (natural_period_end pd frequency prorated term_end) as [natural|];
        [|discriminate Ee].
      destruct (natural >=? term_end) eqn:En; injection Ee as <-; lia.
    + intros d Hd. rewrite Hd in Ep. lia.
Qed.

Lemma payment_rounds_aligned (purchased : option DateTime)
      (frequency : option string) (prorated : bool) (term_end : DateTime) :
  forall (fuel : nat) (s : DateTime) (i : Z) (periods : list Period),
    payment_rounds fuel purchased frequency prorated term_end s s i = Some (Some periods) ->
    Forall (fun p => period_start p < plus_days (period_end p) 1) periods.
Proof.
  induction fuel as [|fuel IH]; intros s i periods H; [discriminate H|].
  simpl in H. destruct (s <? term_end) eqn:E; [|injection H as <-; constructor].
  apply Z.ltb_lt in E.
  destruct (match purchased with
            | Some p => s >? p
            | None => false
            end); [injection H as <-; constructor|].
  destruct (calcPaymentPeriodEnd s frequency prorated term_end) as [pe|] eqn:Ee;
    [|discriminate H].
  destruct (payment_rounds fuel purchased frequency prorated term_end
                           (plus_days pe 1) (plus_days pe 1) (i + 1))
    as [[later|]|] eqn:El; try discriminate H.
  injection H as <-. constructor; [|exact (IH _ _ _ El)].
  cbn [period_start period_end]. exact (calcPaymentPeriodEnd_advances _ _ _ _ _ Ee E).
Qed.

Lemma payment_rounds_tail_aligned (purchased : option DateTime)
      (frequency : option string) (prorated : bool) (term_end : DateTime)
      (fuel : nat) (s pd : DateTime) (i : Z) (periods : list Period) :
  payment_rounds fuel purchased frequency prorated term_end s pd i = Some (Some periods) ->
  Forall (fun p => period_start p < plus_days (period_end p) 1) (tl periods).
Proof.
  destruct fuel as [|fuel]; intros H; [discriminate H|].
  simpl in H. destruct (s <? term_end); [|injection H as <-; constructor].
  destruct (match purchased with
            | Some p => s >? p
            | None => false
            end); [injection H as <-; constructor|].
  destruct (calcPaymentPeriodEnd pd frequency prorated term_end) as [pe|];
    [|discriminate H].
  destruct (payment_rounds fuel purchased frequency prorated term_end
                           (plus_days pe 1) (plus_days pe 1) (i + 1))
    as [[later|]|] eqn:El; try discriminate H.
  injection H as <-. exact (payment_rounds_aligned _ _ _ _ _ _ _ _ El).
Qed.

Lemma calcPeriodicPaymentsForTerm_rounds_schedule
      (fuel : nat) (this : Doc.t) (term : Term.t) (first_payment_date : option DateTime)
      (paymentModels : option (list TermModel.t)) (grantor : list Grantor)
      (periods : list Period) :
  calcPeriodicPaymentsForTerm_rounds fuel this term first_payment_date paymentModels grantor
  = Some (Some periods) ->
  exists (model : TermModel.t) (start_date end_date : DateTime),
    termPaymentModel term paymentModels = Some model
    /\ Term.start_date term = Some start_date
    /\ Term.end_date term = Some end_date
    /\ Term.cancelled_by_ops term = false
    /\ grantor <> []
    /\ payment_rounds fuel (Doc.date_purchased this) (TermModel.payment_frequency model)
                      (TermModel.prorated_first_period model) end_date start_date
                      (first_payment term first_payment_date start_date) 0
       = Some (Some periods).
Proof.
  unfold calcPeriodicPaymentsForTerm_rounds. intros H.
  destruct (Term.cancelled_by_ops term) eqn:Ec; [discriminate H|].
  destruct grantor as [|g rest]; [discriminate H|]. cbn [orb] in H.
  change (Z.of_nat (List.length (g :: rest)) =? 0) with false in H.
  destruct (termPaymentModel term paymentModels) as [model|]; [|discriminate H].
  destruct (Term.start_date term) as [start_date|]; [|discriminate H].
  destruct (Term.end_date term) as [end_date|]; [|discriminate H].
  exists model, start_date, end_date. repeat split; try reflexivity; [discriminate | exact H].
Qed.

(** X17. The periods of a schedule of the standard generator follow one
    another without a gap: the first starts with the term and is paid on the
    first payment date, every later one starts, and is paid, the day after
    the one before it ends, and the day after its own end lies after its
    start; they are counted from 0; none starts at or after the end of the
    term or after the purchase, and none ends after the end of the term. *)
Theorem calcPeriodicPaymentsForTerm_rounds_chained
        (fuel : nat) (this : Doc.t) (term : Term.t) (first_payment_date : option DateTime)
        (paymentModels : option (list TermModel.t)) (grantor : list Grantor)
        (periods : list Period) :
  calcPeriodicPaymentsForTerm_rounds fuel this term first_payment_date paymentModels grantor
  = Some (Some periods) ->
  exists start_date end_date : DateTime,
    Term.start_date term = Some start_date
    /\ Term.end_date term = Some end_date
    /\ rounds_chained start_date (first_payment term first_payment_date start_date) 0 periods
    /\ Forall (fun p => period_start p < end_date
                        /\ period_end p <= end_date
                        /\ forall d, Doc.date_purchased this = Some d -> period_start p <= d)
              periods
    /\ Forall (fun p => period_start p < plus_days (period_end p) 1) (tl periods).
Proof.
  intros H.
  destruct (calcPeriodicPaymentsForTerm_rounds_schedule _ _ _ _ _ _ _ H)
    as (model & start_date & end_date & _ & Hs & He & _ & _ & Hloop).
  exists start_date, end_date. split; [exact Hs|]. split; [exact He|].
  destruct (payment_rounds_chained _ _ _ _ _ _ _ _ _ Hloop) as [Hchain Hall].
  split; [exact Hchain|]. split; [exact Hall|].
  exact (payment_rounds_tail_aligned _ _ _ _ _ _ _ _ _ Hloop).
Qed.

Example option_rounds_schedule :
  option_rounds
  = Some (Some [ {| period_index := 0;
                    period_payment_date := local 2023 1 1;
                    period_start := local 2023 1 1;
                    period_end := local 2023 12 31 |};
                 {| period_index := 1;
                    period_payment_date := local 2024 1 1;
                    period_start := local 2024 1 1;
                    period_end := local 2024 12 31 |} ]).
Proof. vm_compute. reflexivity. Qed.

Lemma calcPeriodicPaymentsForTerm_rounds_chained_witness :
  exists start_date end_date : DateTime,
    Term.start_date paid_option_term = Some start_date
    /\ Term.end_date paid_option_term = Some end_date
    /\ Forall (fun p => period_end p <= end_date)
              (JS.nullish (JS.nullish option_rounds None) []).
Proof.
  destruct (calcPeriodicPaymentsForTerm_rounds_chained
              10 shared_option_doc paid_option_term None (Some [per_acre_model])
              half_and_half (JS.nullish (JS.nullish option_rounds None) []))
    as (start_date & end_date & Hs & He & _ & Hall & _).
  - vm_compute. reflexivity.
  - exists start_date, end_date. split; [exact Hs|]. split; [exact He|].
    eapply Forall_impl; [|exact Hall]. intros p Hp. apply Hp.
Defined.

(** ** Where the schedule of a term ends *)

Lemma payment_rounds_empty (purchased : option DateTime)
      (frequency : option string) (prorated : bool) (term_end : DateTime)
      (fuel : nat) (s pd : DateTime) (i : Z) :
  payment_rounds fuel purchased frequency prorated term_end s pd i = Some (Some []) ->
  term_end <= s \/ exists d, purchased = Some d /\ d < s.
Proof.
  destruct fuel as [|fuel]; intros H; [discriminate H|].
  simpl in H. destruct (s <? term_end) eqn:E; [|left; apply Z.ltb_ge in E; exact E].
  destruct purchased as [d|].
  - destruct (s >? d) eqn:Ed; [right; exists d; split; [reflexivity | lia]|].
    destruct (calcPaymentPeriodEnd pd frequency prorated term_end); [|discriminate H].
    destruct (payment_rounds _ _ _ _ _ _ _ _) as [[later|]|]; discriminate H.
  - destruct (calcPaymentPeriodEnd pd frequency prorated term_end); [|discriminate H].
    destruct (payment_rounds _ _ _ _ _ _ _ _) as [[later|]|]; discriminate H.
Qed.

Lemma payment_rounds_last (purchased : option DateTime)
      (frequency : option string) (prorated : bool) (term_end : DateTime) :
  forall (fuel : nat) (s pd : DateTime) (i : Z) (before : list Period) (last : Period),
    payment_rounds fuel purchased frequency prorated term_end s pd i
    = Some (Some (before ++ [last])) ->
    term_end <= plus_days (period_end last) 1
    \/ exists d, purchased = Some d /\ d < plus_days (period_end last) 1.
Proof.
  induction fuel as [|fuel IH]; intros s pd i before last H; [discriminate H|].
  simpl in H. destruct (s <? term_end);
    [|destruct before; discriminate H].
  destruct (match purchased with
            | Some p => s >? p
            | None => false
            end); [destruct before; discriminate H|].
  destruct (calcPaymentPeriodEnd pd frequency prorated term_end) as [pe|];
    [|discriminate H].
  destruct (payment_rounds fuel purchased frequency prorated term_end
                           (plus_days pe 1) (plus_days pe 1) (i + 1))
    as [[later|]|] eqn:El; try discriminate H.
  injection H as H. destruct before as [|b before]; simpl in H.
  - injection H as <- ->. cbn [period_end].
    exact (payment_rounds_empty _ _ _ _ _ _ _ _ El).
  - injection H as _ ->. exact (IH _ _ _ _ _ El).
Qed.

(** X18. A schedule of the standard generator stops within a day of the end
    of the term, unless the purchase stopped it: its last period ends on
    the end date of the term or at most a day before it, or the day after
    it ends lies beyond the purchase date.  The loop compares with [<], so
    a period that would begin exactly on the end date is not created. *)
Theorem calcPeriodicPaymentsForTerm_rounds_reach_end
        (fuel : nat) (this : Doc.t) (term : Term.t) (first_payment_date : option DateTime)
        (paymentModels : option (list TermModel.t)) (grantor : list Grantor)
        (before : list Period) (last : Period) :
  calcPeriodicPaymentsForTerm_rounds fuel this term first_payment_date paymentModels grantor
  = Some (Some (before ++ [last])) ->
  exists end_date : DateTime,
    Term.end_date term = Some end_date
    /\ period_end last <= end_date
    /\ (end_date <= plus_days (period_end last) 1
        \/ exists d, Doc.date_purchased this = Some d /\ d < plus_days (period_end last) 1).
Proof.
  intros H.
  destruct (calcPeriodicPaymentsForTerm_rounds_schedule _ _ _ _ _ _ _ H)
    as (model & start_date & end_date & _ & _ & He & _ & _ & Hloop).
  exists end_date. split; [exact He|]. split.
  - destruct (payment_rounds_chained _ _ _ _ _ _ _ _ _ Hloop) as [_ Hall].
    apply Forall_app in Hall. destruct Hall as [_ Hlast].
    inversion Hlast as [|? ? Hp _]; subst. apply Hp.
  - exact (payment_rounds_last _ _ _ _ _ _ _ _ _ _ Hloop).
Qed.

Lemma calcPeriodicPaymentsForTerm_rounds_reach_end_witness :
  exists end_date : DateTime,
    Term.end_date paid_option_term = Some end_date
    /\ period_end {| period_index := 1;
                     period_payment_date := local 2024 1 1;
                     period_start := local 2024 1 1;
                     period_end := local 2024 12 31 |} <= end_date.
Proof.
  destruct (calcPeriodicPaymentsForTerm_rounds_reach_end
              10 shared_option_doc paid_option_term None (Some [per_acre_model])
              half_and_half
              [ {| period_index := 0;
                   period_payment_date := local 2023 1 1;
                   period_start := local 2023 1 1;
                   period_end := local 2023 12 31 |} ]
              {| period_index := 1;
                 period_payment_date := local 2024 1 1;
                 period_start := local 2024 1 1;
                 period_end := local 2024 12 31 |})
    as (end_date & He & Hle & _).
  - vm_compute. reflexivity.
  - exists end_date. split; [exact He | exact Hle].
Defined.

(** ** Terms left without a schedule, and terms paid once *)

Lemma calcPeriodicPaymentsForTerm_rounds_loop
      (fuel : nat) (this : Doc.t) (term : Term.t) (first_payment_date : option DateTime)
      (paymentModels : option (list TermModel.t)) (grantor : list Grantor)
      (model : TermModel.t) (start_date end_date : DateTime) :
  Term.cancelled_by_ops term = false ->
  grantor <> [] ->
  termPaymentModel term paymentModels = Some model ->
  Term.start_date term = Some start_date ->
  Term.end_date term = Some end_date ->
  calcPeriodicPaymentsForTerm_rounds fuel this term first_payment_date paymentModels grantor
  = payment_rounds fuel (Doc.date_purchased this) (TermModel.payment_frequency model)
                   (TermModel.prorated_first_period model) end_date start_date
                   (first_payment term first_payment_date start_date) 0.
Proof.
  intros Hc Hg Hm Hs He. unfold calcPeriodicPaymentsForTerm_rounds.
  rewrite Hc, Hm, Hs, He. destruct grantor as [|g rest]; [congruence | reflexivity].
Qed.

(** X19. A term whose model has a frequency and alignment for which the
    calendar assigns no period end, such as pro-rated "Semiannually", is
    left without a schedule: where the term would have a first period, the
    generator returns nothing at all. *)
Theorem calcPeriodicPaymentsForTerm_rounds_need_period_end
        (fuel : nat) (this : Doc.t) (term : Term.t) (first_payment_date : option DateTime)
        (paymentModels : option (list TermModel.t)) (grantor : list Grantor)
        (model : TermModel.t) (start_date end_date : DateTime) :
  Term.cancelled_by_ops term = false ->
  grantor <> [] ->
  termPaymentModel term paymentModels = Some model ->
  Term.start_date term = Some start_date ->
  Term.end_date term = Some end_date ->
  ~ period_end_defined (TermModel.payment_frequency model)
                       (TermModel.prorated_first_period model) ->
  start_date < end_date ->
  (forall d, Doc.date_purchased this = Some d -> start_date <= d) ->
  (0 < fuel)%nat ->
  calcPeriodicPaymentsForTerm_rounds fuel this term first_payment_date paymentModels grantor
  = Some None.
Proof.
  intros Hc Hg Hm Hs He Hundef Hlt Hp Hfuel.
  rewrite (calcPeriodicPaymentsForTerm_rounds_loop _ _ _ _ _ _ _ _ _ Hc Hg Hm Hs He).
  destruct fuel as [|fuel]; [lia|]. simpl.
  destruct (start_date <? end_date) eqn:E; [|apply Z.ltb_ge in E; lia].
  assert (Hpur : match Doc.date_purchased this with
                 | Some purchased => start_date >? purchased
                 | None => false
                 end = false).
  { destruct (Doc.date_purchased this) as [d|]; [|reflexivity].
    specialize (Hp d eq_refl). lia. }
  rewrite Hpur. unfold calcPaymentPeriodEnd.
  destruct (natural_period_end (first_payment term first_payment_date start_date)
                               (TermModel.payment_frequency model)
                               (TermModel.prorated_first_period model) end_date)
    as [natural|] eqn:En; [|reflexivity].
  exfalso. apply Hundef.
  apply (natural_period_end_defined (first_payment term first_payment_date start_date)
                                    _ _ end_date).
  exists natural. exact En.
Qed.

Lemma calcPeriodicPaymentsForTerm_rounds_need_period_end_witness :
  calcPeriodicPaymentsForTerm_rounds 10 shared_option_doc paid_option_term None
                                     (Some [prorated_semiannual_model]) half_and_half
  = Some None.
Proof.
  apply (calcPeriodicPaymentsForTerm_rounds_need_period_end
           10 shared_option_doc paid_option_term None (Some [prorated_semiannual_model])
           half_and_half prorated_semiannual_model (local 2023 1 1) (local 2024 12 31)).
  - reflexivity.
  - discriminate.
  - reflexivity.
  - reflexivity.
  - reflexivity.
  - intros [H | [H | H]]; discriminate H.
  - vm_compute. reflexivity.
  - intros d Hd. discriminate Hd.
  - lia.
Defined.

(** X20. A term with a model paid "Once per Term" on anniversary alignment has
    one period, from the start of the term to its end, paid on the first
    payment date. *)
Theorem calcPeriodicPaymentsForTerm_rounds_once_per_term
        (fuel : nat) (this : Doc.t) (term : Term.t) (first_payment_date : option DateTime)
        (paymentModels : option (list TermModel.t)) (grantor : list Grantor)
        (model : TermModel.t) (start_date end_date : DateTime) :
  Term.cancelled_by_ops term = false ->
  grantor <> [] ->
  termPaymentModel term paymentModels = Some model ->
  Term.start_date term = Some start_date ->
  Term.end_date term = Some end_date ->
  TermModel.payment_frequency model = Some "Once per Term"%string ->
  TermModel.prorated_first_period model = false ->
  start_date < end_date ->
  (forall d, Doc.date_purchased this = Some d -> start_date <= d) ->
  (2 <= fuel)%nat ->
  calcPeriodicPaymentsForTerm_rounds fuel this term first_payment_date paymentModels grantor
  = Some (Some [ {| period_index := 0;
                    period_payment_date :=
                      first_payment term first_payment_date start_date;
                    period_start := start_date;
                    period_end := end_date |} ]).
Proof.
  intros Hc Hg Hm Hs He Hfreq Hpro Hlt Hp Hfuel.
  rewrite (calcPeriodicPaymentsForTerm_rounds_loop _ _ _ _ _ _ _ _ _ Hc Hg Hm Hs He).
  rewrite Hfreq, Hpro.
  destruct fuel as [|[|fuel]]; [lia | lia |]. cbn [payment_rounds].
  destruct (start_date <? end_date) eqn:E; [|apply Z.ltb_ge in E; lia].
  assert (Hpur : match Doc.date_purchased this with
                 | Some purchased => start_date >? purchased
                 | None => false
                 end = false).
  { destruct (Doc.date_purchased this) as [d|]; [|reflexivity].
    specialize (Hp d eq_refl). lia. }
  rewrite Hpur.
  assert (Hend : calcPaymentPeriodEnd (first_payment term first_payment_date start_date)
                                      (Some "Once per Term"%string) false end_date
                 = Some end_date).
  { unfold calcPaymentPeriodEnd, natural_period_end. cbn.
    destruct (end_date >=? end_date); reflexivity. }
  rewrite Hend.
  destruct (plus_days end_date 1 <? end_date) eqn:E';
    [apply Z.ltb_lt in E'; unfold plus_days, MS_PER_DAY in E'; lia | reflexivity].
Qed.

Lemma calcPeriodicPaymentsForTerm_rounds_once_per_term_witness :
  calcPeriodicPaymentsForTerm_rounds 10 shared_option_doc paid_option_term None
                                     (Some [once_per_term_model]) half_and_half
  = Some (Some [ {| period_index := 0;
                    period_payment_date := local 2023 1 1;
                    period_start := local 2023 1 1;
                    period_end := local 2024 12 31 |} ]).
Proof.
  apply (calcPeriodicPaymentsForTerm_rounds_once_per_term
           10 shared_option_doc paid_option_term None (Some [once_per_term_model])
           half_and_half once_per_term_model (local 2023 1 1) (local 2024 12 31)).
  - reflexivity.
  - discriminate.
  - reflexivity.
  - reflexivity.
  - reflexivity.
  - reflexivity.
  - reflexivity.
  - vm_compute. reflexivity.
  - intros d Hd. discriminate Hd.
  - lia.
Defined.

(** ** Nicknames *)

Lemma append_empty (s : string) : (s ++ "")%string = s.
Proof. induction s as [|c s IH]; simpl; [reflexivity | now rewrite IH]. Qed.

Lemma substring_prefix (n : nat) :
  forall s : string, exists rest : string, s = (String.substring 0 n s ++ rest)%string.
Proof.
  induction n as [|n IH]; intros s.
  - exists s. destruct s; reflexivity.
  - destruct s as [|c s]; simpl.
    + exists ""%string. reflexivity.
    + destruct (IH s) as [rest Hrest]. exists rest. now rewrite <- Hrest.
Qed.

Lemma substring_empty (n : nat) (s : string) :
  String.substring 0 n s = ""%string -> n = O \/ s = ""%string.
Proof.
  destruct n as [|n]; [left; reflexivity|].
  destruct s as [|c s]; [right; reflexivity|]. simpl. discriminate.
Qed.

Lemma substring_shorten (a b : Ascii.ascii) :
  forall (m : nat) (s : string),
    String.substring m 2 s = String a (String b "") ->
    String.substring m 1 s = String a "".
Proof.
  induction m as [|m IH]; intros s H.
  - destruct s as [|c s]; simpl in *; [discriminate H|].
    injection H as -> _. destruct s; reflexivity.
  - destruct s as [|c s]; simpl in *; [discriminate H | apply IH, H].
Qed.

Lemma lower_ascii_comma (c : Ascii.ascii) :
  lower_ascii c = comma -> c = comma.
Proof.
  destruct c as [[] [] [] [] [] [] [] []]; vm_compute; intros H;
    try discriminate H; reflexivity.
Qed.

Lemma toLowerCase_comma (s rest : string) :
  toLowerCase s = String comma rest -> exists rest' : string, s = String comma rest'.
Proof.
  destruct s as [|c s]; simpl; [discriminate|].
  intros H. injection H as Hc _. apply lower_ascii_comma in Hc. subst c.
  exists s. reflexivity.
Qed.

(** Where [", "] occurs, [","] occurs. *)
Lemma index_comma_of_pair (s : string) (m : nat) :
  String.index 0 ", " s = Some m -> String.index 0 "," s <> None.
Proof.
  intros H Hnone. apply index_correct1 in H. cbn [String.length] in H.
  apply substring_shorten in H.
  apply (index_correct3 0 m "," s Hnone); [discriminate | lia | exact H].
Qed.

Lemma index_comma_first (s : string) :
  String.index 0 "," s = Some O -> exists rest : string, s = String comma rest.
Proof.
  intros H. apply index_correct1 in H. cbn [String.length] in H.
  destruct s as [|c s]; simpl in H; [discriminate H|].
  exists s. destruct s; injection H as ->; reflexivity.
Qed.

(** X21. A nickname is the beginning of the name, and it is empty only for
    an empty name or a name that begins with a comma. *)
Theorem nicknameGrantor_cut (longName : string) :
  (exists rest : string, longName = (nicknameGrantor longName ++ rest)%string)
  /\ (nicknameGrantor longName = ""%string ->
      longName = ""%string \/ exists rest : string, longName = String comma rest).
Proof.
  split.
  - unfold nicknameGrantor.
    destruct (_ ++ _) as [|i rest]; [|apply substring_prefix].
    exists ""%string. symmetry. apply append_empty.
  - unfold nicknameGrantor. set (lowered := toLowerCase longName).
    assert (Hcomma : (indexOf ", " lowered >? 0) = true ->
                     Z.to_nat (indexOf "," lowered) = O ->
                     exists rest : string, longName = String comma rest).
    { unfold indexOf. intros Hpair Hzero.
      destruct (String.index 0 ", " lowered) as [m|] eqn:Em; [|discriminate Hpair].
      pose proof (index_comma_of_pair lowered m Em) as Hsome.
      destruct (String.index 0 "," lowered) as [k|] eqn:Ek; [|congruence].
      assert (k = O) by lia. subst k.
      destruct (index_comma_first lowered Ek) as [rest Hrest].
      exact (toLowerCase_comma longName rest Hrest). }
    destruct (indexOf " and " lowered >? 0) eqn:Ea;
      destruct (indexOf ", " lowered >? 0) eqn:Ec; cbn [app fold_left]; intros H.
    + apply substring_empty in H. destruct H as [H | H]; [|left; exact H].
      right. apply Hcomma; [reflexivity | lia].
    + apply substring_empty in H. destruct H as [H | H]; [lia | left; exact H].
    + apply substring_empty in H. destruct H as [H | H]; [|left; exact H].
      right. apply Hcomma; [reflexivity | exact H].
    + left. exact H.
Qed.

(** ** Terms with an empty model name *)

(** X22. An empty [payment_model] is a name all the same for [??]: the type
    of the term is not consulted, and the term receives the first model of
    the list, as a term without any name does.  Whatever the names, the
    model returned is one of the list. *)
Theorem termPaymentModel_empty_name :
  (forall (term : Term.t) (m : TermModel.t) (others : list TermModel.t),
      Term.payment_model term = Some ""%string ->
      termPaymentModel term (Some (m :: others)) = Some m)
  /\ (forall (term : Term.t) (models : list TermModel.t) (m : TermModel.t),
         termPaymentModel term (Some models) = Some m -> In m models).
Proof.
  split.
  - intros term m others Hname. unfold termPaymentModel. rewrite Hname. reflexivity.
  - intros term models m. unfold termPaymentModel.
    destruct models as [|m0 rest]; [discriminate|].
    destruct (JS.truthy_str _).
    + unfold JS.find. intros H. apply find_some in H. apply H.
    + simpl. intros [= <-]. left. reflexivity.
Qed.

Lemma termPaymentModel_empty_name_witness :
  termPaymentModel (sample_term 1 "Operations" 25 (Some ""%string) None None)
                   (Some [per_acre_model; blended_model])
  = Some per_acre_model.
Proof. apply (proj1 termPaymentModel_empty_name). reflexivity. Defined.

(** ** Quality control and the date based generator *)

Example qc_flags_of_an_empty_model :
  qc_date_model_flags (Some "Lease"%string) (dated_doc []) 2 bare_date_model
  = [ "Missing payment_type on Date Payment Model 3";
      "Missing payment_amount on Date Payment Model 3";
      "Missing Frequency on Recurring Date Payment Model 3";
      "Missing End Date on Recurring Date Payment Model 3" ]%string.
Proof. vm_compute. reflexivity. Qed.

Example qc_flags_of_a_terminated_document :
  qc_date_model_flags (Some "Lease"%string) (terminated_doc []) 2 bare_date_model = []
  /\ qc_date_model_flags (Some "Master Service Agreement"%string) (dated_doc []) 2
                         bare_date_model = [].
Proof. vm_compute. split; reflexivity. Qed.

(** X23. On a Master Service Agreement and on a document with a termination
    date the quality control flags no date payment model, whatever the
    model lacks.  On every other document a date payment model that it
    leaves without a flag has an amount, and on an agreement with grantors
    the date based generator takes it up exactly when that amount is not
    zero: a model of amount zero is neither flagged nor scheduled. *)
Theorem qc_clean_date_model (document_type : option string) (this : Doc.t)
        (modelIndex : nat) (model : DateModel.t) :
  (qc_out_of_scope document_type this = true ->
   qc_date_model_flags document_type this modelIndex model = [])
  /\ (qc_out_of_scope document_type this = true <->
      document_type = Some "Master Service Agreement"%string
      \/ termination_date (Doc.termination this) <> None)
  /\ (qc_out_of_scope document_type this = false ->
      qc_date_model_flags document_type this modelIndex model = [] ->
      Doc.grantor this <> [] ->
      (exists amount : Q, DateModel.payment_amount model = Some amount)
      /\ date_model_complete this model = JS.truthy_num (DateModel.payment_amount model)).
Proof.
  split; [|split].
  - intros Hout. unfold qc_date_model_flags. rewrite Hout. reflexivity.
  - unfold qc_out_of_scope. rewrite orb_true_iff, strict_eq_str_Some.
    destruct (termination_date (Doc.termination this)); cbn [JS.truthy_obj];
      split; intros [H | H]; auto; try discriminate; try congruence.
    right. discriminate.
  - unfold qc_date_model_flags, date_model_complete. intros Hscope Hclean Hgrantor.
    rewrite Hscope in Hclean. cbv zeta in Hclean.
    destruct (Doc.grantor this) as [|g rest]; [congruence|].
    change (Z.b2z (Z.of_nat (List.length (g :: rest)) =? 0) >? 0) with false.
    destruct (DateModel.payment_type model) as [[|c s]|]; try discriminate Hclean.
    destruct (DateModel.payment_amount model) as [amount|];
      [|destruct (DateModel.date_begin model), (DateModel.date_one_time model);
        discriminate Hclean].
    split; [exists amount; reflexivity|].
    cbn [JS.truthy_str JS.truthy_num negb app] in *.
    destruct (Qeq_bool amount 0);
      destruct (DateModel.date_begin model), (DateModel.date_one_time model),
        (DateModel.date_end model), (DateModel.frequency model) as [[|c' s']|];
      cbn [JS.truthy_obj JS.truthy_str negb andb orb app] in *;
      try discriminate Hclean; reflexivity.
Qed.

Lemma qc_clean_date_model_witness :
  ((exists amount : Q, DateModel.payment_amount annual_model = Some amount)
   /\ date_model_complete (dated_doc [annual_model]) annual_model = true)
  /\ qc_date_model_flags (Some "Lease"%string) (terminated_doc [bare_date_model]) 0
                         bare_date_model = [].
Proof.
  split.
  - apply (proj2 (proj2 (qc_clean_date_model (Some "Lease"%string)
                                             (dated_doc [annual_model]) 0 annual_model))).
    + reflexivity.
    + vm_compute. reflexivity.
    + discriminate.
  - apply (proj1 (qc_clean_date_model (Some "Lease"%string)
                                      (terminated_doc [bare_date_model]) 0
                                      bare_date_model)).
    reflexivity.
Defined.

(** ** Quality control and the base payment *)

Lemma falsy_num_zero (x : option Q) :
  JS.truthy_num x = false -> (JS.nullish x 0 == 0)%Q.
Proof.
  destruct x as [q|]; simpl; [|reflexivity].
  intros H. apply negb_false_iff in H. apply Qeq_bool_eq, H.
Qed.

Lemma Qmax_zero (a b : Q) : (a == 0)%Q -> (b == 0)%Q -> (Qmax a b == 0)%Q.
Proof.
  intros Ha Hb. destruct (Q.max_spec a b) as [[_ H] | [_ H]]; rewrite H; assumption.
Qed.

(** X24. A term payment model that the quality control flags with "Cannot
    calculate payment amount" has a base payment of zero: a term under it
    is paid its cumulative increase times its cumulative escalation, and
    nothing else. *)
Theorem qc_flagged_term_model_pays_nothing
        (total_agreement_acres : option Q) (modelIndex : nat) (model : TermModel.t)
        (op_details : option OpDetails)
        (cumulative_escalation_rate cumulative_increase_amount : Q)
        (agreement_acres : option Q) :
  In ("Cannot calculate payment amount on Term Payment Model "
      ++ decimal (modelIndex + 1))%string
     (qc_term_model_flags total_agreement_acres modelIndex model) ->
  (periodicBasePayment (Some model) op_details cumulative_escalation_rate
                       cumulative_increase_amount agreement_acres
   == cumulative_increase_amount * cumulative_escalation_rate)%Q.
Proof.
  unfold qc_term_model_flags. intros Hin.
  assert (Hall : JS.truthy_num (TermModel.minimum_payment model) = false
                 /\ JS.truthy_num (TermModel.flat_payment_amount model) = false
                 /\ JS.truthy_num (TermModel.payment_per_mw model) = false
                 /\ JS.truthy_num (TermModel.payment_per_mva model) = false
                 /\ JS.truthy_num (TermModel.payment_per_acre model) = false).
  { destruct (JS.truthy_num (TermModel.minimum_payment model)),
      (JS.truthy_num (TermModel.flat_payment_amount model)),
      (JS.truthy_num (TermModel.payment_per_mw model)),
      (JS.truthy_num (TermModel.payment_per_mva model)),
      (JS.truthy_num (TermModel.payment_per_acre model));
      try (repeat split; reflexivity); exfalso;
      cbn [negb andb app] in Hin;
      repeat (apply in_app_or in Hin; destruct Hin as [Hin | Hin]);
      repeat match type of Hin with
             | In _ (if ?c then _ else _) => destruct c
             end;
      repeat (destruct Hin as [Hin | Hin]; [discriminate Hin|]);
      exact Hin. }
  destruct Hall as (H1 & H2 & H3 & H4 & H5).
  unfold periodicBasePayment. cbv zeta.
  apply falsy_num_zero in H1, H2, H3, H4, H5.
  assert (Hbase : forall a b c d e : Q,
             (a == 0 -> b == 0 -> c == 0 -> d == 0 -> e == 0 ->
              Qmax a (Qmax b (Qmax c (Qmax d e))) == 0)%Q).
  { intros. repeat apply Qmax_zero; assumption. }
  rewrite Hbase.
  - ring.
  - exact H1.
  - rewrite H3. ring.
  - rewrite H4. ring.
  - exact H2.
  - rewrite H5. ring.
Qed.

Lemma qc_flagged_term_model_pays_nothing_witness :
  (periodicBasePayment (Some unpriced_model) None 1 50 None == 50 * 1)%Q.
Proof.
  apply (qc_flagged_term_model_pays_nothing None 0 unpriced_model).
  vm_compute. left. reflexivity.
Defined.
